(** * quantNotebooks: factor library and long/short strategies

    A shallow embedding of the factor catalogue
    ([Notebooks/factor-lib/Z99-AlphasLibIndex.py], [AlphasLibIndex.py]) and
    of two strategies ([Notebooks/strategies/Pioneer_0101.py],
    [Notebooks/strategies/08282017-MVF-12M_Momentum_EVtoStoSG.py]).

    Numbers.  The code computes on numpy [float64] arrays.  Finite values
    are modelled as exact rationals ([Qc]); the three special values that
    numpy produces and propagates ([nan], [+inf], [-inf]) are kept, with the
    IEEE rules for them, and a product that leaves the range of [float64]
    is an infinity.  Rounding and the sign of zero are not modelled.
    [np.sqrt] and [np.log] have irrational values: the development is
    parametric in them.  Where the rounding decides, the code is run on
    binary64 numbers ([Float64]). *)

From Stdlib Require Import String.
From Stdlib Require Import QArith Qcanon ZArith List Bool Lia Permutation.
From Stdlib Require Import Sorted.
From Stdlib Require Import Lqa.
From Stdlib Require PrimFloat.
Import ListNotations.

Local Open Scope nat_scope.

(** ** Numbers *)

Inductive num : Set :=
| NaN
| PInf
| NInf
| Fin (q : Qc).

Definition Qc_ltb (a b : Qc) : bool :=
  match (a ?= b)%Qc with Lt => true | _ => false end.

Definition Qc_is_zero (a : Qc) : bool :=
  match (a ?= 0)%Qc with Eq => true | _ => false end.

Definition of_Z (z : Z) : num := Fin (Q2Qc (inject_Z z)).
Definition of_nat (n : nat) : num := of_Z (Z.of_nat n).
Definition ratio (n : Z) (d : positive) : num := Fin (Q2Qc (n # d)).

Definition isnan (x : num) : bool :=
  match x with NaN => true | _ => false end.

Definition is_finite (x : num) : bool :=
  match x with Fin _ => true | _ => false end.

Definition nneg (x : num) : num :=
  match x with
  | NaN => NaN
  | PInf => NInf
  | NInf => PInf
  | Fin a => Fin (- a)%Qc
  end.

Definition nadd (x y : num) : num :=
  match x, y with
  | NaN, _ | _, NaN => NaN
  | PInf, NInf | NInf, PInf => NaN
  | PInf, _ | _, PInf => PInf
  | NInf, _ | _, NInf => NInf
  | Fin a, Fin b => Fin (a + b)%Qc
  end.

Definition nsub (x y : num) : num := nadd x (nneg y).

(** The infinity of the given sign. *)
Definition signed_inf (negative : bool) : num :=
  if negative then NInf else PInf.

(** The range of [float64]: a finite product whose exact value is
    [2^1024] or more in absolute value overflows to the infinity of its
    sign.  Inside the range the product is kept exact. *)
Definition double_range : Qc := Q2Qc (inject_Z (2 ^ 1024)).

Definition overflows (q : Qc) : bool :=
  negb (Qc_ltb q double_range && Qc_ltb (- double_range) q).

Definition float_product (q : Qc) : num :=
  if overflows q then signed_inf (Qc_ltb q 0) else Fin q.

Definition nmul (x y : num) : num :=
  match x, y with
  | NaN, _ | _, NaN => NaN
  | Fin a, Fin b => float_product (a * b)%Qc
  | PInf, PInf | NInf, NInf => PInf
  | PInf, NInf | NInf, PInf => NInf
  | PInf, Fin b | Fin b, PInf =>
      if Qc_is_zero b then NaN else signed_inf (Qc_ltb b 0)
  | NInf, Fin b | Fin b, NInf =>
      if Qc_is_zero b then NaN else signed_inf (negb (Qc_ltb b 0))
  end.

(** Powers of two, and the numbers that are not finite values of
    absolute value [bound] or more. *)
Definition pow2 (e : Z) : Qc := Q2Qc (inject_Z (2 ^ e)).

Definition below (bound : Qc) (x : num) : Prop :=
  match x with
  | Fin q => (- bound < q)%Qc /\ (q < bound)%Qc
  | _ => True
  end.

(** numpy true division: a finite quotient, [x/0 = +-inf] for [x <> 0],
    [0/0 = nan]; nothing is raised. *)
Definition ndiv (x y : num) : num :=
  match x, y with
  | NaN, _ | _, NaN => NaN
  | Fin a, Fin b =>
      if Qc_is_zero b
      then (if Qc_is_zero a then NaN else signed_inf (Qc_ltb a 0))
      else Fin (a / b)%Qc
  | Fin _, _ => Fin 0%Qc
  | _, PInf | _, NInf => NaN
  | PInf, Fin b => signed_inf (Qc_ltb b 0)
  | NInf, Fin b => signed_inf (negb (Qc_ltb b 0))
  end.

(** [x < y]; false as soon as one side is [nan]. *)
Definition nlt (x y : num) : bool :=
  match x, y with
  | NaN, _ | _, NaN => false
  | _, NInf => false
  | PInf, _ => false
  | NInf, _ => true
  | _, PInf => true
  | Fin a, Fin b => Qc_ltb a b
  end.

Definition ngt (x y : num) : bool := nlt y x.

Definition num_eqb (x y : num) : bool :=
  match x, y with
  | NaN, NaN | PInf, PInf | NInf, NInf => true
  | Fin a, Fin b => Qc_eq_bool a b
  | _, _ => false
  end.

(** [==] of numpy: [nan] is not equal to itself. *)
Definition neq (x y : num) : bool :=
  match x with NaN => false | _ => num_eqb x y end.

Declare Scope num_scope.
Delimit Scope num_scope with num.
Bind Scope num_scope with num.
Infix "+" := nadd : num_scope.
Infix "-" := nsub : num_scope.
Infix "*" := nmul : num_scope.
Infix "/" := ndiv : num_scope.
Notation "- x" := (nneg x) : num_scope.

(** ** Exceptions *)

Inductive exn : Set :=
| IndexError
| ValueError
| TypeError
| ZeroDivisionError
| DataUnavailable
| TalibError.

Inductive result (A : Type) : Type :=
| Ok (a : A)
| Raise (e : exn).
Arguments Ok {A} a.
Arguments Raise {A} e.

Definition bind {A B} (r : result A) (k : A -> result B) : result B :=
  match r with
  | Ok a => k a
  | Raise e => Raise e
  end.


Notation "x <- r ;; k" := (bind r (fun x => k))
  (at level 61, r at next level, right associativity).

Fixpoint mapM {A B} (f : A -> result B) (l : list A) : result (list B) :=
  match l with
  | [] => Ok []
  | x :: l' => y <- f x ;; ys <- mapM f l' ;; Ok (y :: ys)
  end.

Definition raises {A} (r : result A) : Prop :=
  match r with Raise _ => True | Ok _ => False end.

(** ** Python and numpy on one-dimensional data *)

Definition vec := list num.

(** [l[i]] for a Python index, negative ones counted from the end. *)
Definition py_index {A} (l : list A) (i : Z) : result A :=
  let n := Z.of_nat (length l) in
  let j := (if i <? 0 then i + n else i)%Z in
  if ((0 <=? j) && (j <? n))%Z
  then match nth_error l (Z.to_nat j) with
       | Some a => Ok a
       | None => Raise IndexError
       end
  else Raise IndexError.

(** [l[-k:]] for [k > 0]. *)
Definition slice_last {A} (k : nat) (l : list A) : list A :=
  skipn (length l - k) l.

(** [l[0::step]]. *)
Fixpoint slice_step_aux {A} (step skip : nat) (l : list A) : list A :=
  match l with
  | [] => []
  | x :: l' =>
      match skip with
      | O => x :: slice_step_aux step (step - 1) l'
      | S k => slice_step_aux step k l'
      end
  end.

Definition slice_step {A} (step : nat) (l : list A) : list A :=
  slice_step_aux step 0 l.

(** [np.roll(l, 1)]. *)
Definition np_roll1 {A} (l : list A) : list A :=
  match rev l with
  | [] => []
  | x :: r => x :: rev r
  end.

Definition enumerate {A} (l : list A) : list (Z * A) :=
  combine (map Z.of_nat (seq 0 (length l))) l.

Fixpoint map2 {A B C} (f : A -> B -> C) (l : list A) (m : list B) : list C :=
  match l, m with
  | a :: l', b :: m' => f a b :: map2 f l' m'
  | _, _ => []
  end.

(** Element-wise arithmetic of two rows of one window (same shape). *)
Definition vadd : vec -> vec -> vec := map2 nadd.
Definition vsub : vec -> vec -> vec := map2 nsub.
Definition vmul : vec -> vec -> vec := map2 nmul.
Definition vdiv : vec -> vec -> vec := map2 ndiv.
(** Arithmetic with a scalar on the right or on the left. *)
Definition vmuls (v : vec) (k : num) : vec := map (fun x => nmul x k) v.
Definition vdivs (v : vec) (k : num) : vec := map (fun x => ndiv x k) v.
Definition vsubs (v : vec) (k : num) : vec := map (fun x => nsub x k) v.
Definition sdivv (k : num) (v : vec) : vec := map (fun x => ndiv k x) v.

Definition np_sum (v : vec) : num := fold_left nadd v (Fin 0%Qc).

(** [np.dot] of two one-dimensional arrays. *)
Definition np_dot (a b : vec) : result num :=
  if Nat.eqb (length a) (length b) then Ok (np_sum (vmul a b))
  else Raise ValueError.

Definition np_mean (v : vec) : num := ndiv (np_sum v) (of_nat (length v)).

(** [_replace_nan(a, 0)] and the count of the entries that are not [nan]. *)
Definition replace_nan (v : vec) : vec :=
  map (fun x => if isnan x then Fin 0%Qc else x) v.

Definition valid (x : num) : bool := negb (isnan x).

Definition count_valid (v : vec) : nat := length (filter valid v).

Definition np_nanmean (v : vec) : num :=
  ndiv (np_sum (replace_nan v)) (of_nat (count_valid v)).

(** [np.nanvar(v, ddof)]: deviations from the nan-aware mean, zero at the
    [nan] positions, squared and summed, divided by [count - ddof]; [nan]
    when [count - ddof <= 0]. *)
Definition np_nanvar (ddof : nat) (v : vec) : num :=
  let cnt := count_valid v in
  let avg := ndiv (np_sum (replace_nan v)) (of_nat cnt) in
  let dev := map (fun x => if isnan x then Fin 0%Qc else nsub x avg) v in
  let var := ndiv (np_sum (vmul dev dev)) (of_Z (Z.of_nat cnt - Z.of_nat ddof)) in
  if (Z.of_nat cnt - Z.of_nat ddof <=? 0)%Z then NaN else var.

(** [np.cov(x, y)] (two variables, [ddof = 1]): the entries [0,1] and
    [1,1] of the covariance matrix, the only ones the code reads. *)
Definition np_cov (x y : vec) : result (num * num) :=
  if Nat.eqb (length x) (length y) then
    let n := length x in
    let fact := if (Z.of_nat n - 1 <=? 0)%Z then Fin 0%Qc
                else of_Z (Z.of_nat n - 1) in
    let dx := vsubs x (np_mean x) in
    let dy := vsubs y (np_mean y) in
    Ok (ndiv (np_sum (vmul dx dy)) fact, ndiv (np_sum (vmul dy dy)) fact)
  else Raise ValueError.

(** Daily returns of one column:
    [((col - np.roll(col, 1)) / np.roll(col, 1))[1:]]. *)
Definition column_returns (col : vec) : vec :=
  tl (vdiv (vsub col (np_roll1 col)) (np_roll1 col)).

(** Python's built-in [min] and [max] over the elements of a column:
    the first element, replaced while a later one compares smaller
    (larger); [ValueError] on an empty sequence. *)
Definition py_min (v : vec) : result num :=
  match v with
  | [] => Raise ValueError
  | x :: v' => Ok (fold_left (fun m y => if nlt y m then y else m) v' x)
  end.

Definition py_max (v : vec) : result num :=
  match v with
  | [] => Raise ValueError
  | x :: v' => Ok (fold_left (fun m y => if ngt y m then y else m) v' x)
  end.

(** [zip] of three and of four lists. *)
Definition zip3 {A B C} (a : list A) (b : list B) (c : list C)
  : list (A * B * C) := combine (combine a b) c.
Definition zip4 {A B C D} (a : list A) (b : list B) (c : list C)
  (d : list D) : list (A * B * C * D) := combine (zip3 a b c) d.

(** ** External numeric routines

    [np.sqrt], [np.log] and the two TA-Lib indicators the catalogue calls
    ([talib.MACD(col, 12, 26, 10)] and
    [talib.STOCH(high, low, close, 5, 3, 0, 3, 0)]) are not part of the
    repository; the TA-Lib calls may raise. *)
Class External : Type := {
  np_sqrt : num -> num;
  np_log : num -> num;
  talib_MACD : vec -> result (vec * vec * vec);
  talib_STOCH : vec -> vec -> vec -> result (vec * vec)
}.

(** ** Windows *)

Definition asset := Z.

(** A window is a two-dimensional array [length x N]: the list of its rows,
    oldest first, each row holding one value per instrument. *)
Definition window := list vec.

Definition column (j : nat) (w : window) : vec :=
  map (fun row => nth j row NaN) w.

(** [w.T], iterated column by column, for a window of [n] instruments. *)
Definition transpose (n : nat) (w : window) : list vec :=
  map (fun j => column j w) (seq 0 n).

(** [a * b] of two windows of the same width: one product per day and
    instrument. numpy stretches a window of one row over the rows of the
    other, and raises [ValueError] on two other numbers of rows. *)
Definition np_multiply (a b : window) : result window :=
  if Nat.eqb (length a) (length b) then Ok (map2 vmul a b)
  else match a, b with
       | [row], _ => Ok (map (fun r => vmul row r) b)
       | _, [row] => Ok (map (fun r => vmul r row) a)
       | _, _ => Raise ValueError
       end.

(** The data columns the factors declare as [inputs]. *)
Inductive field : Set :=
| close | volume | high | low
| ps_ratio | pe_ratio | forward_pe_ratio | dividend_yield
| fcf_per_share | cfo_per_share | book_value_per_share
| book_value_yield | sales_yield | fcf_yield
| diluted_eps | basic_eps | dividend_per_share
| total_assets | retained_earnings | common_stock_equity | total_debt
| cash_and_cash_equivalents | working_capital | total_liabilities
| shares_outstanding | enterprise_value | market_cap
| free_cash_flow | capital_expenditure | operating_cash_flow
| ebitda | total_revenue | ebit | interest_expense | gross_profit
| current_ratio | net_margin | roe | roa | roic
| dps_growth
| libor_value.

(** A [CustomFactor] subclass: its declared inputs, its window length, and
    [compute(self, today, assets, out, *inputs)], which returns what it
    assigns to [out[:]]. *)
Record CustomFactor : Type := {
  inputs : list field;
  window_length : nat;
  compute : list asset -> list window -> result vec
}.

(** Arity of [compute]: a call with another number of input arrays is a
    [TypeError]. *)
Definition args1 (f : window -> result vec) (ws : list window) : result vec :=
  match ws with [a] => f a | _ => Raise TypeError end.
Definition args2 (f : window -> window -> result vec) (ws : list window)
  : result vec :=
  match ws with [a; b] => f a b | _ => Raise TypeError end.
Definition args3 (f : window -> window -> window -> result vec)
  (ws : list window) : result vec :=
  match ws with [a; b; c] => f a b c | _ => Raise TypeError end.
Definition args4 (f : window -> window -> window -> window -> result vec)
  (ws : list window) : result vec :=
  match ws with [a; b; c; d] => f a b c d | _ => Raise TypeError end.

Definition four : num := of_Z 4.

Definition np_nanstd `{External} (v : vec) : num := np_sqrt (np_nanvar 0 v).

(** ** The factor catalogue of [Z99-AlphasLibIndex.py] ([class Factors]) *)

Module Factors.
Section Catalog.
Context `{External}.

(** *** Traditional value *)

Definition Price_To_Sales_compute (assets : list asset) (ps : window) :=
  py_index ps (-1).
Definition Price_To_Sales : CustomFactor :=
  {| inputs := [ps_ratio]; window_length := 1;
     compute := fun a => args1 (Price_To_Sales_compute a) |}.

Definition Price_To_Earnings_compute (assets : list asset) (pe : window) :=
  py_index pe (-1).
Definition Price_To_Earnings : CustomFactor :=
  {| inputs := [pe_ratio]; window_length := 1;
     compute := fun a => args1 (Price_To_Earnings_compute a) |}.

Definition Price_To_Diluted_Earnings_compute (assets : list asset)
  (close deps : window) : result vec :=
  c <- py_index close (-1) ;; d <- py_index deps (-1) ;;
  Ok (vdiv c (vmuls d four)).
Definition Price_To_Diluted_Earnings : CustomFactor :=
  {| inputs := [close; diluted_eps]; window_length := 1;
     compute := fun a => args2 (Price_To_Diluted_Earnings_compute a) |}.

Definition Price_To_Forward_Earnings_compute (assets : list asset)
  (fpe : window) := py_index fpe (-1).
Definition Price_To_Forward_Earnings : CustomFactor :=
  {| inputs := [forward_pe_ratio]; window_length := 1;
     compute := fun a => args1 (Price_To_Forward_Earnings_compute a) |}.

Definition Dividend_Yield_compute (assets : list asset) (dy : window) :=
  py_index dy (-1).
Definition Dividend_Yield : CustomFactor :=
  {| inputs := [dividend_yield]; window_length := 1;
     compute := fun a => args1 (Dividend_Yield_compute a) |}.

Definition Price_To_Free_Cashflows_compute (assets : list asset)
  (close fcf : window) : result vec :=
  c <- py_index close (-1) ;; f <- py_index fcf (-1) ;; Ok (vdiv c f).
Definition Price_To_Free_Cashflows : CustomFactor :=
  {| inputs := [close; fcf_per_share]; window_length := 1;
     compute := fun a => args2 (Price_To_Free_Cashflows_compute a) |}.

Definition Price_To_Operating_Cashflows_compute (assets : list asset)
  (close cfo : window) : result vec :=
  c <- py_index close (-1) ;; f <- py_index cfo (-1) ;; Ok (vdiv c f).
Definition Price_To_Operating_Cashflows : CustomFactor :=
  {| inputs := [close; cfo_per_share]; window_length := 1;
     compute := fun a => args2 (Price_To_Operating_Cashflows_compute a) |}.

Definition Price_To_Book_compute (assets : list asset)
  (close bv : window) : result vec :=
  c <- py_index close (-1) ;; b <- py_index bv (-1) ;; Ok (vdiv c b).
Definition Price_To_Book : CustomFactor :=
  {| inputs := [close; book_value_per_share]; window_length := 1;
     compute := fun a => args2 (Price_To_Book_compute a) |}.

Definition Cashflows_To_Assets_compute (assets : list asset)
  (cfo tot_assets so : window) : result vec :=
  c <- py_index cfo (-1) ;; t <- py_index tot_assets (-1) ;;
  s <- py_index so (-1) ;;
  Ok (vdiv c (vdiv t s)).
Definition Cashflows_To_Assets : CustomFactor :=
  {| inputs := [cfo_per_share; total_assets; shares_outstanding];
     window_length := 1;
     compute := fun a => args3 (Cashflows_To_Assets_compute a) |}.

Definition EV_To_Cashflows_compute (assets : list asset)
  (ev fcf : window) : result vec :=
  e <- py_index ev (-1) ;; f <- py_index fcf (-1) ;; Ok (vdiv e f).
Definition EV_To_Cashflows : CustomFactor :=
  {| inputs := [enterprise_value; free_cash_flow]; window_length := 1;
     compute := fun a => args2 (EV_To_Cashflows_compute a) |}.

Definition EV_To_EBITDA_compute (assets : list asset)
  (ev ebitda_ : window) : result vec :=
  e <- py_index ev (-1) ;; b <- py_index ebitda_ (-1) ;;
  Ok (vdiv e (vmuls b four)).
Definition EV_To_EBITDA : CustomFactor :=
  {| inputs := [enterprise_value; ebitda]; window_length := 1;
     compute := fun a => args2 (EV_To_EBITDA_compute a) |}.

Definition EBITDA_Yield_compute (assets : list asset)
  (close ebitda_ : window) : result vec :=
  b <- py_index ebitda_ (-1) ;; c <- py_index close (-1) ;;
  Ok (vdiv (vmuls b four) c).
Definition EBITDA_Yield : CustomFactor :=
  {| inputs := [close; ebitda]; window_length := 1;
     compute := fun a => args2 (EBITDA_Yield_compute a) |}.

(** *** Momentum *)

(** [for col in close.T: secs.append(f(col))], then [out[:] = secs]. *)
Definition per_column (f : vec -> result num) (assets : list asset)
  (w : window) : result vec :=
  mapM f (transpose (length assets) w).

Definition Percent_Above_Low_column (col : vec) : result num :=
  last_ <- py_index col (-1) ;; m <- py_min col ;;
  Ok (nmul (ndiv (nsub last_ m) m) (of_Z 100)).
Definition Percent_Above_Low_compute (assets : list asset) (close : window) :=
  per_column Percent_Above_Low_column assets close.
Definition Percent_Above_Low : CustomFactor :=
  {| inputs := [close]; window_length := 260;
     compute := fun a => args1 (Percent_Above_Low_compute a) |}.

Definition Percent_Below_High_column (col : vec) : result num :=
  last_ <- py_index col (-1) ;; m <- py_max col ;;
  Ok (nmul (ndiv (nsub last_ m) m) (of_Z 100)).
Definition Percent_Below_High_compute (assets : list asset) (close : window) :=
  per_column Percent_Below_High_column assets close.
Definition Percent_Below_High : CustomFactor :=
  {| inputs := [close]; window_length := 260;
     compute := fun a => args1 (Percent_Below_High_compute a) |}.

Definition Price_Oscillator_column (col : vec) : result num :=
  Ok (nsub (ndiv (np_nanmean (slice_last 20 col)) (np_nanmean col)) (of_Z 1)).
Definition Price_Oscillator_compute (assets : list asset) (close : window) :=
  per_column Price_Oscillator_column assets close.
Definition Price_Oscillator : CustomFactor :=
  {| inputs := [close]; window_length := 252;
     compute := fun a => args1 (Price_Oscillator_compute a) |}.

(** [days = xrange(self.window_length)]; the slope is
    [col_cov[0, 1] / col_cov[1, 1]]. *)
Definition Trendline_column (window_length : nat) (col : vec) : result num :=
  let days := map of_nat (seq 0 window_length) in
  col_cov <- np_cov col days ;;
  Ok (ndiv (fst col_cov) (snd col_cov)).
Definition Trendline_compute (assets : list asset) (close : window) :=
  per_column (Trendline_column 252) assets close.
Definition Trendline : CustomFactor :=
  {| inputs := [close]; window_length := 252;
     compute := fun a => args1 (Trendline_compute a) |}.

(** [(close[-1] - close[0]) / close[0]], the body shared by the price
    rate-of-change factors. *)
Definition rate_of_change (x : window) : result vec :=
  x_last <- py_index x (-1) ;; x_first <- py_index x 0 ;;
  Ok (vdiv (vsub x_last x_first) x_first).

Definition Price_Momentum_1M_compute (assets : list asset) (close : window) :=
  rate_of_change close.
Definition Price_Momentum_1M : CustomFactor :=
  {| inputs := [close]; window_length := 21;
     compute := fun a => args1 (Price_Momentum_1M_compute a) |}.

Definition Price_Momentum_3M_compute (assets : list asset) (close : window) :=
  rate_of_change close.
Definition Price_Momentum_3M : CustomFactor :=
  {| inputs := [close]; window_length := 63;
     compute := fun a => args1 (Price_Momentum_3M_compute a) |}.

Definition Price_Momentum_6M_compute (assets : list asset) (close : window) :=
  rate_of_change close.
Definition Price_Momentum_6M : CustomFactor :=
  {| inputs := [close]; window_length := 126;
     compute := fun a => args1 (Price_Momentum_6M_compute a) |}.

Definition Price_Momentum_12M_compute (assets : list asset) (close : window) :=
  rate_of_change close.
Definition Price_Momentum_12M : CustomFactor :=
  {| inputs := [close]; window_length := 252;
     compute := fun a => args1 (Price_Momentum_12M_compute a) |}.

Definition Returns_39W_compute (assets : list asset) (close : window) :=
  rate_of_change close.
Definition Returns_39W : CustomFactor :=
  {| inputs := [close]; window_length := 215;
     compute := fun a => args1 (Returns_39W_compute a) |}.

(** [np.nanmean] and [np.nanstd] are called without [axis] on the
    one-dimensional array [ret_1Y_monthly] (one entry per instrument):
    both reduce over the instruments. *)
Definition Mean_Reversion_1M_compute (assets : list asset) (close : window)
  : result vec :=
  c_last <- py_index close (-1) ;; c_21 <- py_index close (-21) ;;
  c_0 <- py_index close 0 ;;
  let ret_1M := vdiv (vsub c_last c_21) c_21 in
  let ret_1Y_monthly := vdivs (vdiv (vsub c_last c_0) c_0) (of_Z 12) in
  Ok (vdivs (vsubs ret_1M (np_nanmean ret_1Y_monthly))
            (np_nanstd ret_1Y_monthly)).
Definition Mean_Reversion_1M : CustomFactor :=
  {| inputs := [close]; window_length := 252;
     compute := fun a => args1 (Mean_Reversion_1M_compute a) |}.

(** *** Efficiency *)

Definition Capex_To_Assets_compute (assets : list asset)
  (capex tot_assets : window) : result vec :=
  c <- py_index capex (-1) ;; t <- py_index tot_assets (-1) ;;
  Ok (vdiv (vmuls c four) t).
Definition Capex_To_Assets : CustomFactor :=
  {| inputs := [capital_expenditure; total_assets]; window_length := 1;
     compute := fun a => args2 (Capex_To_Assets_compute a) |}.

Definition Capex_To_Sales_compute (assets : list asset)
  (capex sales : window) : result vec :=
  c <- py_index capex (-1) ;; s <- py_index sales (-1) ;;
  Ok (vdiv (vmuls c four) (vmuls s four)).
Definition Capex_To_Sales : CustomFactor :=
  {| inputs := [capital_expenditure; total_revenue]; window_length := 1;
     compute := fun a => args2 (Capex_To_Sales_compute a) |}.

Definition Capex_To_Cashflows_compute (assets : list asset)
  (capex fcf : window) : result vec :=
  c <- py_index capex (-1) ;; f <- py_index fcf (-1) ;;
  Ok (vdiv (vmuls c four) (vmuls f four)).
Definition Capex_To_Cashflows : CustomFactor :=
  {| inputs := [capital_expenditure; free_cash_flow]; window_length := 1;
     compute := fun a => args2 (Capex_To_Cashflows_compute a) |}.

Definition EBIT_To_Assets_compute (assets : list asset)
  (ebit_ tot_assets : window) : result vec :=
  e <- py_index ebit_ (-1) ;; t <- py_index tot_assets (-1) ;;
  Ok (vdiv (vmuls e four) t).
Definition EBIT_To_Assets : CustomFactor :=
  {| inputs := [ebit; total_assets]; window_length := 1;
     compute := fun a => args2 (EBIT_To_Assets_compute a) |}.

Definition Operating_Cashflows_To_Assets_compute (assets : list asset)
  (cfo tot_assets : window) : result vec :=
  c <- py_index cfo (-1) ;; t <- py_index tot_assets (-1) ;;
  Ok (vdiv (vmuls c four) t).
Definition Operating_Cashflows_To_Assets : CustomFactor :=
  {| inputs := [operating_cash_flow; total_assets]; window_length := 1;
     compute := fun a => args2 (Operating_Cashflows_To_Assets_compute a) |}.

Definition Retained_Earnings_To_Assets_compute (assets : list asset)
  (ret_earnings tot_assets : window) : result vec :=
  r <- py_index ret_earnings (-1) ;; t <- py_index tot_assets (-1) ;;
  Ok (vdiv r t).
Definition Retained_Earnings_To_Assets : CustomFactor :=
  {| inputs := [retained_earnings; total_assets]; window_length := 1;
     compute := fun a => args2 (Retained_Earnings_To_Assets_compute a) |}.

(** *** Risk and size *)

Definition Market_Cap_compute (assets : list asset) (mc : window) :=
  py_index mc (-1).
Definition Market_Cap : CustomFactor :=
  {| inputs := [market_cap]; window_length := 1;
     compute := fun a => args1 (Market_Cap_compute a) |}.

Definition Log_Market_Cap_compute (assets : list asset) (mc : window)
  : result vec :=
  m <- py_index mc (-1) ;; Ok (map np_log m).
Definition Log_Market_Cap : CustomFactor :=
  {| inputs := [market_cap]; window_length := 1;
     compute := fun a => args1 (Log_Market_Cap_compute a) |}.

Definition Log_Market_Cap_Cubed_compute (assets : list asset) (mc : window)
  : result vec :=
  m <- py_index mc (-1) ;;
  Ok (map (fun x => np_log (nmul (nmul x x) x)) m).
Definition Log_Market_Cap_Cubed : CustomFactor :=
  {| inputs := [market_cap]; window_length := 1;
     compute := fun a => args1 (Log_Market_Cap_Cubed_compute a) |}.

(** [col_ret[col_ret < 0]] keeps the negative returns. *)
Definition Downside_Risk_column (col : vec) : result num :=
  let col_ret := column_returns col in
  Ok (np_nanstd (filter (fun r => nlt r (of_Z 0)) col_ret)).
Definition Downside_Risk_compute (assets : list asset) (close : window) :=
  per_column Downside_Risk_column assets (slice_step 21 close).
Definition Downside_Risk : CustomFactor :=
  {| inputs := [close]; window_length := 252;
     compute := fun a => args1 (Downside_Risk_compute a) |}.

(** [np.where((assets == 8554) == True)[0][0]]: the first position of the
    benchmark's identifier, [IndexError] when it is absent. *)
Fixpoint find_asset (sid : asset) (assets : list asset) : result nat :=
  match assets with
  | [] => Raise IndexError
  | a :: rest =>
      if Z.eqb a sid then Ok O
      else i <- find_asset sid rest ;; Ok (S i)
  end.

Definition SPY : asset := 8554%Z.

Definition Index_Beta_column (benchmark_returns col : vec) : result num :=
  let col_returns := column_returns col in
  col_cov <- np_cov col_returns benchmark_returns ;;
  Ok (ndiv (fst col_cov) (snd col_cov)).
Definition Index_Beta_compute (assets : list asset) (close : window)
  : result vec :=
  benchmark_index <- find_asset SPY assets ;;
  let benchmark_close := column benchmark_index close in
  let benchmark_returns := column_returns benchmark_close in
  per_column (Index_Beta_column benchmark_returns) assets close.
Definition Index_Beta : CustomFactor :=
  {| inputs := [close]; window_length := 252;
     compute := fun a => args1 (Index_Beta_compute a) |}.

(** [np.argwhere(benchmark_returns < 0).flatten()]. *)
Definition negative_positions (v : vec) : list nat :=
  filter (fun i => nlt (nth i v NaN) (of_Z 0)) (seq 0 (length v)).

(** [[v[i] for i in positions]]; the positions come from a series of the
    same length. *)
Definition select (positions : list nat) (v : vec) : vec :=
  map (fun i => nth i v NaN) positions.

Definition Downside_Beta_column (negative_days : list nat)
  (bmark_neg_day_returns col : vec) : result num :=
  let col_returns := column_returns col in
  let col_neg_day_returns := select negative_days col_returns in
  col_cov <- np_cov col_neg_day_returns bmark_neg_day_returns ;;
  Ok (ndiv (fst col_cov) (snd col_cov)).
Definition Downside_Beta_compute (assets : list asset) (close : window)
  : result vec :=
  benchmark_index <- find_asset SPY assets ;;
  let benchmark_close := column benchmark_index close in
  let benchmark_returns := column_returns benchmark_close in
  let negative_days := negative_positions benchmark_returns in
  let bmark_neg_day_returns := select negative_days benchmark_returns in
  per_column (Downside_Beta_column negative_days bmark_neg_day_returns)
    assets close.
Definition Downside_Beta : CustomFactor :=
  {| inputs := [close]; window_length := 252;
     compute := fun a => args1 (Downside_Beta_compute a) |}.

Definition Vol_3M_column (col : vec) : result num :=
  let log_col_returns := tl (map np_log (vdiv col (np_roll1 col))) in
  Ok (np_nanstd log_col_returns).
Definition Vol_3M_compute (assets : list asset) (close : window) :=
  per_column Vol_3M_column assets close.
Definition Vol_3M : CustomFactor :=
  {| inputs := [close]; window_length := 63;
     compute := fun a => args1 (Vol_3M_compute a) |}.

(** *** Growth *)

Definition sales_growth (sales : window) : result vec :=
  s_last <- py_index sales (-1) ;; s_first <- py_index sales 0 ;;
  Ok (vdiv (vsub (vmuls s_last four) (vmuls s_first four))
           (vmuls s_first four)).

Definition Sales_Growth_3M_compute (assets : list asset) (sales : window) :=
  sales_growth sales.
Definition Sales_Growth_3M : CustomFactor :=
  {| inputs := [total_revenue]; window_length := 63;
     compute := fun a => args1 (Sales_Growth_3M_compute a) |}.

Definition Sales_Growth_12M_compute (assets : list asset) (sales : window) :=
  sales_growth sales.
Definition Sales_Growth_12M : CustomFactor :=
  {| inputs := [total_revenue]; window_length := 252;
     compute := fun a => args1 (Sales_Growth_12M_compute a) |}.

Definition EPS_Growth_12M_compute (assets : list asset) (eps : window) :=
  rate_of_change eps.
Definition EPS_Growth_12M : CustomFactor :=
  {| inputs := [basic_eps]; window_length := 252;
     compute := fun a => args1 (EPS_Growth_12M_compute a) |}.

(** *** Quality *)

Definition Asset_Turnover_column (col : vec) : result num :=
  c_last <- py_index col (-1) ;; c_first <- py_index col 0 ;;
  Ok (ndiv (nadd c_last c_first) (of_Z 2)).
Definition Asset_Turnover_compute (assets : list asset)
  (sales tot_assets : window) : result vec :=
  turnovers <- per_column Asset_Turnover_column assets tot_assets ;;
  s <- py_index sales (-1) ;;
  Ok (vdiv (vmuls s four) turnovers).
Definition Asset_Turnover : CustomFactor :=
  {| inputs := [total_revenue; total_assets]; window_length := 252;
     compute := fun a => args2 (Asset_Turnover_compute a) |}.

Definition Asset_Growth_3M_compute (assets : list asset)
  (tot_assets : window) := rate_of_change tot_assets.
Definition Asset_Growth_3M : CustomFactor :=
  {| inputs := [total_assets]; window_length := 63;
     compute := fun a => args1 (Asset_Growth_3M_compute a) |}.

Definition Current_Ratio_compute (assets : list asset) (cr : window) :=
  py_index cr (-1).
Definition Current_Ratio : CustomFactor :=
  {| inputs := [current_ratio]; window_length := 1;
     compute := fun a => args1 (Current_Ratio_compute a) |}.

Definition Asset_To_Equity_Ratio_compute (assets : list asset)
  (tot_assets equity : window) : result vec :=
  t <- py_index tot_assets (-1) ;; e <- py_index equity (-1) ;;
  Ok (vdiv t e).
Definition Asset_To_Equity_Ratio : CustomFactor :=
  {| inputs := [total_assets; common_stock_equity]; window_length := 1;
     compute := fun a => args2 (Asset_To_Equity_Ratio_compute a) |}.

Definition Interest_Coverage_compute (assets : list asset)
  (ebit_ interest_expense_ : window) : result vec :=
  e <- py_index ebit_ (-1) ;; i <- py_index interest_expense_ (-1) ;;
  Ok (vdiv (vmuls e four) (vmuls i four)).
Definition Interest_Coverage : CustomFactor :=
  {| inputs := [ebit; interest_expense]; window_length := 1;
     compute := fun a => args2 (Interest_Coverage_compute a) |}.

Definition Debt_To_Asset_Ratio_compute (assets : list asset)
  (debt tot_assets : window) : result vec :=
  d <- py_index debt (-1) ;; t <- py_index tot_assets (-1) ;;
  Ok (vdiv d t).
Definition Debt_To_Asset_Ratio : CustomFactor :=
  {| inputs := [total_debt; total_assets]; window_length := 1;
     compute := fun a => args2 (Debt_To_Asset_Ratio_compute a) |}.

Definition Debt_To_Equity_Ratio_compute (assets : list asset)
  (debt equity : window) : result vec :=
  d <- py_index debt (-1) ;; e <- py_index equity (-1) ;;
  Ok (vdiv d e).
Definition Debt_To_Equity_Ratio : CustomFactor :=
  {| inputs := [total_debt; common_stock_equity]; window_length := 1;
     compute := fun a => args2 (Debt_To_Equity_Ratio_compute a) |}.

Definition Net_Debt_Growth_3M_compute (assets : list asset)
  (debt cash : window) : result vec :=
  d_last <- py_index debt (-1) ;; c_last <- py_index cash (-1) ;;
  d_first <- py_index debt 0 ;; c_first <- py_index cash 0 ;;
  Ok (vdiv (vsub (vsub d_last c_last) (vsub d_first c_first))
           (vsub d_first c_first)).
Definition Net_Debt_Growth_3M : CustomFactor :=
  {| inputs := [total_debt; cash_and_cash_equivalents]; window_length := 92;
     compute := fun a => args2 (Net_Debt_Growth_3M_compute a) |}.

Definition Working_Capital_To_Assets_compute (assets : list asset)
  (capital tot_assets : window) : result vec :=
  c <- py_index capital (-1) ;; t <- py_index tot_assets (-1) ;;
  Ok (vdiv c t).
Definition Working_Capital_To_Assets : CustomFactor :=
  {| inputs := [working_capital; total_assets]; window_length := 1;
     compute := fun a => args2 (Working_Capital_To_Assets_compute a) |}.

Definition Working_Capital_To_Sales_compute (assets : list asset)
  (capital sales : window) : result vec :=
  c <- py_index capital (-1) ;; s <- py_index sales (-1) ;;
  Ok (vdiv c (vmuls s four)).
Definition Working_Capital_To_Sales : CustomFactor :=
  {| inputs := [working_capital; total_revenue]; window_length := 1;
     compute := fun a => args2 (Working_Capital_To_Sales_compute a) |}.

(** *** Payout *)

Definition Dividend_Growth_compute (assets : list asset) (dpsg : window) :=
  py_index dpsg (-1).
Definition Dividend_Growth : CustomFactor :=
  {| inputs := [dps_growth]; window_length := 1;
     compute := fun a => args1 (Dividend_Growth_compute a) |}.

Definition Dividend_Payout_Ratio_compute (assets : list asset)
  (dps eps : window) : result vec :=
  d <- py_index dps (-1) ;; e <- py_index eps (-1) ;;
  Ok (vdiv (vmuls d four) (vmuls e four)).
Definition Dividend_Payout_Ratio : CustomFactor :=
  {| inputs := [dividend_per_share; basic_eps]; window_length := 1;
     compute := fun a => args2 (Dividend_Payout_Ratio_compute a) |}.

(** *** Profitability *)

Definition Gross_Income_Margin_compute (assets : list asset)
  (gp sales : window) : result vec :=
  g <- py_index gp (-1) ;; s <- py_index sales (-1) ;;
  Ok (vdiv (vmuls g four) (vmuls s four)).
Definition Gross_Income_Margin : CustomFactor :=
  {| inputs := [gross_profit; total_revenue]; window_length := 1;
     compute := fun a => args2 (Gross_Income_Margin_compute a) |}.

Definition Net_Income_Margin_compute (assets : list asset) (nm : window) :=
  py_index nm (-1).
Definition Net_Income_Margin : CustomFactor :=
  {| inputs := [net_margin]; window_length := 1;
     compute := fun a => args1 (Net_Income_Margin_compute a) |}.

Definition Return_On_Total_Equity_compute (assets : list asset)
  (roe_ : window) := py_index roe_ (-1).
Definition Return_On_Total_Equity : CustomFactor :=
  {| inputs := [roe]; window_length := 1;
     compute := fun a => args1 (Return_On_Total_Equity_compute a) |}.

Definition Return_On_Total_Assets_compute (assets : list asset)
  (roa_ : window) := py_index roa_ (-1).
Definition Return_On_Total_Assets : CustomFactor :=
  {| inputs := [roa]; window_length := 1;
     compute := fun a => args1 (Return_On_Total_Assets_compute a) |}.

Definition Return_On_Total_Invest_Capital_compute (assets : list asset)
  (roic_ : window) := py_index roic_ (-1).
Definition Return_On_Total_Invest_Capital : CustomFactor :=
  {| inputs := [roic]; window_length := 1;
     compute := fun a => args1 (Return_On_Total_Invest_Capital_compute a) |}.

(** *** Price reversal *)

(** The body of the loop of [MACD_Signal_10d.compute]:
    [try: _, signal_line, _ = talib.MACD(col, ...); signal_line[-1]]
    and, under the bare [except:], [np.nan]. *)
Definition MACD_Signal_10d_column (col : vec) : num :=
  match (r <- talib_MACD col ;;
         let '(_, signal_line, _) := r in py_index signal_line (-1)) with
  | Ok x => x
  | Raise _ => NaN
  end.
Definition MACD_Signal_10d_compute (assets : list asset) (close : window)
  : result vec :=
  Ok (map MACD_Signal_10d_column (transpose (length assets) close)).
Definition MACD_Signal_10d : CustomFactor :=
  {| inputs := [close]; window_length := 60;
     compute := fun a => args1 (MACD_Signal_10d_compute a) |}.

Definition Stochastic_Oscillator_column (cols : vec * vec * vec) : num :=
  let '(col_c, col_h, col_l) := cols in
  match (r <- talib_STOCH col_h col_l col_c ;;
         let '(_, slowd) := r in py_index slowd (-1)) with
  | Ok x => x
  | Raise _ => NaN
  end.
Definition Stochastic_Oscillator_compute (assets : list asset)
  (close high low : window) : result vec :=
  let n := length assets in
  Ok (map Stochastic_Oscillator_column
        (zip3 (transpose n close) (transpose n high) (transpose n low))).
Definition Stochastic_Oscillator : CustomFactor :=
  {| inputs := [close; high; low]; window_length := 30;
     compute := fun a => args3 (Stochastic_Oscillator_compute a) |}.

(** The inner loop of [Moneyflow_Volume_5d.compute] over
    [enumerate(col_c.tolist())]: [price] is compared with [col_c[n - 1]],
    a Python index, so that [n = 0] reads [col_c[-1]]. *)
Fixpoint Moneyflow_numerator (col_c col_v : vec) (items : list (Z * num))
  (numerator : num) : result num :=
  match items with
  | [] => Ok numerator
  | (n, price) :: rest =>
      prev <- py_index col_c (n - 1) ;;
      vol <- py_index col_v n ;;
      Moneyflow_numerator col_c col_v rest
        (if ngt price prev
         then nadd numerator (nmul price vol)
         else nsub numerator (nmul price vol))
  end.

Definition Moneyflow_Volume_5d_column (cols : vec * vec) : result num :=
  let '(col_c, col_v) := cols in
  denominator <- np_dot col_c col_v ;;
  numerator <- Moneyflow_numerator col_c col_v (enumerate col_c)
                 (Fin 0%Qc) ;;
  Ok (ndiv numerator denominator).
Definition Moneyflow_Volume_5d_compute (assets : list asset)
  (close volume : window) : result vec :=
  let n := length assets in
  mapM Moneyflow_Volume_5d_column
    (combine (transpose n close) (transpose n volume)).
Definition Moneyflow_Volume_5d : CustomFactor :=
  {| inputs := [close; volume]; window_length := 5;
     compute := fun a => args2 (Moneyflow_Volume_5d_compute a) |}.

(** *** Technicals *)

Definition Mertons_DD_column (cols : vec * vec * vec * vec) : result num :=
  let '(col_assets, col_liabilities, col_r, col_close) := cols in
  let vol_1y := np_nanstd col_close in
  a <- py_index col_assets (-1) ;; l <- py_index col_liabilities (-1) ;;
  r <- py_index col_r (-1) ;;
  let numerator :=
    nadd (np_log (ndiv a l))
         (nsub (nmul (of_Z 252) r) (ndiv (nmul vol_1y vol_1y) (of_Z 2))) in
  Ok (ndiv numerator vol_1y).
Definition Mertons_DD_compute (assets : list asset)
  (tot_assets tot_liabilities r close : window) : result vec :=
  let n := length assets in
  mapM Mertons_DD_column
    (zip4 (transpose n tot_assets) (transpose n tot_liabilities)
          (transpose n r) (transpose n close)).
Definition Mertons_DD : CustomFactor :=
  {| inputs := [total_assets; total_liabilities; libor_value; close];
     window_length := 252;
     compute := fun a => args4 (Mertons_DD_compute a) |}.

(** The [FACTORS] dictionary. *)
Definition FACTORS : list (string * CustomFactor) :=
  [ ("Asset Growth 3M", Asset_Growth_3M);
    ("Asset to Equity Ratio", Asset_To_Equity_Ratio);
    ("Asset Turnover", Asset_Turnover);
    ("Capex to Assets", Capex_To_Assets);
    ("Capex to Cashflows", Capex_To_Cashflows);
    ("Capex to Sales", Capex_To_Sales);
    ("Cashflows to Assets", Cashflows_To_Assets);
    ("Current Ratio", Current_Ratio);
    ("Debt to Asset Ratio", Debt_To_Asset_Ratio);
    ("Dividend Growth", Dividend_Growth);
    ("Dividend Payout Ratio", Dividend_Payout_Ratio);
    ("Dividend Yield", Dividend_Yield);
    ("Downside Beta", Downside_Beta);
    ("Downside Risk", Downside_Risk);
    ("EBITDA Yield", EBITDA_Yield);
    ("EBIT to Assets", EBIT_To_Assets);
    ("EPS Growth 12M", EPS_Growth_12M);
    ("EV to Cashflows", EV_To_Cashflows);
    ("EV to EBITDA", EV_To_EBITDA);
    ("Gross Income Margin", Gross_Income_Margin);
    ("Index Beta", Index_Beta);
    ("Interest Coverage", Interest_Coverage);
    ("Log Market Cap", Log_Market_Cap);
    ("Log Market Cap Cubed", Log_Market_Cap_Cubed);
    ("MACD Signal Line", MACD_Signal_10d);
    ("Market Cap", Market_Cap);
    ("Mean Reversion 1M", Mean_Reversion_1M);
    ("Mertons Distance to Default", Mertons_DD);
    ("Moneyflow Volume 5D", Moneyflow_Volume_5d);
    ("Net Debt Growth 3M", Net_Debt_Growth_3M);
    ("Net Income Margin", Net_Income_Margin);
    ("Operating Cashflows to Assets", Operating_Cashflows_To_Assets);
    ("Percent Above Low", Percent_Above_Low);
    ("Percent Below High", Percent_Below_High);
    ("Price Momentum 12M", Price_Momentum_12M);
    ("Price Momentum 1M", Price_Momentum_1M);
    ("Price Momentum 3M", Price_Momentum_3M);
    ("Price Momentum 6M", Price_Momentum_6M);
    ("Price Oscillator", Price_Oscillator);
    ("Price to Book", Price_To_Book);
    ("Price to Diluted Earnings", Price_To_Diluted_Earnings);
    ("Price to Earnings", Price_To_Earnings);
    ("Price to Forward Earnings", Price_To_Forward_Earnings);
    ("Price to Free Cashflows", Price_To_Free_Cashflows);
    ("Price to Operating Cashflows", Price_To_Operating_Cashflows);
    ("Price to Sales", Price_To_Sales);
    ("Retained Earnings to Assets", Retained_Earnings_To_Assets);
    ("Return on Total Assets", Return_On_Total_Assets);
    ("Return on Total Equity", Return_On_Total_Equity);
    ("Return on Invest Capital", Return_On_Total_Invest_Capital);
    ("39 Week Returns", Returns_39W);
    ("Sales Growth 12M", Sales_Growth_12M);
    ("Sales Growth 3M", Sales_Growth_3M);
    ("Stochastic Oscillator", Stochastic_Oscillator);
    ("Trendline", Trendline);
    ("Vol 3M", Vol_3M);
    ("Working Capital to Assets", Working_Capital_To_Assets);
    ("Working Capital to Sales", Working_Capital_To_Sales) ]%string.

End Catalog.
End Factors.

(** ** The [CustomFactor] classes of [AlphasLibIndex.py] that reduce with
    [axis=0] *)

Module AlphasLib.
Section Catalog.
Context `{External}.

(** [np.nanmean(w, axis=0)] and [np.nanstd(w, axis=0)]: one value per
    column. *)
Definition nanmean_axis0 (n : nat) (w : window) : vec :=
  map np_nanmean (transpose n w).
Definition nanstd_axis0 (n : nat) (w : window) : vec :=
  map np_nanstd (transpose n w).

Definition Price_Oscillator_compute (assets : list asset) (close : window)
  : result vec :=
  let n := length assets in
  let four_week_period := slice_last 20 close in
  Ok (vsubs (vdiv (nanmean_axis0 n four_week_period) (nanmean_axis0 n close))
            (of_Z 1)).

(** [inputs = [Returns(window_length=21)]]: the window holds, for each of
    the last 252 days, the trailing 21-day return. *)
Definition Mean_Reversion_1M_compute (assets : list asset)
  (monthly_rets : window) : result vec :=
  let n := length assets in
  r_last <- py_index monthly_rets (-1) ;;
  Ok (vdiv (vsub r_last (nanmean_axis0 n monthly_rets))
           (nanstd_axis0 n monthly_rets)).

(** [np.where(rets < 0, rets, np.nan)]. *)
Definition Downside_Risk_compute (assets : list asset) (rets : window)
  : result vec :=
  let down_rets :=
    map (map (fun r => if nlt r (of_Z 0) then r else NaN)) rets in
  Ok (nanstd_axis0 (length assets) down_rets).

Definition Vol_3M_compute (assets : list asset) (rets : window)
  : result vec :=
  Ok (nanstd_axis0 (length assets) rets).

End Catalog.
End AlphasLib.

(** ** The factors of [Pioneer_0101.py] *)

Module Pioneer.
Section Catalog.
Context `{External}.

Definition AvgDailyDollarVolumeTraded_compute (assets : list asset)
  (close_price volume_ : window) : result vec :=
  dollar_volume <- np_multiply close_price volume_ ;;
  Ok (map np_mean (transpose (length assets) dollar_volume)).
Definition AvgDailyDollarVolumeTraded : CustomFactor :=
  {| inputs := [close; volume]; window_length := 20;
     compute := fun a => args2 (AvgDailyDollarVolumeTraded_compute a) |}.

(** [Series.rank()] of pandas with its defaults (ascending,
    [method='average'], [na_option='keep']): the average of the positions
    a value occupies among the sorted valid values; [nan] stays [nan]. *)
Definition pd_rank (v : vec) : vec :=
  map (fun x =>
         if isnan x then NaN
         else nadd (of_nat (length (filter (fun y => nlt y x) v)))
                   (ndiv (of_nat (length (filter (fun y => neq y x) v) + 1))
                         (of_Z 2)))
      v.

(** [value_table.rank().mean(axis=1)]: each of the three columns ranked
    over the instruments, then the mean of the three ranks of each
    instrument, skipping [nan]. *)
Definition Value_compute (assets : list asset)
  (book_value sales fcf : window) : result vec :=
  b <- py_index book_value (-1) ;; s <- py_index sales (-1) ;;
  f <- py_index fcf (-1) ;;
  Ok (map (fun r => let '(rb, rs, rf) := r in np_nanmean [rb; rs; rf])
          (zip3 (pd_rank b) (pd_rank s) (pd_rank f))).
Definition Value : CustomFactor :=
  {| inputs := [book_value_yield; sales_yield; fcf_yield];
     window_length := 1;
     compute := fun a => args3 (Value_compute a) |}.

Definition Momentum_compute (assets : list asset) (close : window)
  : result vec :=
  c_20 <- py_index close (-20) ;; c_0 <- py_index close 0 ;;
  Ok (vdiv c_20 c_0).
Definition Momentum : CustomFactor :=
  {| inputs := [close]; window_length := 252;
     compute := fun a => args1 (Momentum_compute a) |}.

Definition Quality_compute (assets : list asset) (roe_ : window) :=
  py_index roe_ (-1).
Definition Quality : CustomFactor :=
  {| inputs := [roe]; window_length := 1;
     compute := fun a => args1 (Quality_compute a) |}.

(** [DataFrame.diff()] of one column: [nan] first, then the differences
    of consecutive rows. *)
Definition pd_diff (col : vec) : vec :=
  match col with
  | [] => []
  | _ :: rest => NaN :: map2 nsub rest col
  end.

(** [Series.std()] of pandas: [ddof = 1], [nan] skipped. *)
Definition pd_std (col : vec) : num := np_sqrt (np_nanvar 1 col).

Definition Volatility_compute (assets : list asset) (close : window)
  : result vec :=
  Ok (sdivv (of_Z 1)
        (map (fun col => pd_std (pd_diff (map np_log col)))
             (transpose (length assets) close))).
Definition Volatility : CustomFactor :=
  {| inputs := [close]; window_length := 252;
     compute := fun a => args1 (Volatility_compute a) |}.

(** The factors [initialize] adds to the pipeline, and the screen's. *)
Definition PIPELINE : list (string * CustomFactor) :=
  [ ("value", Value); ("momentum", Momentum); ("quality", Quality);
    ("volatility", Volatility);
    ("dollar_volume", AvgDailyDollarVolumeTraded) ]%string.

End Catalog.
End Pioneer.

(** ** The pipeline engine *)

(** A panel: for each field the rows of all dates so far, oldest first. *)
Definition panel := field -> list vec.

(** Modelled from the spec: [get_window] (section 4.1), the trailing slice
    the engine hands to [compute], is not in the repository: the [length]
    rows ending at row [as_of_date], oldest first, and [DataUnavailable]
    when the history is shorter or the date is not in the panel. *)
Definition get_window (rows : list vec) (length_ : nat) (as_of_date : nat)
  : result window :=
  if (length_ <=? as_of_date + 1)%nat && (as_of_date <? length rows)%nat
  then Ok (firstn length_ (skipn (as_of_date + 1 - length_) rows))
  else Raise DataUnavailable.

(** The value of factor [f] on date [as_of_date]. *)
Definition run_factor (f : CustomFactor) (p : panel) (assets : list asset)
  (as_of_date : nat) : result vec :=
  ws <- mapM (fun fld => get_window (p fld) (window_length f) as_of_date)
             (inputs f) ;;
  compute f assets ws.

(** The panel with later rows appended. *)
Definition extend (p future : panel) : panel :=
  fun fld => p fld ++ future fld.

(** ** Reordering the instruments *)

(** The list whose position [j] holds the element at position [p_j]. *)
Definition permute {A} (d : A) (p : list nat) (l : list A) : list A :=
  map (fun j => nth j l d) p.

Definition permute_window (p : list nat) (w : window) : window :=
  map (permute NaN p) w.

(** Every row of the window has one entry per instrument. *)
Definition rectangular (n : nat) (w : window) : Prop :=
  Forall (fun row => length row = n) w.

(** ** The strategy of [08282017-MVF-12M_Momentum_EVtoStoSG.py] *)

Module MVF.

(** The part of [context] that [rebalance] reads: the two leverages set
    by [initialize], the index of [long_list] and of [short_list], and the
    keys of [portfolio.positions]. *)
Record context : Type := {
  long_leverage : num;
  short_leverage : num;
  long_list : list asset;
  short_list : list asset;
  positions : list asset
}.

Definition initialize (c : context) : context :=
  {| long_leverage := ratio 1 2;
     short_leverage := nneg (ratio 1 2);
     long_list := long_list c;
     short_list := short_list c;
     positions := positions c |}.

Inductive order : Type :=
| order_target_percent (stock : asset) (weight : num)
| order_target (stock : asset) (amount : num).

(** Division of two Python floats: a zero divisor raises. *)
Definition py_div (x y : num) : result num :=
  match y with
  | Fin b => if Qc_is_zero b then Raise ZeroDivisionError else Ok (ndiv x y)
  | _ => Ok (ndiv x y)
  end.

Definition py_float_len {A} (l : list A) : num := of_nat (length l).

Definition mem (s : asset) (l : list asset) : bool :=
  existsb (Z.eqb s) l.

(** [rebalance(context, data)]; [data] is given by the instruments it
    holds.  The orders are returned in the order they are placed (the
    [log.info] lines are left out). *)
Definition rebalance (c : context) (data : list asset) : result (list order) :=
  long_weight <- py_div (long_leverage c) (py_float_len (long_list c)) ;;
  short_weight <- py_div (short_leverage c) (py_float_len (short_list c)) ;;
  let placed :=
    fold_left
      (fun placed long_stock =>
         if mem long_stock data
         then placed ++ [order_target_percent long_stock long_weight]
         else placed)
      (long_list c) [] in
  let placed :=
    fold_left
      (fun placed short_stock =>
         if mem short_stock data
         then placed ++ [order_target_percent short_stock (nneg short_weight)]
         else placed)
      (short_list c) placed in
  let placed :=
    fold_left
      (fun placed stock =>
         if negb (mem stock (long_list c)) && negb (mem stock (short_list c))
         then placed ++ [order_target stock (of_Z 0)]
         else placed)
      (positions c) placed in
  Ok placed.

End MVF.

(** ** An instance to run examples

    [np.sqrt] at the squares of rationals, where it is exact; elsewhere
    the integer roots of numerator and denominator stand in, and no
    statement below depends on them.  [np.log] only at 1.  The TA-Lib
    calls: [talib.MACD] raises on a column that holds [nan], and otherwise
    hands back the column as each of its three series. *)

Definition Qc_sqrt (q : Qc) : Qc :=
  Q2Qc (Z.sqrt (Qnum q) # Pos.sqrt (Qden q)).

Definition rational_sqrt (x : num) : num :=
  match x with
  | NaN | NInf => NaN
  | PInf => PInf
  | Fin q => if Qc_ltb q 0 then NaN else Fin (Qc_sqrt q)
  end.

Definition log_at_one (x : num) : num :=
  if num_eqb x (of_Z 1) then of_Z 0 else NaN.

Definition sample_MACD (col : vec) : result (vec * vec * vec) :=
  if existsb isnan col then Raise TalibError else Ok (col, col, col).

Definition sample_STOCH (h l c : vec) : result (vec * vec) :=
  if existsb isnan c then Raise TalibError else Ok (c, c).

#[local] Instance sample_external : External :=
  {| np_sqrt := rational_sqrt;
     np_log := log_at_one;
     talib_MACD := sample_MACD;
     talib_STOCH := sample_STOCH |}.

(** Equality of outputs, decided; [Fin] holds a canonical fraction. *)
Definition vec_eqb (u v : vec) : bool :=
  Nat.eqb (length u) (length v) && forallb (fun p => num_eqb (fst p) (snd p)) (combine u v).
(** ** Sample inputs *)

(** [count] instruments with consecutive identifiers, from [first]. *)
Definition instruments (first count : nat) : list asset :=
  map Z.of_nat (seq first count).

(** The strategy's context after [initialize], with 50 instruments in each
    list. *)
Definition sample_context : MVF.context :=
  MVF.initialize
    {| MVF.long_leverage := NaN; MVF.short_leverage := NaN;
       MVF.long_list := instruments 1 50;
       MVF.short_list := instruments 51 50;
       MVF.positions := [] |}.



(** Six days of one instrument: closes 6, 5, 1, 2, 3, 4 and a volume of 1
    each day.  The 5-day window of the last day starts at the close 5,
    which fell from the 6 of the day before. *)
Definition moneyflow_panel : panel :=
  fun fld =>
    match fld with
    | close => map (fun z => [of_Z z]) [6; 5; 1; 2; 3; 4]%Z
    | volume => repeat [of_Z 1] 6
    | _ => []
    end.

(** One step of a signed accumulation. *)
Definition flow_step (acc : num) (rose : bool) (t : num) : num :=
  if rose then nadd acc t else nsub acc t.

(** ** Definitions that follow the words of the specification *)

(** The money-flow ratio as the specification words it: each day's
    [close * volume] counts positively when the close rose from the prior
    day's close and negatively otherwise; [prior] is the close of the day
    before the first day of the window. *)
Fixpoint signed_money_flow (prior : num) (c v : vec) : num :=
  match c, v with
  | price :: c', vol :: v' =>
      nadd (if ngt price prior then nmul price vol else nneg (nmul price vol))
           (signed_money_flow price c' v')
  | _, _ => Fin 0%Qc
  end.

Definition money_flow_ratio_spec (prior : num) (c v : vec) : num :=
  ndiv (signed_money_flow prior c v) (np_sum (vmul c v)).

(** The regression as the specification words it, defined on its own:
    the daily returns [r_t = (p_t - p_(t-1)) / p_(t-1)] of a series of
    closes, the mean of a series, the sample covariance
    [sum_t (x_t - mean x) * (y_t - mean y) / (n - 1)], and the slope
    [cov(x, y) / var(y)] of the regression of [x] on [y]. *)
Fixpoint daily_returns (closes : vec) : vec :=
  match closes with
  | p0 :: (p1 :: _) as later => ndiv (nsub p1 p0) p0 :: daily_returns later
  | _ => []
  end.

Fixpoint total (v : vec) : num :=
  match v with
  | [] => Fin 0%Qc
  | x :: v' => nadd x (total v')
  end.

Definition mean (v : vec) : num := ndiv (total v) (of_nat (length v)).

Fixpoint co_deviations (mean_x mean_y : num) (x y : vec) : vec :=
  match x, y with
  | a :: x', b :: y' =>
      nmul (nsub a mean_x) (nsub b mean_y) :: co_deviations mean_x mean_y x' y'
  | _, _ => []
  end.

Definition sample_covariance (x y : vec) : num :=
  ndiv (total (co_deviations (mean x) (mean y) x y))
       (of_Z (Z.of_nat (length x) - 1)).

Definition sample_variance (y : vec) : num := sample_covariance y y.

Definition beta (x y : vec) : num :=
  ndiv (sample_covariance x y) (sample_variance y).

(** Sample covariance and variance, and the slope estimator
    [cov(x, y) / var(y)] of a regression of [x] on [y]. *)
Definition covariance (x y : vec) : num :=
  ndiv (np_sum (vmul (vsubs x (np_mean x)) (vsubs y (np_mean y))))
       (of_nat (length x - 1)).

Definition variance (y : vec) : num := covariance y y.

Definition regression_slope (x y : vec) : num :=
  ndiv (covariance x y) (variance y).

(** Twelve months of closes of two instruments, flat at 100 until the
    last day; on the last day the first instrument closes at 110 and the
    second at [last_b]. *)
Definition flat_year (last_b : Z) : window :=
  repeat [of_Z 100; of_Z 100] 251 ++ [[of_Z 110; of_Z last_b]].

(** The same twelve months for the first instrument alone. *)
Definition flat_year_alone : window :=
  repeat [of_Z 100] 251 ++ [[of_Z 110]].

(** Two days of two instruments; the second instrument's first close is
    missing. *)
Definition gappy_closes : window := [[of_Z 1; NaN]; [of_Z 2; of_Z 3]].

(** Six closes of an instrument (first column) and of the benchmark
    (second column).  The benchmark's five daily returns are 2%, -2%, 4%,
    -4%, 0; the instrument's are twice those. *)
Definition beta_closes : window :=
  [ [of_Z 100; of_Z 100];
    [of_Z 104; of_Z 102];
    [ratio 9984 100; ratio 9996 100];
    [ratio 1078272 10000; ratio 1039584 10000];
    [ratio 99201024 1000000; ratio 99800064 1000000];
    [ratio 99201024 1000000; ratio 99800064 1000000] ].



(** The three valuation yields of three instruments on one day; the
    second instrument has no free-cash-flow yield. *)
Definition book_value_yields : window := [[ratio 5 10; ratio 2 10; ratio 5 10]].
Definition sales_yields : window := [[ratio 1 10; ratio 3 10; ratio 2 10]].
Definition fcf_yields : window := [[ratio 4 100; NaN; ratio 5 100]].

(** ** [Mean_Reversion_1M] in binary64

    [Mean_Reversion_1M] of the catalogue on [float64] numbers, operation
    by operation as numpy runs it: every operation rounds, and [np.sum]
    of fewer than 8 numbers adds them from left to right. *)
Module Float64.
Import PrimFloat.
Local Open Scope float_scope.

Definition fvec := list float.


Definition vsub : fvec -> fvec -> fvec := map2 sub.
Definition vdiv : fvec -> fvec -> fvec := map2 div.
Definition vdivs (v : fvec) (k : float) : fvec := map (fun x => x / k) v.
Definition vsubs (v : fvec) (k : float) : fvec := map (fun x => x - k) v.

Definition np_sum (v : fvec) : float := fold_left add v 0.

Definition replace_nan (v : fvec) : fvec :=
  map (fun x => if is_nan x then 0 else x) v.

Definition count_valid (v : fvec) : float :=
  fold_left (fun count x => if is_nan x then count else count + 1) v 0.

Definition np_nanmean (v : fvec) : float :=
  np_sum (replace_nan v) / count_valid v.

Definition np_nanstd (v : fvec) : float :=
  let cnt := count_valid v in
  let avg := np_sum (replace_nan v) / cnt in
  let dev := map (fun x => if is_nan x then 0 else x - avg) v in
  let sqr := map (fun d => d * d) dev in
  sqrt (np_sum sqr / cnt).

Definition Mean_Reversion_1M (close : list fvec) : result fvec :=
  c_last <- py_index close (-1)%Z ;; c_21 <- py_index close (-21)%Z ;;
  c_0 <- py_index close 0%Z ;;
  let ret_1M := vdiv (vsub c_last c_21) c_21 in
  let ret_1Y_monthly := vdivs (vdiv (vsub c_last c_0) c_0) 12 in
  Ok (vdivs (vsubs ret_1M (np_nanmean ret_1Y_monthly))
            (np_nanstd ret_1Y_monthly)).


(** Twenty-one days of three instruments: a close of 100 on the first
    twenty days, and of 119, 118 and 122 on the last. *)
Definition closes : list fvec :=
  repeat [100; 100; 100] 20 ++ [[119; 118; 122]].

End Float64.

(** ** Further sample inputs *)

(** [sample_context] holding two positions: instrument 7, which is in the
    long list, and instrument 200, which is in neither list. *)
Definition holding_context : MVF.context :=
  {| MVF.long_leverage := MVF.long_leverage sample_context;
     MVF.short_leverage := MVF.short_leverage sample_context;
     MVF.long_list := MVF.long_list sample_context;
     MVF.short_list := MVF.short_list sample_context;
     MVF.positions := [7; 200]%Z |}.

(** [sample_context] with an empty short list: the long list still holds
    its instruments. *)
Definition no_short_context : MVF.context :=
  {| MVF.long_leverage := MVF.long_leverage sample_context;
     MVF.short_leverage := MVF.short_leverage sample_context;
     MVF.long_list := MVF.long_list sample_context;
     MVF.short_list := [];
     MVF.positions := [7; 200]%Z |}.

(** ** [rebalance] of the MVF strategy, order by order *)

Module MVF_effects.

(** A step of the strategy places orders as it goes: it is given the
    orders placed so far and returns them, with the new ones behind, and
    its result.  After an exception nothing more is placed. *)
Definition effect (A : Type) : Type :=
  list MVF.order -> list MVF.order * result A.

Definition ret {A} (a : A) : effect A := fun placed => (placed, Ok a).

Definition lift {A} (r : result A) : effect A := fun placed => (placed, r).

Definition and_then {A B} (m : effect A) (k : A -> effect B) : effect B :=
  fun placed =>
    match m placed with
    | (placed', Ok a) => k a placed'
    | (placed', Raise e) => (placed', Raise e)
    end.

Definition place (o : MVF.order) : effect unit :=
  fun placed => (placed ++ [o], Ok tt).

Fixpoint for_each {A} (l : list A) (body : A -> effect unit) : effect unit :=
  match l with
  | [] => ret tt
  | x :: l' => and_then (body x) (fun _ => for_each l' body)
  end.

Notation "x <-- m ;;; k" := (and_then m (fun x => k))
  (at level 61, m at next level, right associativity).

(** [rebalance(context, data)], statement by statement. *)
Definition rebalance (c : MVF.context) (data : list asset) : effect unit :=
  long_weight <-- lift (MVF.py_div (MVF.long_leverage c)
                          (MVF.py_float_len (MVF.long_list c))) ;;;
  short_weight <-- lift (MVF.py_div (MVF.short_leverage c)
                           (MVF.py_float_len (MVF.short_list c))) ;;;
  _ <-- for_each (MVF.long_list c)
          (fun long_stock =>
             if MVF.mem long_stock data
             then place (MVF.order_target_percent long_stock long_weight)
             else ret tt) ;;;
  _ <-- for_each (MVF.short_list c)
          (fun short_stock =>
             if MVF.mem short_stock data
             then place (MVF.order_target_percent short_stock
                           (nneg short_weight))
             else ret tt) ;;;
  for_each (MVF.positions c)
    (fun stock =>
       if negb (MVF.mem stock (MVF.long_list c))
          && negb (MVF.mem stock (MVF.short_list c))
       then place (MVF.order_target stock (of_Z 0))
       else ret tt).

End MVF_effects.

(** ** [before_trading_start] of the MVF strategy *)

Module MVF_selection.

(** A row of [pipeline_output('ranked_2000')]: the security of the index
    and the columns added to the pipeline. *)
Record pipeline_row : Type := {
  security : asset;
  factor_1 : num;
  factor_2 : num;
  f1_rank : num;
  f2_rank : num;
  combo_raw : num;
  combo_rank : num
}.

Definition fill0 (x : num) : num := if isnan x then of_Z 0 else x.

(** [DataFrame.fillna(0)] on one row. *)
Definition fillna0 (r : pipeline_row) : pipeline_row :=
  {| security := security r;
     factor_1 := fill0 (factor_1 r);
     factor_2 := fill0 (factor_2 r);
     f1_rank := fill0 (f1_rank r);
     f2_rank := fill0 (f2_rank r);
     combo_raw := fill0 (combo_raw r);
     combo_rank := fill0 (combo_rank r) |}.

(** [before_trading_start]: the value given to [context.short_list] and
    to [context.long_list].  [ranked_2000] is assigned three times, each
    time from [context.output]; [sort] is
    [DataFrame.sort(['combo_rank'], ascending=False)] of pandas, a
    parameter. *)
Definition before_trading_start
  (sort : list pipeline_row -> list pipeline_row)
  (output : list pipeline_row) : list pipeline_row * list pipeline_row :=
  let ranked_2000 := map fillna0 output in
  let ranked_2000 := filter (fun r => ngt (factor_2 r) (of_Z 0)) output in
  let ranked_2000 := filter (fun r => ngt (factor_1 r) (of_Z 0)) output in
  let short_list := firstn 50 (sort ranked_2000) in
  let long_list := slice_last 50 (sort ranked_2000) in
  (short_list, long_list).

(** The context as [rebalance] reads it afterwards: the index of each
    list. *)
Definition select (sort : list pipeline_row -> list pipeline_row)
  (output : list pipeline_row) (c : MVF.context) : MVF.context :=
  let lists := before_trading_start sort output in
  {| MVF.long_leverage := MVF.long_leverage c;
     MVF.short_leverage := MVF.short_leverage c;
     MVF.long_list := map security (snd lists);
     MVF.short_list := map security (fst lists);
     MVF.positions := MVF.positions c |}.

(** The rows that pass the one filter in effect. *)
Definition kept (output : list pipeline_row) : list pipeline_row :=
  filter (fun r => ngt (factor_1 r) (of_Z 0)) output.

(** [a] may stand before [b] in a frame sorted by descending
    [combo_rank]: [a]'s rank is not below [b]'s (never so for [nan]). *)
Definition not_below (a b : pipeline_row) : Prop :=
  nlt (combo_rank a) (combo_rank b) = false.

(** An insertion sort by descending [combo_rank], to run examples. *)
Fixpoint insert_row (r : pipeline_row) (l : list pipeline_row)
  : list pipeline_row :=
  match l with
  | [] => [r]
  | x :: l' =>
      if nlt (combo_rank r) (combo_rank x) || isnan (combo_rank r)
      then x :: insert_row r l'
      else r :: l
  end.

Definition insertion_sort (l : list pipeline_row) : list pipeline_row :=
  fold_right insert_row [] l.

Definition sample_row (s : asset) (f1 f2 rank : num) : pipeline_row :=
  {| security := s; factor_1 := f1; factor_2 := f2;
     f1_rank := NaN; f2_rank := NaN; combo_raw := NaN; combo_rank := rank |}.

(** Four rows: the second has no [factor_2], the third a negative
    [factor_2], the fourth a negative [factor_1]. *)
Definition sample_output : list pipeline_row :=
  [ sample_row 24 (ratio 1 2) (ratio 3 10) (of_Z 2);
    sample_row 5061 (ratio 1 4) NaN (of_Z 4);
    sample_row 8554 (ratio 3 4) (ratio (-1) 10) (of_Z 3);
    sample_row 700 (ratio (-1) 5) (ratio 1 10) (of_Z 1) ]%Z.

End MVF_selection.

(** A pipeline output of [n] rows, all with [factor_1 = 1] and without
    [factor_2]; the row of security [i] has rank [i]. *)
Definition wide_output (n : nat) : list MVF_selection.pipeline_row :=
  map (fun i => MVF_selection.sample_row (Z.of_nat i) (of_Z 1) NaN (of_nat i))
      (seq 1 n).

(** ** Windows as the engine hands them over *)

(** The input windows of [f] as the pipeline engine builds them: one
    window per declared input, each of [window_length] rows that hold one
    value per instrument. *)
Definition engine_shaped (f : CustomFactor) (assets : list asset)
  (ws : list window) : Prop :=
  length ws = length (inputs f) /\
  Forall (fun w => length w = window_length f
                   /\ rectangular (length assets) w) ws.

(** [f] returns one value per instrument on such windows, as long as the
    benchmark is among the instruments. *)
Definition completes (f : CustomFactor) : Prop :=
  forall (assets : list asset) (ws : list window),
    engine_shaped f assets ws -> In Factors.SPY assets ->
    exists out, compute f assets ws = Ok out /\ length out = length assets.

(** ** [before_trading_start] of the Pioneer strategy *)

Module Pioneer_selection.

(** A row of [pipeline_output('factors')]: the security of the index and
    the four columns added to the pipeline. *)
Record factor_row : Type := {
  security : asset;
  value : num;
  momentum : num;
  quality : num;
  volatility : num
}.

(** [DataFrame.dropna()]: the rows without a [nan]. *)
Definition dropna (rows : list factor_row) : list factor_row :=
  filter (fun r => valid (value r) && valid (momentum r)
                   && valid (quality r) && valid (volatility r)) rows.

(** [results.rank().mean(axis=1)]: each column ranked over the rows, then
    the mean of the four ranks of each row; a series indexed by the
    securities. *)
Definition mean_ranks (results : list factor_row) : list (asset * num) :=
  combine (map security results)
    (map (fun r => let '(a, b, c, d) := r in np_nanmean [a; b; c; d])
         (zip4 (Pioneer.pd_rank (map value results))
               (Pioneer.pd_rank (map momentum results))
               (Pioneer.pd_rank (map quality results))
               (Pioneer.pd_rank (map volatility results)))).

(** [Series.sum()], which skips [nan]. *)
Definition pd_sum (s : list (asset * num)) : num :=
  np_sum (filter valid (map snd s)).

(** [s /= s.sum()]. *)
Definition normalized (s : list (asset * num)) : list (asset * num) :=
  map (fun e => (fst e, ndiv (snd e) (pd_sum s))) s.

(** [before_trading_start]: the series given to [context.shorts] and to
    [context.longs] ([update_universe] is left out).  [order] is
    [Series.order()] of pandas, a parameter. *)
Definition before_trading_start
  (order : list (asset * num) -> list (asset * num))
  (output : list factor_row)
  : list (asset * num) * list (asset * num) :=
  let results := dropna output in
  let ranks := order (mean_ranks results) in
  let shorts :=
    map (fun e => (fst e, ndiv (of_Z 1) (snd e))) (firstn 150 ranks) in
  let shorts := normalized shorts in
  let longs := slice_last 150 ranks in
  let longs := normalized longs in
  (shorts, longs).

(** An insertion sort by ascending value, to run examples. *)
Fixpoint insert_entry (e : asset * num) (l : list (asset * num))
  : list (asset * num) :=
  match l with
  | [] => [e]
  | x :: l' =>
      if nlt (snd x) (snd e) then x :: insert_entry e l' else e :: l
  end.

Definition order_by_value (l : list (asset * num)) : list (asset * num) :=
  fold_right insert_entry [] l.

Definition sample_factors : list factor_row :=
  [ {| security := 24; value := of_Z 3; momentum := ratio 11 10;
       quality := ratio 2 10; volatility := of_Z 40 |};
    {| security := 5061; value := of_Z 1; momentum := ratio 9 10;
       quality := NaN; volatility := of_Z 55 |};
    {| security := 8554; value := of_Z 2; momentum := ratio 12 10;
       quality := ratio 1 10; volatility := of_Z 70 |};
    {| security := 700; value := ratio 5 2; momentum := ratio 8 10;
       quality := ratio 3 10; volatility := of_Z 20 |} ]%Z.

End Pioneer_selection.

(** A finite number above 0. *)
Definition finite_positive (x : num) : Prop :=
  exists q, (0 < q)%Qc /\ x = Fin q.

(** ** The factors of the MVF strategy *)

Module MVF_factors.


End MVF_factors.
(** * Properties *)

(** ** Arithmetic *)

Lemma num_eqb_eq (x y : num) : num_eqb x y = true -> x = y.
Proof.
  destruct x, y; simpl; try discriminate; auto.
  intros E. f_equal. now apply Qc_eq_bool_correct.
Qed.

Lemma Qc_is_zero_true (a : Qc) : Qc_is_zero a = true <-> a = 0%Qc.
Proof.
  unfold Qc_is_zero. rewrite Qceq_alt.
  destruct (a ?= 0)%Qc; split; intros; congruence.
Qed.

Lemma Qc_ltb_true (a b : Qc) : Qc_ltb a b = true <-> (a < b)%Qc.
Proof.
  unfold Qc_ltb. rewrite Qclt_alt.
  destruct (a ?= b)%Qc; split; intros; congruence.
Qed.

Lemma Qc_four_pos : (0 < Q2Qc (inject_Z 4))%Qc.
Proof. reflexivity. Qed.

Lemma Qc_times_pos_neg (a k : Qc) : (0 < k)%Qc -> Qc_ltb (a * k) 0 = Qc_ltb a 0.
Proof.
  intros Hk. apply eq_true_iff_eq. rewrite !Qc_ltb_true. split; intros Hlt.
  - destruct (Qclt_le_dec a 0) as [|Hge]; auto. exfalso.
    apply (Qcmult_le_compat_r _ _ k) in Hge; [|now apply Qclt_le_weak].
    replace (0 * k)%Qc with 0%Qc in Hge by ring.
    now apply Qcle_not_lt in Hge.
  - apply (Qcmult_lt_compat_r _ _ k) in Hlt; auto.
Qed.

Lemma Qc_times_pos_zero (a k : Qc) : (0 < k)%Qc -> Qc_is_zero (a * k) = Qc_is_zero a.
Proof.
  intros Hk. apply eq_true_iff_eq. rewrite !Qc_is_zero_true. split; intros E.
  - destruct (Qcmult_integral _ _ E) as [|E']; auto. subst k. discriminate.
  - subst a. ring.
Qed.

Lemma nadd_comm (x y : num) : nadd x y = nadd y x.
Proof. destruct x, y; simpl; auto. f_equal. ring. Qed.

Lemma nadd_assoc (x y z : num) : nadd (nadd x y) z = nadd x (nadd y z).
Proof. destruct x, y, z; simpl; auto. f_equal. ring. Qed.

(** The range of [float64] *)

Lemma overflows_inside (q : Qc) :
  (- double_range < q)%Qc -> (q < double_range)%Qc -> overflows q = false.
Proof.
  intros Hlo Hhi. unfold overflows.
  apply Qc_ltb_true in Hlo, Hhi. now rewrite Hlo, Hhi.
Qed.

Lemma Qc_opp_times (a k : Qc) : (- a * k = - (a * k))%Qc.
Proof. ring. Qed.

Lemma times_four_inside (q : Qc) :
  (- pow2 1022 < q)%Qc -> (q < pow2 1022)%Qc ->
  overflows (q * Q2Qc (inject_Z 4)) = false.
Proof.
  intros Hlo Hhi.
  assert (E : (pow2 1022 * Q2Qc (inject_Z 4))%Qc = double_range)
    by (apply Qc_is_canon; vm_compute; reflexivity).
  apply overflows_inside.
  - rewrite <- E, <- Qc_opp_times.
    apply Qcmult_lt_compat_r; [exact Qc_four_pos | exact Hlo].
  - rewrite <- E. apply Qcmult_lt_compat_r; [exact Qc_four_pos | exact Hhi].
Qed.

Lemma nmul_four_inside (q : Qc) :
  below (pow2 1022) (Fin q) ->
  nmul (Fin q) four = Fin (q * Q2Qc (inject_Z 4)).
Proof.
  intros [Hlo Hhi]. unfold four, of_Z, nmul, float_product.
  now rewrite times_four_inside.
Qed.

(** The quarterly-to-annual multiplier cancels in a quotient, as long as
    the products stay in the range. *)
Lemma ndiv_annualized (x y : num) :
  below (pow2 1022) x -> below (pow2 1022) y ->
  ndiv (nmul x four) (nmul y four) = ndiv x y.
Proof.
  intros Hx Hy.
  assert (H4 := Qc_four_pos).
  assert (N4 : Q2Qc (inject_Z 4) <> 0%Qc) by discriminate.
  destruct x as [| | |a], y as [| | |b];
    rewrite ?(nmul_four_inside _ Hx), ?(nmul_four_inside _ Hy);
    try reflexivity; unfold four, of_Z; simpl;
    rewrite ?Qc_times_pos_zero, ?Qc_times_pos_neg by assumption;
    try reflexivity.
  destruct (Qc_is_zero b) eqn:Eb; auto. f_equal.
  assert (b <> 0%Qc) by (intros E; apply Qc_is_zero_true in E; congruence).
  field. auto.
Qed.


(** ** Orders placed by [MVF.rebalance] *)

Lemma fold_left_place {A B} (keep : A -> bool) (f : A -> B) (l : list A)
  (placed : list B) :
  fold_left (fun acc x => if keep x then acc ++ [f x] else acc) l placed
  = placed ++ map f (filter keep l).
Proof.
  revert placed. induction l as [|x l IH]; intros placed; simpl.
  - now rewrite app_nil_r.
  - rewrite IH. destruct (keep x); simpl; auto. now rewrite <- app_assoc.
Qed.

Lemma mem_In (s : asset) (l : list asset) : MVF.mem s l = true <-> In s l.
Proof.
  unfold MVF.mem. rewrite existsb_exists. split.
  - intros (x & Hx & E). apply Z.eqb_eq in E. now subst.
  - intros Hs. exists s. split; auto. apply Z.eqb_refl.
Qed.

Lemma py_div_len {A} (x : num) (l : list A) :
  l <> [] -> MVF.py_div x (MVF.py_float_len l) = Ok (ndiv x (MVF.py_float_len l)).
Proof.
  intros Hl. unfold MVF.py_div, MVF.py_float_len, of_nat, of_Z.
  destruct (Qc_is_zero (Q2Qc (inject_Z (Z.of_nat (length l))))) eqn:E; auto.
  exfalso. apply Qc_is_zero_true in E.
  change 0%Qc with (Q2Qc (inject_Z 0)) in E.
  apply Q2Qc_eq_iff in E. unfold Qeq in E. simpl in E.
  destruct l; [congruence|]. simpl length in E. lia.
Qed.

Lemma py_div_len_empty (x : num) :
  MVF.py_div x (MVF.py_float_len (@nil asset)) = Raise ZeroDivisionError.
Proof. reflexivity. Qed.

(** The orders of a completed [rebalance], loop by loop. *)
Lemma rebalance_orders (c : MVF.context) (data : list asset) :
  MVF.long_list c <> [] -> MVF.short_list c <> [] ->
  MVF.rebalance c data =
  Ok (map (fun s => MVF.order_target_percent s
                      (ndiv (MVF.long_leverage c)
                            (MVF.py_float_len (MVF.long_list c))))
          (filter (fun s => MVF.mem s data) (MVF.long_list c))
      ++ map (fun s => MVF.order_target_percent s
                         (nneg (ndiv (MVF.short_leverage c)
                                     (MVF.py_float_len (MVF.short_list c)))))
             (filter (fun s => MVF.mem s data) (MVF.short_list c))
      ++ map (fun s => MVF.order_target s (of_Z 0))
             (filter (fun s => negb (MVF.mem s (MVF.long_list c))
                               && negb (MVF.mem s (MVF.short_list c)))
                     (MVF.positions c))).
Proof.
  intros Hl Hs. unfold MVF.rebalance.
  rewrite (py_div_len _ _ Hl), (py_div_len _ _ Hs). simpl.
  rewrite !fold_left_place. simpl. now rewrite <- app_assoc.
Qed.

Lemma Qc_div_pos (a b : Qc) : (0 < a)%Qc -> (0 < b)%Qc -> (0 < a / b)%Qc.
Proof.
  intros Ha Hb.
  assert (Nb : b <> 0%Qc) by (intros E; subst b; discriminate).
  destruct (Qclt_le_dec 0 (a / b)) as [|Hle]; auto. exfalso.
  apply (Qcmult_le_compat_r _ _ b) in Hle; [|now apply Qclt_le_weak].
  replace (a / b * b)%Qc with a in Hle by (field; auto).
  replace (0 * b)%Qc with 0%Qc in Hle by ring.
  now apply Qcle_not_lt in Hle.
Qed.

Lemma of_nat_pos (n : nat) : n <> O -> (0 < Q2Qc (inject_Z (Z.of_nat n)))%Qc.
Proof.
  intros Hn. change 0%Qc with (Q2Qc (inject_Z 0)).
  unfold Qclt, Q2Qc, this. rewrite !Qred_correct. unfold Qlt. simpl. lia.
Qed.

Lemma placed_in_loop (f : asset -> MVF.order) (data l : list asset) (s : asset) :
  In s l -> In s data -> In (f s) (map f (filter (fun x => MVF.mem x data) l)).
Proof.
  intros Hl Hd. apply in_map, filter_In. split; auto. now apply mem_In.
Qed.

(** C8, as the code has it: when both lists are non-empty, [rebalance]
    completes and orders every long instrument that [data] holds with the
    target weight [long_leverage / len(long_list)]; for a leverage of 0.5
    and 50 long instruments that weight is 0.5/50 = 0.01. *)
Theorem rebalance_long_weight (c : MVF.context) (data : list asset) (s : asset) :
  MVF.long_list c <> [] -> MVF.short_list c <> [] ->
  In s (MVF.long_list c) -> In s data ->
  exists orders,
    MVF.rebalance c data = Ok orders /\
    In (MVF.order_target_percent s
          (ndiv (MVF.long_leverage c) (of_nat (length (MVF.long_list c)))))
       orders /\
    ndiv (ratio 1 2) (of_nat 50) = ratio 1 100.
Proof.
  intros Hl Hs Hin Hd. eexists. split; [now apply rebalance_orders|]. split.
  - apply in_or_app. left.
    now apply (placed_in_loop (fun s => MVF.order_target_percent s _)).
  - apply num_eqb_eq. reflexivity.
Qed.

Lemma rebalance_long_weight_witness :
  exists orders,
    MVF.rebalance sample_context (instruments 1 100) = Ok orders /\
    In (MVF.order_target_percent 7%Z
          (ndiv (MVF.long_leverage sample_context)
                (of_nat (length (MVF.long_list sample_context)))))
       orders /\
    ndiv (ratio 1 2) (of_nat 50) = ratio 1 100.
Proof.
  apply (rebalance_long_weight sample_context (instruments 1 100) 7%Z).
  - discriminate.
  - discriminate.
  - simpl. tauto.
  - simpl. tauto.
Defined.

(** C8 as stated fails on the guard [if long_stock in data]: with a
    leverage of 0.5 and 50 long instruments, instrument 1 of the long list
    is missing from [data] and no order at all is placed for it. *)
Lemma rebalance_long_not_in_data :
  In 1%Z (MVF.long_list sample_context) /\
  length (MVF.long_list sample_context) = 50 /\
  MVF.long_leverage sample_context = ratio 1 2 /\
  exists orders,
    MVF.rebalance sample_context (instruments 2 99) = Ok orders /\
    forall w, ~ In (MVF.order_target_percent 1%Z w) orders.
Proof.
  split; [simpl; tauto|]. split; [reflexivity|]. split; [reflexivity|].
  eexists. split; [apply rebalance_orders; discriminate|].
  intros w Hin. repeat (apply in_app_or in Hin; destruct Hin as [Hin|Hin]);
    apply in_map_iff in Hin; destruct Hin as (s & E & Hs);
    try discriminate; injection E as E _; subst s;
    apply filter_In in Hs; destruct Hs as [_ Hs]; vm_compute in Hs;
    discriminate.
Qed.

(** C9, as the code has it: after [initialize] ([short_leverage = -0.5])
    and when both lists are non-empty, [rebalance] completes and orders
    every short instrument that [data] holds with the weight
    [-short_weight], where [short_weight = short_leverage / len(short_list)]
    is negative: the weight sent is positive.  With 50 instruments it is
    +0.01, the weight of the long instruments. *)
Theorem rebalance_short_weight_positive (c : MVF.context) (data : list asset)
  (s : asset) :
  MVF.long_list c <> [] -> MVF.short_list c <> [] ->
  In s (MVF.short_list c) -> In s data ->
  exists orders,
    MVF.rebalance (MVF.initialize c) data = Ok orders /\
    In (MVF.order_target_percent s
          (nneg (ndiv (nneg (ratio 1 2)) (of_nat (length (MVF.short_list c))))))
       orders /\
    nlt (of_Z 0)
        (nneg (ndiv (nneg (ratio 1 2)) (of_nat (length (MVF.short_list c)))))
    = true /\
    nneg (ndiv (nneg (ratio 1 2)) (of_nat 50)) = ratio 1 100 /\
    ndiv (ratio 1 2) (of_nat 50) = ratio 1 100.
Proof.
  intros Hl Hs Hin Hd. eexists. split; [now apply rebalance_orders|].
  split; [|split; [|split]].
  - apply in_or_app. right. apply in_or_app. left.
    now apply (placed_in_loop (fun s => MVF.order_target_percent s _)).
  - assert (Hlen : length (MVF.short_list c) <> O)
      by (destruct (MVF.short_list c); simpl; congruence).
    assert (Hn := of_nat_pos _ Hlen).
    unfold of_nat, of_Z, ratio, ndiv, nneg.
    set (n := Q2Qc (inject_Z (Z.of_nat (length (MVF.short_list c))))) in *.
    destruct (Qc_is_zero n) eqn:Ez.
    + apply Qc_is_zero_true in Ez. rewrite Ez in Hn. discriminate.
    + simpl. apply Qc_ltb_true.
      assert (Nn : n <> 0%Qc) by (intros E; rewrite E in Hn; discriminate).
      replace (- (- Q2Qc (1 # 2) / n))%Qc with (Q2Qc (1 # 2) / n)%Qc
        by (field; auto).
      apply Qc_div_pos; auto. reflexivity.
  - apply num_eqb_eq. reflexivity.
  - apply num_eqb_eq. reflexivity.
Qed.

Lemma rebalance_short_weight_positive_witness :
  exists orders,
    MVF.rebalance (MVF.initialize sample_context) (instruments 1 100)
    = Ok orders /\
    In (MVF.order_target_percent 60%Z
          (nneg (ndiv (nneg (ratio 1 2))
                      (of_nat (length (MVF.short_list sample_context))))))
       orders /\
    nlt (of_Z 0)
        (nneg (ndiv (nneg (ratio 1 2))
                    (of_nat (length (MVF.short_list sample_context)))))
    = true /\
    nneg (ndiv (nneg (ratio 1 2)) (of_nat 50)) = ratio 1 100 /\
    ndiv (ratio 1 2) (of_nat 50) = ratio 1 100.
Proof.
  apply (rebalance_short_weight_positive sample_context (instruments 1 100)
           60%Z).
  - discriminate.
  - discriminate.
  - simpl. tauto.
  - simpl. tauto.
Defined.

(** C9 as stated fails on the guard [if short_stock in data]: instrument
    51 of the short list is missing from [data] and no order is placed
    for it. *)
Lemma rebalance_short_not_in_data :
  In 51%Z (MVF.short_list sample_context) /\
  exists orders,
    MVF.rebalance sample_context (instruments 1 50 ++ instruments 52 49)
    = Ok orders /\
    forall w, ~ In (MVF.order_target_percent 51%Z w) orders.
Proof.
  split; [simpl; tauto|].
  eexists. split; [apply rebalance_orders; discriminate|].
  intros w Hin. repeat (apply in_app_or in Hin; destruct Hin as [Hin|Hin]);
    apply in_map_iff in Hin; destruct Hin as (s & E & Hs);
    try discriminate; injection E as E _; subst s;
    apply filter_In in Hs; destruct Hs as [_ Hs]; vm_compute in Hs;
    discriminate.
Qed.

(** ** Ratios of two quarterly fundamentals *)



(** ** Deciding the equality of outputs *)

Lemma vec_eqb_eq (u v : vec) : vec_eqb u v = true -> u = v.
Proof.
  unfold vec_eqb. revert v.
  induction u as [|x u IH]; intros [|y v]; simpl; try discriminate; auto.
  intros E. apply andb_true_iff in E. destruct E as [El E].
  apply andb_true_iff in E. destruct E as [Exy E].
  f_equal; [now apply num_eqb_eq|]. apply IH. now rewrite El, E.
Qed.

Lemma Ok_vec_eq (r : result vec) (v : vec) :
  match r with Ok u => vec_eqb u v | Raise _ => false end = true -> r = Ok v.
Proof.
  destruct r as [u|e]; [|discriminate]. intros E. f_equal.
  now apply vec_eqb_eq.
Qed.


(** ** Money flow *)

(** The loop of [Moneyflow_Volume_5d] on a column of five days: the first
    day's sign is decided against [c4], the last day's close. *)
Lemma Moneyflow_five_days (c0 c1 c2 c3 c4 v0 v1 v2 v3 v4 : num) :
  Factors.Moneyflow_Volume_5d_column
    ([c0; c1; c2; c3; c4], [v0; v1; v2; v3; v4])
  = Ok (ndiv
          (flow_step (flow_step (flow_step (flow_step (flow_step (Fin 0%Qc)
             (ngt c0 c4) (nmul c0 v0))
             (ngt c1 c0) (nmul c1 v1))
             (ngt c2 c1) (nmul c2 v2))
             (ngt c3 c2) (nmul c3 v3))
             (ngt c4 c3) (nmul c4 v4))
          (np_sum (vmul [c0; c1; c2; c3; c4] [v0; v1; v2; v3; v4]))).
Proof. reflexivity. Qed.

(** C3 fails on the code.  On the last day of [moneyflow_panel] the window
    holds the closes 5, 1, 2, 3, 4; its first close fell from the 6 of the
    prior day, so the specified ratio is (-5 - 1 + 2 + 3 + 4)/15 = 1/5.
    The code compares the first close with the window's last close, 4,
    counts it as a rise, and returns (5 - 1 + 2 + 3 + 4)/15 = 13/15. *)
Theorem Moneyflow_first_day_wraps :
  run_factor Factors.Moneyflow_Volume_5d moneyflow_panel [24%Z] 5
  = Ok [ratio 13 15] /\
  money_flow_ratio_spec (of_Z 6) (map of_Z [5; 1; 2; 3; 4]%Z) (repeat (of_Z 1) 5)
  = ratio 1 5.
Proof.
  split.
  - apply Ok_vec_eq. vm_compute. reflexivity.
  - apply num_eqb_eq. vm_compute. reflexivity.
Qed.

(** ** Nan-aware mean and standard deviation *)

Lemma np_sum_no_valid (col : vec) (a : Qc) :
  filter valid col = [] ->
  fold_left nadd (replace_nan col) (Fin a) = Fin a.
Proof.
  induction col as [|x col IH]; simpl; auto.
  destruct x; simpl; try discriminate. intros E.
  replace (a + 0)%Qc with a by ring. auto.
Qed.

Lemma np_sum_one_valid (col : vec) (a q : Qc) :
  filter valid col = [Fin q] ->
  fold_left nadd (replace_nan col) (Fin a) = Fin (a + q).
Proof.
  revert a. induction col as [|x col IH]; intros a; simpl; [discriminate|].
  destruct x; simpl; try discriminate; intros E.
  - replace (a + 0)%Qc with a by ring. auto.
  - injection E as Eq Erest. subst. now apply np_sum_no_valid.
Qed.

Lemma np_sum_zeros (l : vec) :
  Forall (fun x => x = Fin 0%Qc) l -> np_sum l = Fin 0%Qc.
Proof.
  unfold np_sum. induction 1 as [|x l Hx _ IH]; simpl; auto.
  subst x. simpl. now replace (0 + 0)%Qc with 0%Qc by ring.
Qed.

Lemma nmul_zero : nmul (Fin 0%Qc) (Fin 0%Qc) = Fin 0%Qc.
Proof. reflexivity. Qed.

Lemma deviations_one_valid (col : vec) (q : Qc) :
  filter valid col = [Fin q] ->
  let dev := map (fun x => if isnan x then Fin 0%Qc else nsub x (Fin q)) col in
  Forall (fun x => x = Fin 0%Qc) (vmul dev dev).
Proof.
  intros E. simpl.
  assert (Hall : Forall (fun x => x = NaN \/ x = Fin q) col).
  { apply Forall_forall. intros x Hx. destruct (isnan x) eqn:Ex.
    - left. now destruct x.
    - right. assert (Hf : In x (filter valid col))
        by (apply filter_In; unfold valid; now rewrite Ex).
      rewrite E in Hf. destruct Hf as [<-|[]]. reflexivity. }
  clear E. unfold vmul.
  induction Hall as [|x col [->| ->] _ IH]; cbn [map map2 isnan];
    constructor; auto; try exact nmul_zero.
  unfold nsub, nneg, nadd. replace (q + - q)%Qc with 0%Qc by ring.
  exact nmul_zero.
Qed.

(** C2, as the code has it: on a column whose only entry that is not
    [nan] is the finite value [q], the nan-aware mean is [q] and the
    nan-aware standard deviation (population, [ddof = 0]) is 0. *)
Theorem nan_aware_single_entry `{External} (col : vec) (q : Qc) :
  np_sqrt (Fin 0%Qc) = Fin 0%Qc ->
  filter valid col = [Fin q] ->
  np_nanmean col = Fin q /\ np_nanstd col = Fin 0%Qc.
Proof.
  intros Hsqrt E.
  assert (Hcnt : count_valid col = 1)
    by (unfold count_valid; now rewrite E).
  assert (Hmean : ndiv (np_sum (replace_nan col)) (of_nat (count_valid col))
                  = Fin q).
  { rewrite Hcnt. unfold np_sum. rewrite (np_sum_one_valid _ _ _ E).
    change (Fin ((0 + q) / 1) = Fin q). f_equal. field. discriminate. }
  split; [exact Hmean|].
  unfold np_nanstd, np_nanvar. rewrite Hmean, Hcnt.
  rewrite (np_sum_zeros _ (deviations_one_valid _ _ E)).
  simpl. transitivity (np_sqrt (Fin 0%Qc)); [|exact Hsqrt].
  reflexivity.
Qed.

Lemma nan_aware_single_entry_witness :
  np_nanmean [NaN; of_Z 5; NaN] = Fin (Q2Qc (inject_Z 5)) /\
  np_nanstd [NaN; of_Z 5; NaN] = Fin 0%Qc.
Proof.
  apply (nan_aware_single_entry (H := sample_external) [NaN; of_Z 5; NaN]);
    reflexivity.
Defined.

(** C2 as stated fails on the standard deviation: for the column
    [nan, 5, nan], with one entry that is not [nan], [np.nanstd] is 0 and
    not [nan]. *)
Lemma nanstd_single_entry_is_zero :
  filter valid [NaN; of_Z 5; NaN] = [of_Z 5] /\
  np_nanstd [NaN; of_Z 5; NaN] = of_Z 0 /\
  np_nanstd [NaN; of_Z 5; NaN] <> NaN.
Proof.
  split; [reflexivity|].
  assert (E : np_nanstd [NaN; of_Z 5; NaN] = of_Z 0)
    by (apply num_eqb_eq; vm_compute; reflexivity).
  split; [exact E|]. rewrite E. discriminate.
Qed.

(** ** Mean reversion *)

(** C4 fails on the code: [Mean_Reversion_1M] takes the mean and the
    standard deviation of [ret_1Y_monthly] over the instruments, not over
    the months of one instrument.  For an instrument computed alone the
    deviation is 0 and the result is infinite; and with a second
    instrument in the window the value of the first one (closes unchanged)
    moves from 21 to 10 when only the second one's last close changes. *)
Theorem Mean_Reversion_1M_reduces_over_instruments :
  compute Factors.Mean_Reversion_1M [24%Z] [flat_year_alone] = Ok [PInf] /\
  compute Factors.Mean_Reversion_1M [24; 8554]%Z [flat_year 120]
  = Ok [of_Z 21; of_Z 45] /\
  compute Factors.Mean_Reversion_1M [24; 8554]%Z [flat_year 130]
  = Ok [of_Z 10; of_Z 34].
Proof.
  repeat split; apply Ok_vec_eq; vm_compute; reflexivity.
Qed.

(** ** MACD signal line *)

Lemma nth_map_in_range {A B} (f : A -> B) (l : list A) (j : nat) (d : B) (d' : A) :
  j < length l -> nth j (map f l) d = f (nth j l d').
Proof.
  intros Hj. rewrite (nth_indep _ d (f d')) by now rewrite length_map.
  apply map_nth.
Qed.

Lemma length_transpose (n : nat) (w : window) : length (transpose n w) = n.
Proof. unfold transpose. now rewrite length_map, length_seq. Qed.

Lemma nth_transpose (n : nat) (w : window) (j : nat) (d : vec) :
  j < n -> nth j (transpose n w) d = column j w.
Proof.
  intros Hj. unfold transpose.
  rewrite (nth_map_in_range _ _ _ d 0) by now rewrite length_seq.
  now rewrite seq_nth.
Qed.

(** C7: whatever [talib.MACD] does, [MACD_Signal_10d.compute] returns
    one value per instrument; the value of instrument [j] is [nan] when
    the call raises on its column (or hands back an empty signal line),
    and the last entry of the signal line of its own column otherwise. *)
Theorem MACD_Signal_10d_batch `{External} (assets : list asset) (close_ : window)
  (j : nat) :
  j < length assets ->
  exists out,
    compute Factors.MACD_Signal_10d assets [close_] = Ok out /\
    length out = length assets /\
    nth j out NaN =
    match talib_MACD (column j close_) with
    | Raise _ => NaN
    | Ok (_, signal_line, _) =>
        match py_index signal_line (-1) with Ok x => x | Raise _ => NaN end
    end.
Proof.
  intros Hj. eexists. split; [reflexivity|]. split.
  - now rewrite length_map, length_transpose.
  - rewrite (nth_map_in_range _ _ _ NaN ([] : vec))
      by now rewrite length_transpose.
    rewrite nth_transpose by assumption.
    unfold Factors.MACD_Signal_10d_column.
    destruct (talib_MACD (column j close_)) as [[[m s] h]|e]; reflexivity.
Qed.

Lemma MACD_Signal_10d_batch_witness :
  exists out,
    compute Factors.MACD_Signal_10d [24; 8554]%Z [gappy_closes] = Ok out /\
    length out = 2 /\
    nth 1 out NaN =
    match talib_MACD (column 1 gappy_closes) with
    | Raise _ => NaN
    | Ok (_, signal_line, _) =>
        match py_index signal_line (-1) with Ok x => x | Raise _ => NaN end
    end.
Proof.
  apply (MACD_Signal_10d_batch (H := sample_external) [24; 8554]%Z
           gappy_closes 1).
  simpl. lia.
Defined.

(** With [sample_MACD], which raises on the second column: the first
    instrument keeps its value. *)
Example MACD_Signal_10d_sample :
  compute Factors.MACD_Signal_10d [24; 8554]%Z [gappy_closes]
  = Ok [of_Z 2; NaN].
Proof. reflexivity. Qed.

(** ** Shapes *)

Lemma length_map2 {A B C} (f : A -> B -> C) (l : list A) (m : list B) :
  length (map2 f l m) = Nat.min (length l) (length m).
Proof.
  revert m. induction l as [|a l IH]; intros [|b m]; simpl; auto.
Qed.

Lemma length_np_roll1 {A} (l : list A) : length (np_roll1 l) = length l.
Proof.
  unfold np_roll1. rewrite <- (length_rev l).
  destruct (rev l) as [|x r]; simpl; auto. now rewrite length_rev.
Qed.

Lemma length_column (j : nat) (w : window) : length (column j w) = length w.
Proof. apply length_map. Qed.

Lemma length_column_returns (col : vec) :
  length (column_returns col) = length col - 1.
Proof.
  unfold column_returns, vdiv, vsub.
  assert (E : forall A (l : list A), length (tl l) = length l - 1)
    by (intros A [|x l]; simpl; lia).
  rewrite E, !length_map2, length_np_roll1. lia.
Qed.

Lemma mapM_Ok {A B} (f : A -> result B) (g : A -> B) (l : list A) :
  (forall x, In x l -> f x = Ok (g x)) -> mapM f l = Ok (map g l).
Proof.
  induction l as [|x l IH]; intros Hf; simpl; auto.
  rewrite (Hf x) by (simpl; auto). simpl.
  rewrite IH by (intros; apply Hf; simpl; auto). reflexivity.
Qed.

Lemma mapM_ext {A B} (f g : A -> result B) (l : list A) :
  (forall x, In x l -> f x = g x) -> mapM f l = mapM g l.
Proof.
  induction l as [|x l IH]; intros Hf; simpl; auto.
  rewrite (Hf x) by (simpl; auto).
  rewrite IH by (intros; apply Hf; simpl; auto). reflexivity.
Qed.

Lemma In_transpose (n : nat) (w : window) (col : vec) :
  In col (transpose n w) -> exists j, j < n /\ col = column j w.
Proof.
  unfold transpose. intros Hin. apply in_map_iff in Hin.
  destruct Hin as (j & <- & Hj). apply in_seq in Hj. exists j. split; [lia|auto].
Qed.

(** ** Index beta *)

Lemma np_cov_same_length (x y : vec) :
  length x = length y -> np_cov x y = Ok (covariance x y, variance y).
Proof.
  intros E. unfold np_cov, variance, covariance.
  rewrite E, Nat.eqb_refl.
  assert (Ef : (if (Z.of_nat (length y) - 1 <=? 0)%Z then Fin 0%Qc
                else of_Z (Z.of_nat (length y) - 1))
               = of_nat (length y - 1)).
  { unfold of_nat. destruct (Z.leb_spec (Z.of_nat (length y) - 1) 0).
    - replace (length y - 1) with 0 by lia. reflexivity.
    - f_equal. lia. }
  now rewrite Ef.
Qed.

(** The code's returns and covariance are those of the specification *)

Lemma np_roll1_nonempty {A} (l : list A) (d : A) :
  l <> [] -> np_roll1 l = last l d :: removelast l.
Proof.
  intros Hl. unfold np_roll1.
  rewrite (app_removelast_last d Hl) at 1.
  rewrite rev_app_distr. simpl. now rewrite rev_involutive.
Qed.

Lemma vdiv_vsub_same (col r : vec) :
  vdiv (vsub col r) r = map2 (fun a b => ndiv (nsub a b) b) col r.
Proof.
  unfold vdiv, vsub. revert r.
  induction col as [|a col IH]; intros [|b r]; simpl; auto.
  now rewrite IH.
Qed.

Lemma daily_returns_pairs (closes : vec) :
  daily_returns closes
  = map2 (fun a b => ndiv (nsub a b) b) (tl closes) (removelast closes).
Proof.
  induction closes as [|p0 [|p1 later] IH]; try reflexivity.
  change (daily_returns (p0 :: p1 :: later))
    with (ndiv (nsub p1 p0) p0 :: daily_returns (p1 :: later)).
  rewrite IH. reflexivity.
Qed.

Lemma column_returns_daily (col : vec) :
  column_returns col = daily_returns col.
Proof.
  unfold column_returns. destruct col as [|p0 rest]; [reflexivity|].
  rewrite vdiv_vsub_same, (np_roll1_nonempty _ NaN) by discriminate.
  rewrite daily_returns_pairs. reflexivity.
Qed.

Lemma nadd_zero_l (x : num) : nadd (Fin 0%Qc) x = x.
Proof. destruct x; simpl; auto. f_equal. ring. Qed.

Lemma fold_left_nadd_total (v : vec) (a : num) :
  fold_left nadd v a = nadd a (total v).
Proof.
  revert a. induction v as [|x v IH]; intros a; simpl.
  - now rewrite nadd_comm, nadd_zero_l.
  - now rewrite IH, nadd_assoc.
Qed.

Lemma np_sum_total (v : vec) : np_sum v = total v.
Proof. unfold np_sum. now rewrite fold_left_nadd_total, nadd_zero_l. Qed.

Lemma np_mean_mean (v : vec) : np_mean v = mean v.
Proof. unfold np_mean, mean. now rewrite np_sum_total. Qed.

Lemma vmul_co_deviations (mx my : num) (x y : vec) :
  vmul (vsubs x mx) (vsubs y my) = co_deviations mx my x y.
Proof.
  unfold vmul, vsubs. revert y.
  induction x as [|a x IH]; intros [|b y]; simpl; auto.
  now rewrite IH.
Qed.

Lemma covariance_sample (x y : vec) :
  1 <= length x -> covariance x y = sample_covariance x y.
Proof.
  intros Hx. unfold covariance, sample_covariance.
  rewrite !np_mean_mean, vmul_co_deviations, np_sum_total.
  unfold of_nat. do 3 f_equal. lia.
Qed.

Lemma regression_slope_beta (x y : vec) :
  1 <= length x -> 1 <= length y -> regression_slope x y = beta x y.
Proof.
  intros Hx Hy. unfold regression_slope, beta, variance, sample_variance.
  now rewrite !covariance_sample.
Qed.

Lemma Index_Beta_betas (assets : list asset) (close_ : window) (b : nat) :
  Factors.find_asset Factors.SPY assets = Ok b ->
  2 <= length close_ ->
  compute Factors.Index_Beta assets [close_]
  = Ok (map (fun j => beta (daily_returns (column j close_))
                           (daily_returns (column b close_)))
            (seq 0 (length assets))).
Proof.
  intros Hb Hlen. simpl. unfold Factors.Index_Beta_compute. rewrite Hb.
  simpl. unfold Factors.per_column.
  rewrite (mapM_Ok _
             (fun col => beta (daily_returns col)
                              (daily_returns (column b close_))));
    [unfold transpose; now rewrite map_map|].
  intros col Hcol. apply In_transpose in Hcol. destruct Hcol as (j & _ & ->).
  unfold Factors.Index_Beta_column.
  rewrite np_cov_same_length
    by now rewrite !length_column_returns, !length_column.
  simpl. f_equal. fold (variance (column_returns (column b close_))).
  change (ndiv (covariance (column_returns (column j close_))
                           (column_returns (column b close_)))
               (variance (column_returns (column b close_))))
    with (regression_slope (column_returns (column j close_))
                           (column_returns (column b close_))).
  rewrite regression_slope_beta
    by (rewrite length_column_returns, length_column; lia).
  now rewrite !column_returns_daily.
Qed.

(** C5: when the benchmark (sid 8554) is among the assets and the window
    has at least two days, [Index_Beta] returns for each instrument the
    slope [cov(instrument daily returns, benchmark daily returns) /
    var(benchmark daily returns)], with the daily returns, the sample
    covariance and the variance of the specification; and for every
    instrument for which that covariance is 0.002 and that variance 0.001
    (series of 5 returns or of any other length) it returns 2. *)
Theorem Index_Beta_is_regression_slope (assets : list asset) (close_ : window)
  (benchmark_index : nat) :
  Factors.find_asset Factors.SPY assets = Ok benchmark_index ->
  2 <= length close_ ->
  let returns_of j := daily_returns (column j close_) in
  exists out,
    compute Factors.Index_Beta assets [close_] = Ok out /\
    out = map (fun j => beta (returns_of j) (returns_of benchmark_index))
              (seq 0 (length assets)) /\
    (forall j, j < length assets ->
       sample_covariance (returns_of j) (returns_of benchmark_index)
       = ratio 2 1000 ->
       sample_variance (returns_of benchmark_index) = ratio 1 1000 ->
       nth j out NaN = of_Z 2).
Proof.
  intros Hb Hlen. cbv zeta. eexists.
  split; [exact (Index_Beta_betas _ _ _ Hb Hlen)|]. split; [reflexivity|].
  intros j Hj Hc Hv.
  rewrite (nth_map_in_range _ _ _ _ 0) by now rewrite length_seq.
  rewrite seq_nth by assumption. unfold beta. simpl Nat.add.
  rewrite Hc, Hv. apply num_eqb_eq. reflexivity.
Qed.

Lemma Index_Beta_is_regression_slope_witness :
  let returns_of j := daily_returns (column j beta_closes) in
  exists out,
    compute Factors.Index_Beta [24; 8554]%Z [beta_closes] = Ok out /\
    out = map (fun j => beta (returns_of j) (returns_of 1)) (seq 0 2) /\
    (forall j, j < 2 ->
       sample_covariance (returns_of j) (returns_of 1) = ratio 2 1000 ->
       sample_variance (returns_of 1) = ratio 1 1000 ->
       nth j out NaN = of_Z 2).
Proof.
  apply (Index_Beta_is_regression_slope [24; 8554]%Z beta_closes 1).
  - reflexivity.
  - simpl. lia.
Defined.

(** The scenario on [beta_closes]: five daily returns each (2%, -2%, 4%,
    -4%, 0 for the benchmark), covariance 0.002, benchmark variance
    0.001, and a beta of 2 (of 1 for the benchmark itself). *)
Example Index_Beta_sample :
  daily_returns (column 1 beta_closes)
  = [ratio 2 100; ratio (-2) 100; ratio 4 100; ratio (-4) 100; of_Z 0] /\
  sample_covariance (daily_returns (column 0 beta_closes))
                    (daily_returns (column 1 beta_closes)) = ratio 2 1000 /\
  sample_variance (daily_returns (column 1 beta_closes)) = ratio 1 1000 /\
  compute Factors.Index_Beta [24; 8554]%Z [beta_closes]
  = Ok [of_Z 2; of_Z 1].
Proof.
  split; [apply vec_eqb_eq; vm_compute; reflexivity|].
  split; [apply num_eqb_eq; vm_compute; reflexivity|].
  split; [apply num_eqb_eq; vm_compute; reflexivity|].
  apply Ok_vec_eq. vm_compute. reflexivity.
Qed.

(** ** No look-ahead *)

Lemma get_window_app (rows future : list vec) (len as_of : nat) :
  as_of < length rows ->
  get_window (rows ++ future) len as_of = get_window rows len as_of.
Proof.
  intros Hd. unfold get_window. rewrite length_app.
  replace (as_of <? length rows + length future) with true
    by (symmetry; apply Nat.ltb_lt; lia).
  replace (as_of <? length rows) with true
    by (symmetry; apply Nat.ltb_lt; lia).
  destruct (Nat.leb_spec len (as_of + 1)) as [Hl|Hl]; simpl; auto.
  f_equal. rewrite skipn_app, firstn_app, length_skipn.
  replace (as_of + 1 - len - length rows) with 0 by lia.
  replace (len - (length rows - (as_of + 1 - len))) with 0 by lia.
  simpl. now rewrite app_nil_r.
Qed.

(** The value of a factor on a date is a function of the windows of its
    inputs on that date. *)
Lemma run_factor_window_only (f : CustomFactor) (p p' : panel)
  (assets : list asset) (as_of : nat) :
  (forall fld, In fld (inputs f) ->
     get_window (p' fld) (window_length f) as_of
     = get_window (p fld) (window_length f) as_of) ->
  run_factor f p' assets as_of = run_factor f p assets as_of.
Proof.
  intros Hw. unfold run_factor.
  now rewrite (mapM_ext _
    (fun fld => get_window (p fld) (window_length f) as_of) _ Hw).
Qed.

(** C1: for every factor (those of [FACTORS] and of Pioneer's pipeline in
    particular) and every date of the panel, the factor's value on that
    date is computed from the trailing windows ending on that date, and
    rows appended for later dates leave it unchanged. *)
Theorem no_look_ahead (f : CustomFactor) (p future : panel)
  (assets : list asset) (as_of : nat) :
  (forall fld, In fld (inputs f) -> as_of < length (p fld)) ->
  run_factor f (extend p future) assets as_of = run_factor f p assets as_of.
Proof.
  intros Hd. apply run_factor_window_only. intros fld Hin.
  unfold extend. apply get_window_app. auto.
Qed.

Lemma no_look_ahead_witness :
  run_factor Factors.Moneyflow_Volume_5d
    (extend moneyflow_panel (fun _ => [[of_Z 99]])) [24%Z] 5
  = run_factor Factors.Moneyflow_Volume_5d moneyflow_panel [24%Z] 5.
Proof.
  apply (no_look_ahead Factors.Moneyflow_Volume_5d moneyflow_panel
           (fun _ => [[of_Z 99]]) [24%Z] 5).
  intros fld Hin. simpl in Hin.
  destruct Hin as [<-|[<-|[]]]; simpl; lia.
Defined.

(** ** Reordering the instruments *)

Section Reordering.
Variables (n : nat) (p : list nat).
Hypothesis Hp : Permutation p (seq 0 n).



End Reordering.



Lemma map_nth_seq {A} (d : A) (l : list A) :
  map (fun j => nth j l d) (seq 0 (length l)) = l.
Proof.
  apply (nth_ext _ _ d d).
  - now rewrite length_map, length_seq.
  - intros j Hj. rewrite length_map, length_seq in Hj.
    rewrite (nth_map_in_range _ _ _ d 0) by now rewrite length_seq.
    now rewrite seq_nth.
Qed.


Lemma permute_as_map {A} (d : A) (p : list nat) (l : list A) :
  Forall (fun j => j < length l) p ->
  permute d p l = permute d p (map (fun j => nth j l d) (seq 0 (length l))).
Proof. intros _. now rewrite map_nth_seq. Qed.



Lemma nth_map2 {A B C} (f : A -> B -> C) (l : list A) (m : list B)
  (j : nat) (da : A) (db : B) (dc : C) :
  j < length l -> j < length m ->
  nth j (map2 f l m) dc = f (nth j l da) (nth j m db).
Proof.
  revert m j. induction l as [|a l IH]; intros [|b m] [|j]; simpl;
    try lia; auto.
  intros. apply IH; lia.
Qed.


(** Rows and columns of a reordered window *)


Lemma py_index_In {A} (l : list A) (i : Z) (x : A) :
  py_index l i = Ok x -> In x l.
Proof.
  unfold py_index. destruct ((0 <=? _) && _)%Z; [|discriminate].
  destruct (nth_error l _) eqn:E; [|discriminate].
  intros [= <-]. eapply nth_error_In; eauto.
Qed.

Lemma row_length (n : nat) (w : window) (i : Z) (row : vec) :
  rectangular n w -> py_index w i = Ok row -> length row = n.
Proof.
  intros Hr Hi. apply py_index_In in Hi.
  unfold rectangular in Hr. rewrite Forall_forall in Hr. auto.
Qed.



Lemma combine_map_same {X A B} (g : X -> A) (h : X -> B) (l : list X) :
  combine (map g l) (map h l) = map (fun x => (g x, h x)) l.
Proof. induction l; simpl; congruence. Qed.

(** Loops over the instruments *)

Lemma mapM_map {X A B} (f : A -> result B) (g : X -> A) (l : list X) :
  mapM f (map g l) = mapM (fun x => f (g x)) l.
Proof. induction l as [|x l IH]; simpl; auto. now rewrite IH. Qed.

Lemma mapM_Ok_inv {A B} (f : A -> result B) (l : list A) (v : list B)
  (da : A) (db : B) :
  mapM f l = Ok v ->
  length v = length l /\
  forall j, j < length l -> f (nth j l da) = Ok (nth j v db).
Proof.
  revert v. induction l as [|x l IH]; simpl; intros v E.
  - injection E as <-. split; auto. intros; lia.
  - destruct (f x) as [y|] eqn:Ex; simpl in E; [|discriminate].
    destruct (mapM f l) as [ys|] eqn:El; simpl in E; [|discriminate].
    injection E as <-. destruct (IH ys eq_refl) as [Hlen Hnth].
    split; [simpl; congruence|]. intros [|j] Hj; simpl; auto.
    apply Hnth. lia.
Qed.

Lemma mapM_raises {A B} (f : A -> result B) (l : list A) :
  raises (mapM f l) <-> exists x, In x l /\ raises (f x).
Proof.
  induction l as [|x l IH]; simpl.
  - split; [tauto|]. intros (x & [] & _).
  - destruct (f x) as [y|e] eqn:Ex; simpl.
    + destruct (mapM f l) as [ys|e]; simpl in *.
      * split; [tauto|]. intros (z & [<-|Hz] & Hr).
        -- now rewrite Ex in Hr.
        -- apply IH. eauto.
      * split; auto. intros _. destruct IH as [IH _].
        destruct (IH I) as (z & Hz & Hr). eauto.
    + split; auto. intros _. exists x. rewrite Ex. simpl. auto.
Qed.




(** ** Column independence, factor by factor *)



Ltac head_of t :=
  lazymatch t with
  | ?f _ => head_of f
  | _ => t
  end.



Ltac vec_length :=
  unfold vadd, vsub, vmul, vdiv, vmuls, vdivs, vsubs, sdivv;
  repeat first [rewrite length_map2 | rewrite length_map]; lia.




Section Equivariance.
Context `{External}.


(** Loops over the columns *)














End Equivariance.

Section Equivariance_special.
Context `{External}.

(** Element-wise product of two windows *)




Lemma np_multiply_same_rows (a b : window) :
  length a = length b -> np_multiply a b = Ok (map2 vmul a b).
Proof. unfold np_multiply. intros ->. now rewrite Nat.eqb_refl. Qed.


(** A loop over the columns followed by row arithmetic *)



End Equivariance_special.

(** Locating the benchmark *)

Lemma find_asset_Ok (sid : asset) (assets : list asset) (b : nat) :
  Factors.find_asset sid assets = Ok b ->
  b < length assets /\ nth b assets 0%Z = sid.
Proof.
  revert b. induction assets as [|a rest IH]; simpl; intros b E;
    [discriminate|].
  destruct (Z.eqb_spec a sid) as [->|Hne].
  - injection E as <-. split; [lia|reflexivity].
  - destruct (Factors.find_asset sid rest) as [i|]; simpl in E;
      [|discriminate].
    injection E as <-. destruct (IH i eq_refl). split; [lia|auto].
Qed.

Lemma find_asset_raises (sid : asset) (assets : list asset) :
  raises (Factors.find_asset sid assets) <-> ~ In sid assets.
Proof.
  induction assets as [|a rest IH]; simpl; [tauto|].
  destruct (Z.eqb_spec a sid) as [->|Hne]; simpl; [tauto|].
  destruct (Factors.find_asset sid rest); simpl in *; tauto.
Qed.


Section Equivariance_benchmark.
Context `{External}.



End Equivariance_benchmark.


(** Ranks over the instruments *)


Lemma length_pd_rank (v : vec) : length (Pioneer.pd_rank v) = length v.
Proof. apply length_map. Qed.



Section Equivariance_rank.
Context `{External}.


End Equivariance_rank.

(** ** Column independence of the catalogue *)

Section Column_independence.
Context `{External}.





End Column_independence.



(** With the benchmark listed first the betas come out in the new order;
    and the averaged ranks of Pioneer's [Value] follow the instruments. *)
Example Index_Beta_swapped :
  compute Factors.Index_Beta [8554; 24]%Z [permute_window [1; 0] beta_closes]
  = Ok [of_Z 1; of_Z 2].
Proof. apply Ok_vec_eq. vm_compute. reflexivity. Qed.

Example Value_sample :
  compute Pioneer.Value [24; 8554; 5061]%Z
    [book_value_yields; sales_yields; fcf_yields]
  = Ok [ratio 3 2; ratio 2 1; ratio 13 6] /\
  compute Pioneer.Value [5061; 24; 8554]%Z
    (map (permute_window [2; 0; 1])
       [book_value_yields; sales_yields; fcf_yields])
  = Ok [ratio 13 6; ratio 3 2; ratio 2 1].
Proof. split; apply Ok_vec_eq; vm_compute; reflexivity. Qed.

(** ** An instrument computed alone *)

Lemma ndiv_by_zero_not_finite (x : num) :
  is_finite (ndiv x (Fin 0%Qc)) = false.
Proof.
  destruct x as [| | |a]; try reflexivity.
  unfold ndiv. change (Qc_is_zero 0) with true.
  destruct (Qc_is_zero a); [reflexivity|]. now destruct (Qc_ltb a 0).
Qed.

Lemma ndiv_of_infinite_not_finite (x s : num) :
  is_finite x = false -> is_finite (ndiv x s) = false.
Proof.
  destruct x as [| | |a]; try discriminate; intros _;
    destruct s as [| | |b]; try reflexivity; simpl;
    now destruct (Qc_ltb b 0).
Qed.

Lemma nsub_infinite_not_finite (m r : num) :
  is_finite r = false -> is_finite (nsub m r) = false.
Proof.
  destruct r; try discriminate; intros _; now destruct m.
Qed.

Lemma np_nanmean_singleton (r : num) :
  match r with
  | Fin q => np_nanmean [r] = Fin q /\ np_nanvar 0 [r] = Fin 0%Qc
  | _ => np_nanmean [r] = r
  end.
Proof.
  destruct r as [| | |q]; try reflexivity.
  assert (E : np_nanmean [Fin q] = Fin q).
  { change (Fin ((0 + q) / 1) = Fin q). f_equal. field. discriminate. }
  split; [exact E|].
  unfold np_nanvar. fold (np_nanmean [Fin q]). rewrite E. simpl.
  replace (q + - q)%Qc with 0%Qc by ring. reflexivity.
Qed.

(** [Mean_Reversion_1M] on a window of a single instrument never returns
    a finite value: the deviation over one instrument is 0. *)
Lemma Mean_Reversion_1M_alone_not_finite `{External} (a : asset)
  (close_ : window) (out : vec) :
  np_sqrt (Fin 0%Qc) = Fin 0%Qc ->
  rectangular 1 close_ ->
  compute Factors.Mean_Reversion_1M [a] [close_] = Ok out ->
  Forall (fun x => is_finite x = false) out.
Proof.
  intros Hsqrt Hrect. simpl. unfold Factors.Mean_Reversion_1M_compute.
  destruct (py_index close_ (-1)) as [c_last|] eqn:E1; [|discriminate].
  destruct (py_index close_ (-21)) as [c_21|] eqn:E2; [|discriminate].
  destruct (py_index close_ 0) as [c_0|] eqn:E3; [|discriminate].
  simpl. intros [= <-].
  pose proof (row_length _ _ _ _ Hrect E1) as L1.
  pose proof (row_length _ _ _ _ Hrect E2) as L2.
  pose proof (row_length _ _ _ _ Hrect E3) as L3.
  destruct c_last as [|x [|]]; try discriminate.
  destruct c_21 as [|y [|]]; try discriminate.
  destruct c_0 as [|z [|]]; try discriminate.
  unfold vdivs, vsubs, vdiv, vsub. simpl.
  set (m := ndiv (nsub x y) y).
  set (r := ndiv (ndiv (nsub x z) z) (of_Z 12)).
  constructor; [|constructor].
  unfold np_nanstd. assert (Hr := np_nanmean_singleton r).
  destruct r as [| | |q].
  - rewrite Hr. now destruct m.
  - rewrite Hr. apply ndiv_of_infinite_not_finite.
    now apply nsub_infinite_not_finite.
  - rewrite Hr. apply ndiv_of_infinite_not_finite.
    now apply nsub_infinite_not_finite.
  - destruct Hr as [-> ->]. rewrite Hsqrt. apply ndiv_by_zero_not_finite.
Qed.

(** ** Downside risk on a single loss *)

(** [AlphasLibIndex.Downside_Risk] on a column of returns with a single
    negative entry: the deviation of that one loss is 0. *)
Example Downside_Risk_single_loss :
  AlphasLib.Downside_Risk_compute [24%Z]
    [[ratio 1 100]; [ratio (-3) 100]; [ratio 2 100]]
  = Ok [of_Z 0].
Proof. apply Ok_vec_eq. vm_compute. reflexivity. Qed.

(** * Further properties of the code *)

(** ** Python indexing *)

Lemma py_index_in_range {A} (l : list A) (i : Z) (d : A) :
  (- Z.of_nat (length l) <= i < Z.of_nat (length l))%Z ->
  py_index l i
  = Ok (nth (Z.to_nat (if (i <? 0)%Z then i + Z.of_nat (length l) else i)) l d).
Proof.
  intros Hi. unfold py_index.
  set (j := (if (i <? 0)%Z then (i + Z.of_nat (length l))%Z else i)).
  assert (Hj : (0 <= j < Z.of_nat (length l))%Z)
    by (unfold j; destruct (Z.ltb_spec i 0); lia).
  replace ((0 <=? j)%Z && (j <? Z.of_nat (length l))%Z) with true
    by (symmetry; apply andb_true_iff; split;
        [apply Z.leb_le | apply Z.ltb_lt]; lia).
  destruct (nth_error l (Z.to_nat j)) as [a|] eqn:E.
  - f_equal. symmetry. now apply nth_error_nth.
  - apply nth_error_None in E. lia.
Qed.

Lemma py_index_out_of_range {A} (l : list A) (i : Z) :
  (i < - Z.of_nat (length l) \/ Z.of_nat (length l) <= i)%Z ->
  py_index l i = Raise IndexError.
Proof.
  intros Hi. unfold py_index.
  set (j := (if (i <? 0)%Z then (i + Z.of_nat (length l))%Z else i)).
  assert (Hj : (j < 0 \/ Z.of_nat (length l) <= j)%Z)
    by (unfold j; destruct (Z.ltb_spec i 0); lia).
  replace ((0 <=? j)%Z && (j <? Z.of_nat (length l))%Z) with false;
    [reflexivity|].
  symmetry. apply andb_false_iff.
  destruct Hj; [left; apply Z.leb_gt | right; apply Z.ltb_ge]; lia.
Qed.

(** ** Windows too short for a factor *)

(** Pioneer's [Momentum] reads [close[-20]] and [close[0]]: on a window of
    fewer than 20 rows it raises [IndexError]; on a longer one it returns
    the row 20 from the end divided by the first row. *)
Theorem Momentum_rows (assets : list asset) (close_ : window) :
  (length close_ < 20 ->
   compute Pioneer.Momentum assets [close_] = Raise IndexError) /\
  (20 <= length close_ ->
   compute Pioneer.Momentum assets [close_]
   = Ok (vdiv (nth (length close_ - 20) close_ []) (nth 0 close_ []))).
Proof.
  simpl. unfold Pioneer.Momentum_compute. cbv delta [window vec] in *.
  split; intros Hl.
  - rewrite py_index_out_of_range by lia. reflexivity.
  - rewrite (py_index_in_range _ _ []) by lia.
    change (-20 <? 0)%Z with true. cbv iota.
    replace (Z.to_nat (-20 + Z.of_nat (length close_)))
      with (length close_ - 20) by lia.
    unfold bind at 1.
    rewrite (py_index_in_range _ _ []) by lia. reflexivity.
Qed.

(** [Mean_Reversion_1M] reads [close[-1]], [close[-21]] and [close[0]]:
    it raises [IndexError] exactly on the windows of fewer than 21 rows. *)
Theorem Mean_Reversion_1M_rows `{External} (assets : list asset)
  (close_ : window) :
  raises (compute Factors.Mean_Reversion_1M assets [close_])
  <-> length close_ < 21.
Proof.
  simpl. unfold Factors.Mean_Reversion_1M_compute.
  cbv delta [window vec] in *. split.
  - intros Hr. destruct (Nat.lt_ge_cases (length close_) 21) as [|Hl]; auto.
    exfalso. revert Hr.
    rewrite (py_index_in_range _ _ []) by lia. simpl.
    rewrite (py_index_in_range _ _ []) by lia. simpl.
    rewrite (py_index_in_range _ _ []) by lia. simpl. tauto.
  - intros Hl. destruct (py_index close_ (-1)) as [c|]; simpl; auto.
    rewrite py_index_out_of_range by lia. simpl. exact I.
Qed.

(** ** The benchmark of the beta factors *)

Lemma find_asset_absent (sid : asset) (assets : list asset) :
  ~ In sid assets -> Factors.find_asset sid assets = Raise IndexError.
Proof.
  induction assets as [|a rest IH]; simpl; intros Hn; auto.
  destruct (Z.eqb_spec a sid) as [->|Hne]; [tauto|].
  rewrite IH by tauto. reflexivity.
Qed.

Lemma find_asset_present (sid : asset) (assets : list asset) :
  In sid assets -> exists b, Factors.find_asset sid assets = Ok b.
Proof.
  intros Hin. destruct (Factors.find_asset sid assets) as [b|e] eqn:E; eauto.
  exfalso. assert (Hr : raises (Factors.find_asset sid assets))
    by now rewrite E.
  now apply find_asset_raises in Hr.
Qed.

Lemma Index_Beta_outputs `{External} (assets : list asset) (close_ : window)
  (b : nat) :
  Factors.find_asset Factors.SPY assets = Ok b ->
  compute Factors.Index_Beta assets [close_]
  = Ok (map (fun col =>
               regression_slope (column_returns col)
                 (column_returns (column b close_)))
            (transpose (length assets) close_)).
Proof.
  intros Hb. simpl. unfold Factors.Index_Beta_compute. rewrite Hb. simpl.
  unfold Factors.per_column. apply mapM_Ok. intros col Hcol.
  apply In_transpose in Hcol. destruct Hcol as (j & _ & ->).
  unfold Factors.Index_Beta_column.
  rewrite np_cov_same_length
    by now rewrite !length_column_returns, !length_column.
  reflexivity.
Qed.

Lemma Downside_Beta_outputs `{External} (assets : list asset)
  (close_ : window) (b : nat) :
  Factors.find_asset Factors.SPY assets = Ok b ->
  let benchmark_returns := column_returns (column b close_) in
  let negative_days := Factors.negative_positions benchmark_returns in
  compute Factors.Downside_Beta assets [close_]
  = Ok (map (fun col =>
               regression_slope
                 (Factors.select negative_days (column_returns col))
                 (Factors.select negative_days benchmark_returns))
            (transpose (length assets) close_)).
Proof.
  intros Hb. simpl. unfold Factors.Downside_Beta_compute. rewrite Hb. simpl.
  unfold Factors.per_column. apply mapM_Ok. intros col Hcol.
  unfold Factors.Downside_Beta_column.
  rewrite np_cov_same_length
    by (unfold Factors.select; now rewrite !length_map).
  reflexivity.
Qed.

(** [Index_Beta] and [Downside_Beta] raise exactly when the benchmark
    (sid 8554) is not among the assets: then no instrument gets a value;
    when it is, they return a value for every instrument. *)
Theorem beta_needs_benchmark `{External} (assets : list asset)
  (close_ : window) :
  (raises (compute Factors.Index_Beta assets [close_])
   <-> ~ In Factors.SPY assets) /\
  (raises (compute Factors.Downside_Beta assets [close_])
   <-> ~ In Factors.SPY assets).
Proof.
  split; split.
  - intros Hr Hin. destruct (find_asset_present _ _ Hin) as [b Hb].
    now rewrite (Index_Beta_outputs _ _ _ Hb) in Hr.
  - intros Hn. simpl. unfold Factors.Index_Beta_compute.
    now rewrite find_asset_absent.
  - intros Hr Hin. destruct (find_asset_present _ _ Hin) as [b Hb].
    now rewrite (Downside_Beta_outputs _ _ _ Hb) in Hr.
  - intros Hn. simpl. unfold Factors.Downside_Beta_compute.
    now rewrite find_asset_absent.
Qed.

(** The beta of the benchmark against itself is 1 whenever the variance
    of its returns over the window is finite and not zero. *)
Theorem benchmark_beta_is_one `{External} (assets : list asset)
  (close_ : window) (b : nat) (v : Qc) :
  Factors.find_asset Factors.SPY assets = Ok b ->
  variance (column_returns (column b close_)) = Fin v ->
  v <> 0%Qc ->
  exists out,
    compute Factors.Index_Beta assets [close_] = Ok out /\
    nth b out NaN = of_Z 1.
Proof.
  intros Hb Hv Hnz. eexists. split; [exact (Index_Beta_outputs _ _ _ Hb)|].
  destruct (find_asset_Ok _ _ _ Hb) as [Hlt _].
  rewrite (nth_map_in_range _ _ _ NaN ([] : vec))
    by now rewrite length_transpose.
  rewrite nth_transpose by assumption.
  unfold regression_slope. fold (variance (column_returns (column b close_))).
  rewrite Hv. unfold ndiv.
  destruct (Qc_is_zero v) eqn:Ez; [apply Qc_is_zero_true in Ez; tauto|].
  unfold of_Z. f_equal. change (Q2Qc (inject_Z 1)) with 1%Qc. now field.
Qed.

Lemma benchmark_beta_is_one_witness :
  exists out,
    compute Factors.Index_Beta [24; 8554]%Z [beta_closes] = Ok out /\
    nth 1 out NaN = of_Z 1.
Proof.
  apply (benchmark_beta_is_one (H := sample_external) [24; 8554]%Z
           beta_closes 1 (Q2Qc (1 # 1000))).
  - reflexivity.
  - apply num_eqb_eq. vm_compute. reflexivity.
  - discriminate.
Defined.

(** ** Stochastic oscillator *)

(** Whatever [talib.STOCH] does, [Stochastic_Oscillator.compute] returns
    one value per instrument: [nan] where the call, made on the high, low
    and close columns of the instrument, raises or hands back an empty
    slow-D series, and the last slow-D value otherwise. *)
Theorem Stochastic_Oscillator_batch `{External} (assets : list asset)
  (close_ high_ low_ : window) (j : nat) :
  j < length assets ->
  exists out,
    compute Factors.Stochastic_Oscillator assets [close_; high_; low_]
    = Ok out /\
    length out = length assets /\
    nth j out NaN =
    match talib_STOCH (column j high_) (column j low_) (column j close_) with
    | Raise _ => NaN
    | Ok (_, slowd) =>
        match py_index slowd (-1) with Ok x => x | Raise _ => NaN end
    end.
Proof.
  intros Hj. eexists. split; [reflexivity|].
  unfold transpose, zip3. rewrite !combine_map_same. split.
  - now rewrite !length_map, length_seq.
  - rewrite map_map.
    rewrite (nth_map_in_range _ _ _ NaN 0) by now rewrite length_seq.
    rewrite seq_nth by assumption. simpl.
    destruct (talib_STOCH _ _ _) as [[k d]|e]; reflexivity.
Qed.

Lemma Stochastic_Oscillator_batch_witness :
  exists out,
    compute Factors.Stochastic_Oscillator [24; 8554]%Z
      [gappy_closes; gappy_closes; gappy_closes] = Ok out /\
    length out = 2 /\
    nth 1 out NaN =
    match talib_STOCH (column 1 gappy_closes) (column 1 gappy_closes)
            (column 1 gappy_closes) with
    | Raise _ => NaN
    | Ok (_, slowd) =>
        match py_index slowd (-1) with Ok x => x | Raise _ => NaN end
    end.
Proof.
  apply (Stochastic_Oscillator_batch (H := sample_external) [24; 8554]%Z
           gappy_closes gappy_closes gappy_closes 1).
  simpl. lia.
Defined.

(** ** [MVF.rebalance]: failure and what is ordered *)

Lemma py_div_raises {A} (x : num) (l : list A) :
  MVF.py_div x (MVF.py_float_len l) = Raise ZeroDivisionError <-> l = [].
Proof.
  split.
  - intros E. destruct l as [|a l]; auto.
    rewrite py_div_len in E by discriminate. discriminate.
  - intros ->. reflexivity.
Qed.

Lemma rebalance_completed_lists (c : MVF.context) (data : list asset)
  (orders : list MVF.order) :
  MVF.rebalance c data = Ok orders ->
  MVF.long_list c <> [] /\ MVF.short_list c <> [].
Proof.
  unfold MVF.rebalance. intros E. split; intros El; rewrite El in E.
  - discriminate.
  - destruct (MVF.long_list c) as [|a l]; [discriminate|].
    rewrite py_div_len in E by discriminate. discriminate.
Qed.

Lemma for_each_place {A} (keep : A -> bool) (f : A -> MVF.order)
  (l : list A) (placed : list MVF.order) :
  MVF_effects.for_each l
    (fun x => if keep x then MVF_effects.place (f x)
              else MVF_effects.ret tt) placed
  = (placed ++ map f (filter keep l), Ok tt).
Proof.
  revert placed. induction l as [|x l IH]; intros placed; simpl.
  - unfold MVF_effects.ret. now rewrite app_nil_r.
  - unfold MVF_effects.and_then.
    destruct (keep x); simpl.
    + unfold MVF_effects.place at 1. rewrite IH. now rewrite <- app_assoc.
    + unfold MVF_effects.ret at 1. apply IH.
Qed.

Lemma rebalance_effects_completed (c : MVF.context) (data : list asset) :
  MVF.long_list c <> [] -> MVF.short_list c <> [] ->
  exists orders,
    MVF.rebalance c data = Ok orders /\
    MVF_effects.rebalance c data [] = (orders, Ok tt).
Proof.
  intros Hl Hs. eexists. split; [now apply rebalance_orders|].
  unfold MVF_effects.rebalance, MVF_effects.and_then, MVF_effects.lift.
  rewrite (py_div_len _ _ Hl), (py_div_len _ _ Hs).
  rewrite !for_each_place. simpl. now rewrite <- app_assoc.
Qed.

(** [rebalance] computes both weights before its first order: when the
    long list or the short list is empty it raises [ZeroDivisionError]
    with no order placed; it raises in no other case, and otherwise it
    places the orders that [MVF.rebalance] returns. *)
Theorem rebalance_raises_before_ordering (c : MVF.context)
  (data : list asset) :
  (MVF.long_list c = [] \/ MVF.short_list c = [] ->
   MVF_effects.rebalance c data [] = ([], Raise ZeroDivisionError)) /\
  (forall placed e,
     MVF_effects.rebalance c data [] = (placed, Raise e) ->
     placed = [] /\ e = ZeroDivisionError /\
     (MVF.long_list c = [] \/ MVF.short_list c = [])) /\
  (forall orders,
     MVF.rebalance c data = Ok orders <->
     MVF_effects.rebalance c data [] = (orders, Ok tt)).
Proof.
  assert (Hraise : MVF.long_list c = [] \/ MVF.short_list c = [] ->
                   MVF_effects.rebalance c data []
                   = ([], Raise ZeroDivisionError)).
  { unfold MVF_effects.rebalance, MVF_effects.and_then, MVF_effects.lift.
    intros [E|E]; rewrite E.
    - reflexivity.
    - destruct (MVF.long_list c) as [|a l] eqn:El; [reflexivity|].
      rewrite py_div_len by discriminate. reflexivity. }
  assert (Hcases : (MVF.long_list c = [] \/ MVF.short_list c = []) \/
                   (MVF.long_list c <> [] /\ MVF.short_list c <> [])).
  { destruct (MVF.long_list c); [left; now left|].
    destruct (MVF.short_list c); [left; now right|].
    right. split; discriminate. }
  split; [exact Hraise|]. split.
  - intros placed e E. destruct Hcases as [Hempty|[Hl Hs]].
    + rewrite (Hraise Hempty) in E. injection E as <- <-. auto.
    + destruct (rebalance_effects_completed c data Hl Hs) as (o & _ & Eo).
      rewrite Eo in E. discriminate.
  - intros orders. destruct Hcases as [Hempty|[Hl Hs]].
    + rewrite (Hraise Hempty). split; [|discriminate].
      intros E. apply rebalance_completed_lists in E. tauto.
    + destruct (rebalance_effects_completed c data Hl Hs) as (o & E1 & E2).
      rewrite E1, E2. split; intros [= ->]; reflexivity.
Qed.

Lemma rebalance_raises_before_ordering_witness :
  MVF.long_list no_short_context <> [] /\
  Forall (fun s => In s (instruments 1 100)) (MVF.long_list no_short_context) /\
  MVF_effects.rebalance no_short_context (instruments 1 100) []
  = ([], Raise ZeroDivisionError).
Proof.
  split; [discriminate|]. split.
  - apply Forall_forall. intros s Hs. vm_compute in Hs. vm_compute. tauto.
  - apply (proj1 (rebalance_raises_before_ordering no_short_context
                    (instruments 1 100))).
    right. reflexivity.
Defined.

(** In a completed [rebalance], a percent order is only ever placed for
    an instrument that [data] holds and that is in one of the two lists,
    with the weight of that list: [long_weight] or [-short_weight]. *)
Theorem rebalance_percent_orders (c : MVF.context) (data : list asset)
  (orders : list MVF.order) (s : asset) (w : num) :
  MVF.rebalance c data = Ok orders ->
  In (MVF.order_target_percent s w) orders ->
  In s data /\
  ((In s (MVF.long_list c) /\
    w = ndiv (MVF.long_leverage c) (of_nat (length (MVF.long_list c)))) \/
   (In s (MVF.short_list c) /\
    w = nneg (ndiv (MVF.short_leverage c)
                   (of_nat (length (MVF.short_list c)))))).
Proof.
  intros E Hin.
  destruct (rebalance_completed_lists c data orders E) as [Hl Hs].
  rewrite (rebalance_orders c data Hl Hs) in E. injection E as <-.
  apply in_app_or in Hin. destruct Hin as [Hin|Hin].
  - apply in_map_iff in Hin. destruct Hin as (x & [= -> <-] & Hx).
    apply filter_In in Hx. destruct Hx as [Hx Hd].
    apply mem_In in Hd. split; auto.
  - apply in_app_or in Hin. destruct Hin as [Hin|Hin];
      apply in_map_iff in Hin; destruct Hin as (x & Ex & Hx);
      [|discriminate].
    injection Ex as -> <-. apply filter_In in Hx. destruct Hx as [Hx Hd].
    apply mem_In in Hd. split; auto.
Qed.

Lemma rebalance_percent_orders_witness :
  let w := ndiv (MVF.long_leverage sample_context)
             (of_nat (length (MVF.long_list sample_context))) in
  In 7%Z (instruments 1 100) /\
  ((In 7%Z (MVF.long_list sample_context) /\
    w = ndiv (MVF.long_leverage sample_context)
          (of_nat (length (MVF.long_list sample_context)))) \/
   (In 7%Z (MVF.short_list sample_context) /\
    w = nneg (ndiv (MVF.short_leverage sample_context)
                (of_nat (length (MVF.short_list sample_context)))))).
Proof.
  intros w.
  assert (Hl : MVF.long_list sample_context <> []) by discriminate.
  assert (Hs : MVF.short_list sample_context <> []) by discriminate.
  apply (rebalance_percent_orders sample_context (instruments 1 100) _
           7%Z w (rebalance_orders sample_context (instruments 1 100) Hl Hs)).
  apply in_or_app. left.
  apply (placed_in_loop (fun s => MVF.order_target_percent s w));
    simpl; tauto.
Defined.

(** In a completed [rebalance], the positions closed with
    [order_target(stock, 0)] are exactly the held instruments that are in
    neither list, whether [data] holds them or not. *)
Theorem rebalance_closes_positions (c : MVF.context) (data : list asset)
  (orders : list MVF.order) (s : asset) (amount : num) :
  MVF.rebalance c data = Ok orders ->
  (In (MVF.order_target s amount) orders
   <-> In s (MVF.positions c) /\ ~ In s (MVF.long_list c) /\
       ~ In s (MVF.short_list c) /\ amount = of_Z 0).
Proof.
  intros E.
  destruct (rebalance_completed_lists c data orders E) as [Hl Hs].
  rewrite (rebalance_orders c data Hl Hs) in E. injection E as <-.
  assert (Hmem : forall x, In x (MVF.positions c) /\
     negb (MVF.mem x (MVF.long_list c)) && negb (MVF.mem x (MVF.short_list c))
     = true
     <-> In x (MVF.positions c) /\ ~ In x (MVF.long_list c) /\
         ~ In x (MVF.short_list c)).
  { intros x. rewrite andb_true_iff, !negb_true_iff.
    rewrite <- !mem_In, <- !not_true_iff_false. tauto. }
  split.
  - intros Hin. repeat (apply in_app_or in Hin; destruct Hin as [Hin|Hin]);
      apply in_map_iff in Hin; destruct Hin as (x & Ex & Hx);
      try discriminate.
    injection Ex as -> <-. apply filter_In, Hmem in Hx. tauto.
  - intros (Hp & Hnl & Hns & ->). apply in_or_app. right.
    apply in_or_app. right.
    apply (in_map (fun x => MVF.order_target x (of_Z 0))).
    apply filter_In, Hmem. tauto.
Qed.

Lemma rebalance_closes_positions_witness :
  exists orders,
    MVF.rebalance holding_context [] = Ok orders /\
    (In (MVF.order_target 200%Z (of_Z 0)) orders
     <-> In 200%Z (MVF.positions holding_context) /\
         ~ In 200%Z (MVF.long_list holding_context) /\
         ~ In 200%Z (MVF.short_list holding_context) /\ of_Z 0 = of_Z 0).
Proof.
  assert (Hl : MVF.long_list holding_context <> []) by discriminate.
  assert (Hs : MVF.short_list holding_context <> []) by discriminate.
  eexists. split; [exact (rebalance_orders holding_context [] Hl Hs)|].
  apply (rebalance_closes_positions holding_context [] _ 200%Z (of_Z 0)
           (rebalance_orders holding_context [] Hl Hs)).
Defined.

(** ** The lists chosen by [before_trading_start] (MVF) *)

Lemma length_slice_last {A} (k : nat) (l : list A) :
  length (slice_last k l) = Nat.min k (length l).
Proof. unfold slice_last. rewrite length_skipn. lia. Qed.

Lemma slice_last_all {A} (k : nat) (l : list A) :
  length l <= k -> slice_last k l = l.
Proof.
  intros Hl. unfold slice_last.
  now replace (length l - k) with 0 by lia.
Qed.

Lemma In_skipn_le {A} (k k' : nat) (l : list A) (x : A) :
  k' <= k -> In x (skipn k l) -> In x (skipn k' l).
Proof.
  intros Hk Hin. replace k with ((k - k') + k') in Hin by lia.
  rewrite <- skipn_skipn in Hin.
  rewrite <- (firstn_skipn (k - k') (skipn k' l)).
  apply in_or_app. now right.
Qed.

Lemma In_slice_last {A} (k : nat) (l : list A) (x : A) :
  In x (slice_last k l) -> In x l.
Proof.
  unfold slice_last. intros Hin.
  rewrite <- (firstn_skipn (length l - k) l). apply in_or_app. now right.
Qed.

Lemma In_firstn {A} (k : nat) (l : list A) (x : A) :
  In x (firstn k l) -> In x l.
Proof.
  intros Hin. rewrite <- (firstn_skipn k l). apply in_or_app. now left.
Qed.

Lemma StronglySorted_app_inv {A} (R : A -> A -> Prop) (a b : list A) :
  StronglySorted R (a ++ b) ->
  forall x y, In x a -> In y b -> R x y.
Proof.
  induction a as [|h a IH]; simpl; intros Hs x y Hx Hy; [tauto|].
  apply StronglySorted_inv in Hs. destruct Hs as [Hs Hh].
  destruct Hx as [<-|Hx]; [|now apply IH].
  rewrite Forall_forall in Hh. apply Hh. apply in_or_app. now right.
Qed.

Lemma NoDup_app_disjoint {A} (a b : list A) (x : A) :
  NoDup (a ++ b) -> In x a -> In x b -> False.
Proof.
  induction a as [|h a IH]; simpl; intros Hnd Ha Hb; [tauto|].
  inversion Hnd as [|? ? Hh Hrest]; subst.
  destruct Ha as [->|Ha]; [|now apply IH].
  apply Hh. apply in_or_app. now right.
Qed.

Lemma NoDup_map_filter {A B} (f : A -> B) (q : A -> bool) (l : list A) :
  NoDup (map f l) -> NoDup (map f (filter q l)).
Proof.
  induction l as [|x l IH]; simpl; intros Hnd; [constructor|].
  inversion Hnd as [|? ? Hx Hl]; subst.
  destruct (q x); simpl; auto.
  constructor; auto. intros Hin. apply Hx.
  apply in_map_iff in Hin. destruct Hin as (y & E & Hy).
  apply filter_In in Hy. rewrite <- E. apply in_map. tauto.
Qed.

Section Selection.
Import MVF_selection.
Variable sort : list pipeline_row -> list pipeline_row.
Variable output : list pipeline_row.
Hypothesis sort_permutes : Permutation (sort (kept output)) (kept output).

Lemma length_sorted : length (sort (kept output)) = length (kept output).
Proof. now apply Permutation_length. Qed.

(** Each list holds 50 rows, or all the rows with [factor_1 > 0] when
    there are fewer; a row of either list is a row of the output with
    [factor_1 > 0]. *)
Theorem selection_sizes :
  let lists := before_trading_start sort output in
  length (fst lists) = Nat.min 50 (length (kept output)) /\
  length (snd lists) = Nat.min 50 (length (kept output)) /\
  forall r, In r (fst lists) \/ In r (snd lists) ->
            In r output /\ ngt (factor_1 r) (of_Z 0) = true.
Proof.
  cbv zeta. unfold before_trading_start. cbn [fst snd].
  fold (kept output). split; [|split].
  - now rewrite length_firstn, length_sorted.
  - now rewrite length_slice_last, length_sorted.
  - intros r Hr.
    assert (Hin : In r (sort (kept output)))
      by (destruct Hr; [eapply In_firstn | eapply In_slice_last]; eauto).
    apply (Permutation_in _ sort_permutes) in Hin.
    unfold kept in Hin. now apply filter_In in Hin.
Qed.

(** With at most 50 rows of [factor_1 > 0], the two lists are one and the
    same, and they hold every such row whatever its [factor_2]: neither
    [fillna(0)] nor the filter on [factor_2] has an effect. *)
Theorem selection_small_universe :
  length (kept output) <= 50 ->
  let lists := before_trading_start sort output in
  fst lists = snd lists /\
  forall r, In r (fst lists)
            <-> In r output /\ ngt (factor_1 r) (of_Z 0) = true.
Proof.
  intros Hk. cbv zeta. unfold before_trading_start. cbn [fst snd].
  fold (kept output).
  rewrite firstn_all2 by now rewrite length_sorted.
  rewrite slice_last_all by now rewrite length_sorted.
  split; auto. intros r.
  transitivity (In r (kept output)).
  - split; apply Permutation_in; auto. now apply Permutation_sym.
  - unfold kept. apply filter_In.
Qed.

(** With at least 100 rows of [factor_1 > 0] and distinct securities, no
    security is in both lists. *)
Theorem selection_disjoint :
  NoDup (map security output) ->
  100 <= length (kept output) ->
  let lists := before_trading_start sort output in
  forall s, In s (map security (fst lists)) ->
            ~ In s (map security (snd lists)).
Proof.
  intros Hnd Hk. cbv zeta. unfold before_trading_start. cbn [fst snd].
  fold (kept output). intros s Hs Hl.
  assert (Hnk : NoDup (map security (sort (kept output)))).
  { apply (Permutation_NoDup
             (Permutation_map security (Permutation_sym sort_permutes))).
    unfold kept. now apply NoDup_map_filter. }
  rewrite <- (firstn_skipn 50 (sort (kept output))), map_app in Hnk.
  apply in_map_iff in Hl. destruct Hl as (r & <- & Hr).
  unfold slice_last in Hr.
  apply (In_skipn_le _ 50) in Hr; [|rewrite length_sorted; lia].
  apply (NoDup_app_disjoint _ _ _ Hnk Hs). now apply in_map.
Qed.

(** When the sorted frame is in descending order of [combo_rank], no row
    of the short list ranks below a row with [factor_1 > 0] that was left
    out of it. *)
Theorem selection_takes_top :
  StronglySorted not_below (sort (kept output)) ->
  let lists := before_trading_start sort output in
  forall r r', In r (fst lists) -> In r' (kept output) ->
               ~ In r' (fst lists) ->
               nlt (combo_rank r) (combo_rank r') = false.
Proof.
  intros Hs. cbv zeta. unfold before_trading_start. cbn [fst snd].
  fold (kept output). intros r r' Hr Hk Hn.
  rewrite <- (firstn_skipn 50 (sort (kept output))) in Hs.
  apply (StronglySorted_app_inv _ _ _ Hs r r' Hr).
  apply (Permutation_in _ (Permutation_sym sort_permutes)) in Hk.
  rewrite <- (firstn_skipn 50 (sort (kept output))) in Hk.
  apply in_app_or in Hk. tauto.
Qed.

End Selection.

Lemma insert_row_Permutation (r : MVF_selection.pipeline_row)
  (l : list MVF_selection.pipeline_row) :
  Permutation (MVF_selection.insert_row r l) (r :: l).
Proof.
  induction l as [|x l IH]; simpl; auto.
  destruct (_ || _); auto.
  apply (perm_trans (perm_skip x IH)). apply perm_swap.
Qed.

Lemma insertion_sort_Permutation (l : list MVF_selection.pipeline_row) :
  Permutation (MVF_selection.insertion_sort l) l.
Proof.
  induction l as [|x l IH]; simpl; auto.
  apply (perm_trans (insert_row_Permutation _ _)). now constructor.
Qed.

Lemma selection_sizes_witness :
  let lists := MVF_selection.before_trading_start
                 MVF_selection.insertion_sort MVF_selection.sample_output in
  length (fst lists)
  = Nat.min 50 (length (MVF_selection.kept MVF_selection.sample_output)) /\
  length (snd lists)
  = Nat.min 50 (length (MVF_selection.kept MVF_selection.sample_output)) /\
  forall r, In r (fst lists) \/ In r (snd lists) ->
            In r MVF_selection.sample_output /\
            ngt (MVF_selection.factor_1 r) (of_Z 0) = true.
Proof.
  apply (selection_sizes MVF_selection.insertion_sort
           MVF_selection.sample_output
           (insertion_sort_Permutation _)).
Defined.

Lemma selection_small_universe_witness :
  let lists := MVF_selection.before_trading_start
                 MVF_selection.insertion_sort MVF_selection.sample_output in
  fst lists = snd lists /\
  forall r, In r (fst lists)
            <-> In r MVF_selection.sample_output /\
                ngt (MVF_selection.factor_1 r) (of_Z 0) = true.
Proof.
  apply (selection_small_universe MVF_selection.insertion_sort
           MVF_selection.sample_output
           (insertion_sort_Permutation _)).
  vm_compute. lia.
Defined.

(** On [sample_output] the three rows with [factor_1 > 0] are kept, the
    one without [factor_2] first (rank 4), and both lists are equal. *)
Example selection_sample :
  map MVF_selection.security
    (fst (MVF_selection.before_trading_start MVF_selection.insertion_sort
            MVF_selection.sample_output))
  = [5061; 8554; 24]%Z /\
  map MVF_selection.security
    (snd (MVF_selection.before_trading_start MVF_selection.insertion_sort
            MVF_selection.sample_output))
  = [5061; 8554; 24]%Z.
Proof. split; vm_compute; reflexivity. Qed.

Lemma wide_output_distinct (n : nat) :
  NoDup (map MVF_selection.security (wide_output n)).
Proof.
  unfold wide_output. rewrite map_map. simpl MVF_selection.security.
  apply Finite.Injective_map_NoDup; [|apply seq_NoDup].
  intros x y. apply Nat2Z.inj.
Qed.

Lemma selection_disjoint_witness :
  let lists := MVF_selection.before_trading_start
                 MVF_selection.insertion_sort (wide_output 120) in
  In 120%Z (map MVF_selection.security (fst lists)) /\
  ~ In 120%Z (map MVF_selection.security (snd lists)).
Proof.
  cbv zeta.
  assert (Hin : In 120%Z
                  (map MVF_selection.security
                     (fst (MVF_selection.before_trading_start
                             MVF_selection.insertion_sort (wide_output 120)))))
    by (vm_compute; left; reflexivity).
  split; [exact Hin|].
  assert (Hk : 100 <= length (MVF_selection.kept (wide_output 120)))
    by (vm_compute; lia).
  exact (selection_disjoint MVF_selection.insertion_sort (wide_output 120)
           (insertion_sort_Permutation _) (wide_output_distinct 120) Hk
           120%Z Hin).
Defined.

Lemma selection_takes_top_witness :
  nlt (MVF_selection.combo_rank
         (MVF_selection.sample_row 60%Z (of_Z 1) NaN (of_nat 60)))
      (MVF_selection.combo_rank
         (MVF_selection.sample_row 1%Z (of_Z 1) NaN (of_nat 1)))
  = false.
Proof.
  apply (selection_takes_top MVF_selection.insertion_sort (wide_output 60)
           (insertion_sort_Permutation _)).
  - vm_compute. repeat constructor.
  - vm_compute. left. reflexivity.
  - vm_compute. left. reflexivity.
  - intros Hin. apply (in_map MVF_selection.security) in Hin.
    vm_compute in Hin.
    repeat (destruct Hin as [Hin|Hin]; [discriminate Hin|]).
    exact Hin.
Defined.

(** ** [before_trading_start] followed by [rebalance] (MVF) *)

Lemma nneg_ndiv_nneg (a : Qc) (n : nat) :
  n <> 0 ->
  nneg (ndiv (nneg (Fin a)) (of_nat n)) = ndiv (Fin a) (of_nat n).
Proof.
  intros Hn. assert (Hp := of_nat_pos n Hn).
  unfold of_nat, of_Z, ndiv, nneg.
  set (k := Q2Qc (inject_Z (Z.of_nat n))) in *.
  assert (Nk : k <> 0%Qc) by (intros E; rewrite E in Hp; discriminate).
  destruct (Qc_is_zero k) eqn:Ez; [apply Qc_is_zero_true in Ez; tauto|].
  f_equal. now field.
Qed.

(** When between 1 and 50 rows have [factor_1 > 0], the long and the
    short list are the same instruments, and [rebalance] (leverages 0.5
    and -0.5) orders each of them that [data] holds twice, both times
    with the same positive weight 0.5/n. *)
Theorem small_universe_orders_twice
  (sort : list MVF_selection.pipeline_row -> list MVF_selection.pipeline_row)
  (output : list MVF_selection.pipeline_row) (c : MVF.context)
  (data : list asset) :
  Permutation (sort (MVF_selection.kept output)) (MVF_selection.kept output) ->
  1 <= length (MVF_selection.kept output) <= 50 ->
  let chosen :=
    map MVF_selection.security (sort (MVF_selection.kept output)) in
  let weight :=
    ndiv (ratio 1 2) (of_nat (length (MVF_selection.kept output))) in
  let placed :=
    map (fun s => MVF.order_target_percent s weight)
        (filter (fun s => MVF.mem s data) chosen) in
  exists closed,
    MVF.rebalance (MVF_selection.select sort output (MVF.initialize c)) data
    = Ok (placed ++ placed ++ closed).
Proof.
  intros Hperm [Hlo Hhi]. cbv zeta.
  assert (Hlen := Permutation_length Hperm).
  assert (Eq : fst (MVF_selection.before_trading_start sort output)
               = snd (MVF_selection.before_trading_start sort output)).
  { unfold MVF_selection.before_trading_start. cbn [fst snd].
    fold (MVF_selection.kept output).
    rewrite firstn_all2, slice_last_all by lia. reflexivity. }
  assert (Efst : fst (MVF_selection.before_trading_start sort output)
                 = sort (MVF_selection.kept output)).
  { unfold MVF_selection.before_trading_start. cbn [fst].
    fold (MVF_selection.kept output). apply firstn_all2. lia. }
  eexists. rewrite rebalance_orders.
  - unfold MVF_selection.select. cbn [MVF.long_list MVF.short_list
      MVF.long_leverage MVF.short_leverage MVF.positions MVF.initialize].
    rewrite <- Eq, Efst. unfold MVF.py_float_len.
    rewrite !length_map, Hlen.
    unfold ratio at 2.
    rewrite (nneg_ndiv_nneg _ (length (MVF_selection.kept output)))
      by lia.
    reflexivity.
  - unfold MVF_selection.select. cbn [MVF.long_list]. rewrite <- Eq, Efst.
    intros E. apply (f_equal (@length _)) in E.
    rewrite length_map in E. simpl in E. lia.
  - unfold MVF_selection.select. cbn [MVF.short_list]. rewrite Efst.
    intros E. apply (f_equal (@length _)) in E.
    rewrite length_map in E. simpl in E. lia.
Qed.

Lemma small_universe_orders_twice_witness :
  let chosen :=
    map MVF_selection.security
      (MVF_selection.insertion_sort
         (MVF_selection.kept MVF_selection.sample_output)) in
  let weight :=
    ndiv (ratio 1 2)
      (of_nat (length (MVF_selection.kept MVF_selection.sample_output))) in
  let placed :=
    map (fun s => MVF.order_target_percent s weight)
        (filter (fun s => MVF.mem s [24; 5061]%Z) chosen) in
  exists closed,
    MVF.rebalance
      (MVF_selection.select MVF_selection.insertion_sort
         MVF_selection.sample_output (MVF.initialize sample_context))
      [24; 5061]%Z
    = Ok (placed ++ placed ++ closed).
Proof.
  apply (small_universe_orders_twice MVF_selection.insertion_sort
           MVF_selection.sample_output sample_context [24; 5061]%Z
           (insertion_sort_Permutation _)).
  vm_compute. split; lia.
Defined.

(** ** Missing values *)

Lemma fold_left_nadd_NaN (v : vec) : fold_left nadd v NaN = NaN.
Proof. induction v as [|x v IH]; simpl; auto. Qed.

Lemma nadd_NaN_r (x : num) : nadd x NaN = NaN.
Proof. now destruct x. Qed.

Lemma np_sum_NaN (v : vec) : In NaN v -> np_sum v = NaN.
Proof.
  unfold np_sum. generalize (Fin 0%Qc).
  induction v as [|x v IH]; simpl; intros a Hin; [tauto|].
  destruct Hin as [->|Hin]; auto.
  rewrite nadd_NaN_r. apply fold_left_nadd_NaN.
Qed.

Lemma nth_vmul_NaN (a b : vec) (j : nat) :
  nth j a NaN = NaN \/ nth j b NaN = NaN -> nth j (vmul a b) NaN = NaN.
Proof.
  unfold vmul. revert b j.
  induction a as [|x a IH]; intros [|y b] [|j]; simpl; auto.
  intros [->| ->]; auto. now destruct x.
Qed.

(** [AvgDailyDollarVolumeTraded] averages with [np.mean], which does not
    skip [nan]: on two windows of the same shape, one day on which an
    instrument has no close or no volume makes its average [nan]. *)
Theorem dollar_volume_nan_propagates (assets : list asset)
  (close_price volume_ : window) (i j : nat) :
  length close_price = length volume_ ->
  rectangular (length assets) close_price ->
  rectangular (length assets) volume_ ->
  j < length assets -> i < length close_price ->
  nth j (nth i close_price []) NaN = NaN
  \/ nth j (nth i volume_ []) NaN = NaN ->
  exists out,
    compute Pioneer.AvgDailyDollarVolumeTraded assets [close_price; volume_]
    = Ok out /\
    length out = length assets /\
    nth j out (of_Z 0) = NaN.
Proof.
  intros Hrows _ _ Hj Hc Hnan.
  assert (Hv : i < length volume_) by now rewrite <- Hrows.
  simpl. unfold Pioneer.AvgDailyDollarVolumeTraded_compute.
  rewrite np_multiply_same_rows by assumption.
  eexists. split; [reflexivity|]. split.
  - now rewrite length_map, length_transpose.
  - rewrite (nth_map_in_range _ _ _ _ ([] : vec))
      by now rewrite length_transpose.
    rewrite nth_transpose by assumption.
    unfold np_mean. rewrite np_sum_NaN; [reflexivity|].
    unfold column. apply in_map_iff.
    exists (nth i (map2 vmul close_price volume_) []). split.
    + cbv delta [vec window] in *.
      rewrite (nth_map2 _ _ _ _ [] []) by assumption.
      now apply nth_vmul_NaN.
    + apply nth_In. rewrite length_map2. lia.
Qed.

Lemma dollar_volume_nan_propagates_witness :
  exists out,
    compute Pioneer.AvgDailyDollarVolumeTraded [24; 5061]%Z
      [[[of_Z 10; of_Z 20]; [of_Z 11; NaN]];
       [[of_Z 100; of_Z 100]; [of_Z 100; of_Z 100]]]
    = Ok out /\
    length out = 2 /\
    nth 1 out (of_Z 0) = NaN.
Proof.
  apply (dollar_volume_nan_propagates [24; 5061]%Z
           [[of_Z 10; of_Z 20]; [of_Z 11; NaN]]
           [[of_Z 100; of_Z 100]; [of_Z 100; of_Z 100]] 1 1);
    try reflexivity; try (repeat constructor); simpl; auto.
Defined.

Lemma rank_is_finite (a b : nat) :
  exists q, nadd (of_nat a) (ndiv (of_nat b) (of_Z 2)) = Fin q.
Proof.
  unfold of_nat, of_Z, ndiv, nadd.
  destruct (Qc_is_zero (Q2Qc (inject_Z 2))) eqn:E.
  - apply Qc_is_zero_true in E. discriminate.
  - eauto.
Qed.

Lemma pd_rank_entry (v : vec) (j : nat) :
  j < length v ->
  (nth j v NaN = NaN /\ nth j (Pioneer.pd_rank v) NaN = NaN) \/
  (nth j v NaN <> NaN /\ exists q, nth j (Pioneer.pd_rank v) NaN = Fin q).
Proof.
  intros Hj. unfold Pioneer.pd_rank.
  rewrite (nth_map_in_range _ _ _ _ NaN) by assumption.
  destruct (nth j v NaN) eqn:E; simpl; auto; right;
    (split; [discriminate | apply rank_is_finite]).
Qed.

Lemma nansum_finite (v : vec) (a : Qc) :
  Forall (fun x => x = NaN \/ exists q, x = Fin q) v ->
  exists t, fold_left nadd (replace_nan v) (Fin a) = Fin t /\
            (count_valid v = 0 -> t = a).
Proof.
  intros Hv. revert a. unfold count_valid.
  induction Hv as [|x v [->|[q ->]] _ IH]; intros a; simpl.
  - eauto.
  - destruct (IH (a + 0)%Qc) as (t & E & Ht). exists t. split; auto.
    intros Hc. rewrite (Ht Hc). ring.
  - destruct (IH (a + q)%Qc) as (t & E & Ht). exists t. split; auto.
    discriminate.
Qed.

Lemma nanmean_nan_or_finite (v : vec) :
  Forall (fun x => x = NaN \/ exists q, x = Fin q) v ->
  (count_valid v = 0 /\ np_nanmean v = NaN) \/
  (count_valid v <> 0 /\ exists q, np_nanmean v = Fin q).
Proof.
  intros Hv. unfold np_nanmean, np_sum.
  destruct (nansum_finite v 0%Qc Hv) as (t & -> & Ht).
  destruct (count_valid v) as [|k] eqn:Ec.
  - left. split; auto. rewrite (Ht eq_refl). reflexivity.
  - right. split; [discriminate|].
    assert (Hp := of_nat_pos (S k) (Nat.neq_succ_0 k)).
    unfold of_nat, of_Z, ndiv.
    destruct (Qc_is_zero (Q2Qc (inject_Z (Z.of_nat (S k))))) eqn:Ez; eauto.
    apply Qc_is_zero_true in Ez. rewrite Ez in Hp. discriminate.
Qed.

(** Pioneer's [Value] is the mean of the ranks an instrument has in the
    three yields, skipping the missing ones: it is [nan] exactly for the
    instruments that miss all three yields, and finite for the others. *)
Theorem Value_nan_iff (assets : list asset) (book_value sales fcf : window)
  (b s f : vec) (j : nat) :
  py_index book_value (-1) = Ok b -> py_index sales (-1) = Ok s ->
  py_index fcf (-1) = Ok f ->
  length b = length s -> length s = length f -> j < length b ->
  exists out,
    compute Pioneer.Value assets [book_value; sales; fcf] = Ok out /\
    (nth j out (of_Z 0) = NaN
     <-> nth j b NaN = NaN /\ nth j s NaN = NaN /\ nth j f NaN = NaN) /\
    (nth j out (of_Z 0) = NaN \/ is_finite (nth j out (of_Z 0)) = true).
Proof.
  intros Eb Es Ef Lbs Lsf Hj. simpl. unfold Pioneer.Value_compute.
  rewrite Eb, Es, Ef. simpl. eexists. split; [reflexivity|].
  rewrite (nth_map_in_range _ _ _ _ (NaN, NaN, NaN))
    by (unfold zip3; rewrite !length_combine, !length_pd_rank; lia).
  unfold zip3.
  rewrite !combine_nth
    by (rewrite ?length_combine, !length_pd_rank; lia).
  set (rb := nth j (Pioneer.pd_rank b) NaN).
  set (rs := nth j (Pioneer.pd_rank s) NaN).
  set (rf := nth j (Pioneer.pd_rank f) NaN).
  assert (Hv : Forall (fun x => x = NaN \/ exists q, x = Fin q) [rb; rs; rf]).
  { apply Forall_cons; [|apply Forall_cons; [|apply Forall_cons; [|apply Forall_nil]]];
      unfold rb, rs, rf.
    - destruct (pd_rank_entry b j) as [[_ ->]|[_ [q ->]]]; eauto.
    - destruct (pd_rank_entry s j) as [[_ ->]|[_ [q ->]]]; eauto; lia.
    - destruct (pd_rank_entry f j) as [[_ ->]|[_ [q ->]]]; eauto; lia. }
  assert (Hc : count_valid [rb; rs; rf] = 0
               <-> nth j b NaN = NaN /\ nth j s NaN = NaN
                   /\ nth j f NaN = NaN).
  { unfold count_valid, rb, rs, rf.
    destruct (pd_rank_entry b j) as [[Xb ->]|[Xb [qb ->]]]; [lia| |];
    destruct (pd_rank_entry s j) as [[Xs ->]|[Xs [qs ->]]]; try lia;
    destruct (pd_rank_entry f j) as [[Xf ->]|[Xf [qf ->]]]; try lia;
      cbn [filter valid isnan negb length];
      (split; [try discriminate; tauto | tauto]). }
  destruct (nanmean_nan_or_finite _ Hv) as [[H0 ->]|[H0 [q ->]]].
  - split; [|auto]. split; [intros _; now apply Hc | reflexivity].
  - split; [|auto]. split; [discriminate|]. intros Hall.
    now apply Hc in Hall.
Qed.

Lemma Value_nan_iff_witness :
  exists out,
    compute Pioneer.Value (instruments 1 3)
      [book_value_yields; sales_yields; fcf_yields] = Ok out /\
    (nth 1 out (of_Z 0) = NaN
     <-> nth 1 (nth 0 book_value_yields []) NaN = NaN
         /\ nth 1 (nth 0 sales_yields []) NaN = NaN
         /\ nth 1 (nth 0 fcf_yields []) NaN = NaN) /\
    (nth 1 out (of_Z 0) = NaN \/ is_finite (nth 1 out (of_Z 0)) = true).
Proof.
  apply (Value_nan_iff (instruments 1 3) book_value_yields sales_yields
           fcf_yields); try reflexivity.
  simpl. lia.
Defined.

(** ** A [nan] on the first day of the window *)

Lemma py_min_first_NaN (v : vec) : py_min (NaN :: v) = Ok NaN.
Proof.
  unfold py_min. f_equal. induction v as [|y v IH]; simpl; auto.
  now destruct y.
Qed.

Lemma py_max_first_NaN (v : vec) : py_max (NaN :: v) = Ok NaN.
Proof.
  unfold py_max. f_equal. induction v as [|y v IH]; simpl; auto.
Qed.

Lemma py_index_last_nonempty {A} (x : A) (l : list A) :
  exists a, py_index (x :: l) (-1) = Ok a.
Proof.
  eexists. apply (py_index_in_range _ _ x). simpl length. lia.
Qed.

Lemma per_column_total (f : vec -> result num) (assets : list asset)
  (row : vec) (rest : window) :
  (forall x col, exists y, f (x :: col) = Ok y) ->
  exists out,
    Factors.per_column f assets (row :: rest) = Ok out /\
    length out = length assets /\
    forall j, j < length assets ->
              f (column j (row :: rest)) = Ok (nth j out (of_Z 0)).
Proof.
  intros Hf. unfold Factors.per_column.
  destruct (mapM f (transpose (length assets) (row :: rest)))
    as [out|e] eqn:E.
  - exists out. split; auto.
    destruct (mapM_Ok_inv _ _ _ [] (of_Z 0) E) as [Hlen Hnth].
    rewrite length_transpose in Hlen, Hnth. split; auto.
    intros j Hj. rewrite <- (Hnth j Hj). now rewrite nth_transpose.
  - exfalso.
    assert (Hr : raises (mapM f (transpose (length assets) (row :: rest))))
      by now rewrite E.
    apply mapM_raises in Hr. destruct Hr as (col & Hin & Hr).
    apply In_transpose in Hin. destruct Hin as (k & _ & ->).
    change (column k (row :: rest))
      with (nth k row NaN :: column k rest) in Hr.
    destruct (Hf (nth k row NaN) (column k rest)) as [y Ey].
    now rewrite Ey in Hr.
Qed.

Lemma Percent_Above_Low_column_first_NaN (col : vec) :
  Factors.Percent_Above_Low_column (NaN :: col) = Ok NaN.
Proof.
  unfold Factors.Percent_Above_Low_column.
  destruct (py_index_last_nonempty NaN col) as [a ->].
  rewrite py_min_first_NaN. unfold bind. f_equal.
  replace (nsub a NaN) with NaN by (now destruct a). reflexivity.
Qed.

Lemma Percent_Below_High_column_first_NaN (col : vec) :
  Factors.Percent_Below_High_column (NaN :: col) = Ok NaN.
Proof.
  unfold Factors.Percent_Below_High_column.
  destruct (py_index_last_nonempty NaN col) as [a ->].
  rewrite py_max_first_NaN. unfold bind. f_equal.
  replace (nsub a NaN) with NaN by (now destruct a). reflexivity.
Qed.

(** Python's [min] and [max] keep their first element when nothing
    compares below (above) it, and nothing compares with [nan]: an
    instrument whose close is [nan] on the first day of the window gets
    [nan] from [Percent_Above_Low] and from [Percent_Below_High],
    whatever its later closes. *)
Theorem percent_from_extreme_first_nan `{External} (assets : list asset)
  (row : vec) (rest : window) (j : nat) :
  j < length assets -> nth j row NaN = NaN ->
  (exists out,
     compute Factors.Percent_Above_Low assets [row :: rest] = Ok out /\
     nth j out (of_Z 0) = NaN) /\
  (exists out,
     compute Factors.Percent_Below_High assets [row :: rest] = Ok out /\
     nth j out (of_Z 0) = NaN).
Proof.
  intros Hj Hnan.
  assert (Hcol : column j (row :: rest) = NaN :: column j rest)
    by (simpl; now rewrite Hnan).
  split.
  - destruct (per_column_total Factors.Percent_Above_Low_column assets
                row rest) as (out & E & _ & Hnth).
    + intros x col. unfold Factors.Percent_Above_Low_column.
      destruct (py_index_last_nonempty x col) as [a ->]. simpl. eauto.
    + exists out. split; [exact E|]. specialize (Hnth j Hj).
      rewrite Hcol, Percent_Above_Low_column_first_NaN in Hnth. congruence.
  - destruct (per_column_total Factors.Percent_Below_High_column assets
                row rest) as (out & E & _ & Hnth).
    + intros x col. unfold Factors.Percent_Below_High_column.
      destruct (py_index_last_nonempty x col) as [a ->]. simpl. eauto.
    + exists out. split; [exact E|]. specialize (Hnth j Hj).
      rewrite Hcol, Percent_Below_High_column_first_NaN in Hnth. congruence.
Qed.

Lemma percent_from_extreme_first_nan_witness :
  (exists out,
     compute Factors.Percent_Above_Low [24; 5061]%Z
       [[of_Z 10; NaN] :: [[of_Z 12; of_Z 7]; [of_Z 11; of_Z 9]]] = Ok out /\
     nth 1 out (of_Z 0) = NaN) /\
  (exists out,
     compute Factors.Percent_Below_High [24; 5061]%Z
       [[of_Z 10; NaN] :: [[of_Z 12; of_Z 7]; [of_Z 11; of_Z 9]]] = Ok out /\
     nth 1 out (of_Z 0) = NaN).
Proof.
  apply (percent_from_extreme_first_nan (H := sample_external)
           [24; 5061]%Z [of_Z 10; NaN]
           [[of_Z 12; of_Z 7]; [of_Z 11; of_Z 9]] 1).
  - simpl. lia.
  - reflexivity.
Defined.

(** ** Downside risk of an instrument that never lost *)

Lemma np_nanvar_no_valid (ddof : nat) (v : vec) :
  count_valid v = 0 -> np_nanvar ddof v = NaN.
Proof.
  intros Hc. unfold np_nanvar. rewrite Hc. cbv zeta.
  replace (Z.of_nat 0 - Z.of_nat ddof <=? 0)%Z with true; [reflexivity|].
  symmetry. apply Z.leb_le. lia.
Qed.

Lemma filter_none {A} (q : A -> bool) (l : list A) :
  Forall (fun x => q x = false) l -> filter q l = [].
Proof.
  induction 1 as [|x l Hx _ IH]; simpl; auto. now rewrite Hx.
Qed.

(** [Downside_Risk] of the catalogue takes [np.nanstd] of the negative
    monthly returns [col_ret[col_ret < 0]]: for an instrument without a
    negative monthly return this is the deviation of an empty array,
    [nan], and not 0. *)
Theorem Downside_Risk_no_loss `{External} (assets : list asset)
  (close_ : window) (j : nat) :
  np_sqrt NaN = NaN -> j < length assets ->
  Forall (fun r => nlt r (of_Z 0) = false)
         (column_returns (column j (slice_step 21 close_))) ->
  exists out,
    compute Factors.Downside_Risk assets [close_] = Ok out /\
    length out = length assets /\
    nth j out (of_Z 0) = NaN.
Proof.
  intros Hsqrt Hj Hret. simpl.
  unfold Factors.Downside_Risk_compute, Factors.per_column.
  rewrite (mapM_Ok _
             (fun col => np_nanstd (filter (fun r => nlt r (of_Z 0))
                                           (column_returns col))))
    by reflexivity.
  eexists. split; [reflexivity|]. split.
  - now rewrite length_map, length_transpose.
  - rewrite (nth_map_in_range _ _ _ _ ([] : vec))
      by now rewrite length_transpose.
    rewrite nth_transpose by assumption.
    rewrite (filter_none _ _ Hret). unfold np_nanstd.
    rewrite np_nanvar_no_valid by reflexivity. exact Hsqrt.
Qed.

Lemma Downside_Risk_no_loss_witness :
  exists out,
    compute Factors.Downside_Risk [24%Z] [repeat [of_Z 100] 43] = Ok out /\
    length out = 1 /\
    nth 0 out (of_Z 0) = NaN.
Proof.
  apply (Downside_Risk_no_loss (H := sample_external) [24%Z]
           (repeat [of_Z 100] 43) 0).
  - reflexivity.
  - simpl. lia.
  - vm_compute. repeat constructor.
Defined.

Lemma column_map_rows (g : num -> num) (j : nat) (w : window) :
  g NaN = NaN -> column j (map (map g) w) = map g (column j w).
Proof.
  intros Hg. unfold column. rewrite !map_map. apply map_ext. intros row.
  rewrite <- Hg at 1. apply map_nth.
Qed.

Lemma count_valid_no_loss (col : vec) :
  Forall (fun r => nlt r (of_Z 0) = false) col ->
  count_valid (map (fun r => if nlt r (of_Z 0) then r else NaN) col) = 0.
Proof.
  unfold count_valid. induction 1 as [|x l Hx _ IH]; simpl; auto.
  now rewrite Hx.
Qed.

(** The same holds for [Downside_Risk] of [AlphasLibIndex.py], which
    masks the returns that are not negative with [nan] before
    [np.nanstd(..., axis=0)]. *)
Theorem AlphasLib_Downside_Risk_no_loss `{External} (assets : list asset)
  (rets : window) (j : nat) :
  np_sqrt NaN = NaN -> j < length assets ->
  Forall (fun r => nlt r (of_Z 0) = false) (column j rets) ->
  exists out,
    AlphasLib.Downside_Risk_compute assets rets = Ok out /\
    length out = length assets /\
    nth j out (of_Z 0) = NaN.
Proof.
  intros Hsqrt Hj Hret. unfold AlphasLib.Downside_Risk_compute.
  eexists. split; [reflexivity|]. unfold AlphasLib.nanstd_axis0. split.
  - now rewrite length_map, length_transpose.
  - rewrite (nth_map_in_range _ _ _ _ ([] : vec))
      by now rewrite length_transpose.
    rewrite nth_transpose by assumption.
    rewrite column_map_rows by reflexivity. unfold np_nanstd.
    rewrite np_nanvar_no_valid by now apply count_valid_no_loss.
    exact Hsqrt.
Qed.

Lemma AlphasLib_Downside_Risk_no_loss_witness :
  exists out,
    AlphasLib.Downside_Risk_compute [24%Z] [[ratio 1 100]; [of_Z 0]]
    = Ok out /\
    length out = 1 /\
    nth 0 out (of_Z 0) = NaN.
Proof.
  apply (AlphasLib_Downside_Risk_no_loss (H := sample_external) [24%Z]
           [[ratio 1 100]; [of_Z 0]] 0).
  - reflexivity.
  - simpl. lia.
  - vm_compute. repeat constructor.
Defined.

(** ** Volatility of a price that does not move *)

Lemma column_constant (j : nat) (w : window) (c : num) :
  (forall row, In row w -> nth j row NaN = c) ->
  column j w = repeat c (length w).
Proof.
  unfold column. induction w as [|row w IH]; simpl; intros Hc; auto.
  rewrite (Hc row) by auto. f_equal. apply IH. auto.
Qed.

Lemma pd_diff_constant (l : Qc) (n : nat) :
  Pioneer.pd_diff (repeat (Fin l) (S n)) = NaN :: repeat (Fin 0%Qc) n.
Proof.
  unfold Pioneer.pd_diff. cbn [repeat]. f_equal.
  change (Fin l :: repeat (Fin l) n) with (repeat (Fin l) (S n)).
  induction n as [|n IH]; [reflexivity|].
  cbn [repeat map2]. f_equal.
  - simpl. f_equal. ring.
  - exact IH.
Qed.

Lemma ndiv_zero_pos (k : Qc) : (0 < k)%Qc -> ndiv (Fin 0%Qc) (Fin k) = Fin 0%Qc.
Proof.
  intros Hk. unfold ndiv.
  destruct (Qc_is_zero k) eqn:Ez.
  - apply Qc_is_zero_true in Ez. rewrite Ez in Hk. discriminate.
  - f_equal. unfold Qcdiv. ring.
Qed.

Lemma Forall_repeat {A} (P : A -> Prop) (x : A) (n : nat) :
  P x -> Forall P (repeat x n).
Proof. intros Hx. induction n; simpl; constructor; auto. Qed.

Lemma np_nanvar_still (n : nat) :
  2 <= n -> np_nanvar 1 (NaN :: repeat (Fin 0%Qc) n) = Fin 0%Qc.
Proof.
  intros Hn.
  assert (Hcnt : count_valid (NaN :: repeat (Fin 0%Qc) n) = n).
  { unfold count_valid. simpl. induction n as [|k IH]; simpl; auto.
    destruct k as [|k]; [lia|].
    destruct k as [|k]; [reflexivity|]. f_equal. apply IH. lia. }
  assert (Hsum : np_sum (replace_nan (NaN :: repeat (Fin 0%Qc) n))
                 = Fin 0%Qc).
  { apply np_sum_zeros. simpl. constructor; auto.
    clear. induction n; simpl; constructor; auto. }
  unfold np_nanvar. rewrite Hcnt, Hsum. cbv zeta.
  unfold of_nat, of_Z. rewrite (ndiv_zero_pos _ (of_nat_pos n ltac:(lia))).
  replace (Z.of_nat n - Z.of_nat 1 <=? 0)%Z with false
    by (symmetry; apply Z.leb_gt; lia).
  rewrite np_sum_zeros.
  - replace (Z.of_nat n - Z.of_nat 1)%Z with (Z.of_nat (n - 1)) by lia.
    apply ndiv_zero_pos. apply of_nat_pos. lia.
  - simpl. constructor; [reflexivity|]. clear.
    induction n as [|k IH]; simpl; constructor; auto.
Qed.

(** Pioneer's [Volatility] is [1 / std] of the daily differences of the
    logarithm of the close: for an instrument whose close is the same on
    every day of the window the deviation is 0 and the factor is
    [+inf], the largest value there is, so that this instrument ranks
    first. *)
Theorem Volatility_still_price `{External} (assets : list asset)
  (close_ : window) (j : nat) (c : num) (l : Qc) :
  np_sqrt (Fin 0%Qc) = Fin 0%Qc -> np_log c = Fin l ->
  j < length assets -> 3 <= length close_ ->
  (forall row, In row close_ -> nth j row NaN = c) ->
  exists out,
    compute Pioneer.Volatility assets [close_] = Ok out /\
    length out = length assets /\
    nth j out (of_Z 0) = PInf.
Proof.
  intros Hsqrt Hlog Hj Hlen Hc. simpl. unfold Pioneer.Volatility_compute.
  eexists. split; [reflexivity|]. unfold sdivv. split.
  - now rewrite !length_map, length_transpose.
  - rewrite map_map.
    rewrite (nth_map_in_range _ _ _ _ ([] : vec))
      by now rewrite length_transpose.
    rewrite nth_transpose by assumption.
    rewrite (column_constant _ _ _ Hc), map_repeat, Hlog.
    destruct (length close_) as [|n] eqn:En; [lia|].
    rewrite pd_diff_constant. unfold Pioneer.pd_std.
    rewrite np_nanvar_still by lia. rewrite Hsqrt. reflexivity.
Qed.

Lemma Volatility_still_price_witness :
  exists out,
    compute Pioneer.Volatility [24; 5061]%Z
      [[[of_Z 1; of_Z 2]; [of_Z 1; of_Z 3]; [of_Z 1; of_Z 2]]] = Ok out /\
    length out = 2 /\
    nth 0 out (of_Z 0) = PInf.
Proof.
  apply (Volatility_still_price (H := sample_external) [24; 5061]%Z
           [[of_Z 1; of_Z 2]; [of_Z 1; of_Z 3]; [of_Z 1; of_Z 2]]
           0 (of_Z 1) 0%Qc).
  - reflexivity.
  - reflexivity.
  - simpl. lia.
  - simpl. lia.
  - intros row [<-|[<-|[<-|[]]]]; reflexivity.
Defined.

(** ** Sales growth *)

Lemma Qc_sub_inside (a b B : Qc) :
  (- B < a)%Qc -> (a < B)%Qc -> (- B < b)%Qc -> (b < B)%Qc ->
  (- (B + B) < a + - b)%Qc /\ (a + - b < B + B)%Qc.
Proof.
  unfold Qclt. intros H1 H2 H3 H4.
  unfold Qcplus, Qcopp, Q2Qc, this in *.
  repeat rewrite Qred_correct in *. lra.
Qed.

Lemma below_half (x : num) :
  below (pow2 1021) x -> below (pow2 1022) x.
Proof.
  destruct x as [| | |q]; simpl; auto. intros [Hlo Hhi]. split.
  - apply (Qclt_trans _ (- pow2 1021)); [reflexivity | exact Hlo].
  - apply (Qclt_trans _ (pow2 1021)); [exact Hhi | reflexivity].
Qed.

Lemma nsub_below (x y : num) :
  below (pow2 1021) x -> below (pow2 1021) y -> below (pow2 1022) (nsub x y).
Proof.
  assert (E : (pow2 1021 + pow2 1021)%Qc = pow2 1022)
    by (apply Qc_is_canon; vm_compute; reflexivity).
  destruct x as [| | |a], y as [| | |b]; simpl; auto.
  intros [H1 H2] [H3 H4]. rewrite <- E. now apply Qc_sub_inside.
Qed.

Lemma nsub_annualized (x y : num) :
  below (pow2 1021) x -> below (pow2 1021) y ->
  nsub (nmul x four) (nmul y four) = nmul (nsub x y) four.
Proof.
  intros Hx Hy. assert (Hd := nsub_below x y Hx Hy).
  apply below_half in Hx, Hy.
  destruct x as [| | |a], y as [| | |b];
    rewrite ?(nmul_four_inside _ Hx), ?(nmul_four_inside _ Hy);
    try reflexivity.
  change (nsub (Fin a) (Fin b)) with (Fin (a + - b)) in *.
  rewrite (nmul_four_inside _ Hd). unfold nsub, nneg, nadd. f_equal. ring.
Qed.

Lemma growth_annualized (a b : vec) :
  Forall (below (pow2 1021)) a -> Forall (below (pow2 1021)) b ->
  vdiv (vsub (vmuls a four) (vmuls b four)) (vmuls b four)
  = vdiv (vsub a b) b.
Proof.
  unfold vdiv, vsub, vmuls. intros Ha. revert b.
  induction Ha as [|x a Hx _ IH]; intros b Hb; [reflexivity|].
  destruct Hb as [|y b Hy Hb]; [reflexivity|]. simpl.
  rewrite (nsub_annualized _ _ Hx Hy).
  rewrite (ndiv_annualized _ _ (nsub_below _ _ Hx Hy) (below_half _ Hy)).
  now rewrite IH.
Qed.

(** [Sales_Growth_3M] and [Sales_Growth_12M] multiply both revenues by 4
    before taking the growth.  On a window whose finite entries are below
    [2^1021] in absolute value, so that neither the products nor their
    difference leave the range of [float64], the factor cancels: both
    return the plain rate of change [(sales[-1] - sales[0]) / sales[0]]
    that the price momentum factors compute, with the same errors on a
    window without rows. *)
Theorem sales_growth_is_rate_of_change `{External} (assets : list asset)
  (sales : window) :
  (forall row, In row sales -> Forall (below (pow2 1021)) row) ->
  compute Factors.Sales_Growth_3M assets [sales]
  = Factors.rate_of_change sales /\
  compute Factors.Sales_Growth_12M assets [sales]
  = Factors.rate_of_change sales.
Proof.
  intros Hr.
  assert (E : Factors.sales_growth sales = Factors.rate_of_change sales).
  { unfold Factors.sales_growth, Factors.rate_of_change.
    destruct (py_index sales (-1)) as [s_last|] eqn:El; simpl; auto.
    destruct (py_index sales 0) as [s_first|] eqn:Ef; simpl; auto.
    apply py_index_In in El, Ef.
    now rewrite growth_annualized by auto. }
  split; exact E.
Qed.

Lemma sales_growth_is_rate_of_change_witness :
  compute Factors.Sales_Growth_3M [24; 5061]%Z
    [[[of_Z 100; of_Z 50]; [of_Z 120; of_Z 40]]]
  = Factors.rate_of_change [[of_Z 100; of_Z 50]; [of_Z 120; of_Z 40]] /\
  compute Factors.Sales_Growth_12M [24; 5061]%Z
    [[[of_Z 100; of_Z 50]; [of_Z 120; of_Z 40]]]
  = Factors.rate_of_change [[of_Z 100; of_Z 50]; [of_Z 120; of_Z 40]].
Proof.
  apply (sales_growth_is_rate_of_change (H := sample_external) [24; 5061]%Z
           [[of_Z 100; of_Z 50]; [of_Z 120; of_Z 40]]).
  intros row [<-|[<-|[]]];
    repeat (apply Forall_cons; [split; reflexivity|]); apply Forall_nil.
Defined.

(** ** Arity of the factors *)

Ltac wrong_arity ws :=
  let Hl := fresh "Hl" in
  intros Hl; simpl in Hl;
  destruct ws as [|? [|? [|? [|? [|? ?]]]]];
  simpl in Hl; try reflexivity; exfalso; lia.

(** Every factor of the catalogue and of Pioneer's pipeline declares as
    many [inputs] as its [compute] takes arrays: called with another
    number of arrays, [compute] raises [TypeError] and reads no data. *)
Theorem catalogue_arity `{External} (name : string) (f : CustomFactor)
  (assets : list asset) (ws : list window) :
  In (name, f) (Factors.FACTORS ++ Pioneer.PIPELINE) ->
  length ws <> length (inputs f) ->
  compute f assets ws = Raise TypeError.
Proof.
  intros Hin. apply in_app_or in Hin. destruct Hin as [Hin|Hin].
  - unfold Factors.FACTORS in Hin.
    repeat (destruct Hin as [E|Hin];
            [injection E as _ <-; wrong_arity ws|]).
    destruct Hin.
  - unfold Pioneer.PIPELINE in Hin.
    repeat (destruct Hin as [E|Hin];
            [injection E as _ <-; wrong_arity ws|]).
    destruct Hin.
Qed.

Lemma catalogue_arity_witness :
  compute Factors.Price_To_Book [24%Z] [[[of_Z 10]]] = Raise TypeError.
Proof.
  apply (catalogue_arity (H := sample_external) "Price to Book"%string
           Factors.Price_To_Book [24%Z] [[[of_Z 10]]]).
  - apply in_or_app. left. unfold Factors.FACTORS.
    simpl. repeat first [left; reflexivity | right].
  - simpl. lia.
Defined.

(** ** Factors on the windows of the engine *)

Ltac start_completes :=
  let assets := fresh "assets" in
  let ws := fresh "ws" in
  let Hn := fresh "Hn" in
  let Hs := fresh "Hs" in
  let Hspy := fresh "Hspy" in
  intros assets ws [Hn Hs] Hspy; simpl in Hn, Hs;
  destruct ws as [|w1 [|w2 [|w3 [|w4 [|w5 ws]]]]]; try discriminate Hn;
  clear Hn;
  repeat (apply Forall_cons_iff in Hs;
          let Hl := fresh "Hl" in
          let Hw := fresh "Hw" in
          destruct Hs as [[Hl Hw] Hs]);
  clear Hs.

Ltac open_result :=
  lazymatch goal with
  | |- exists out, ?r = _ /\ _ => let h := head_of r in unfold h
  end.

(** Reads the rows the computation indexes; each is there. *)
Ltac rows_present :=
  cbv delta [vec window] in *;
  repeat lazymatch goal with
    | Hw : rectangular ?n ?w |- context [py_index ?w ?i] =>
        let row := fresh "row" in
        let E := fresh "E" in
        destruct (py_index w i) as [row|] eqn:E;
        [ pose proof (row_length _ _ _ _ Hw E); cbn [bind]
        | exfalso; rewrite (py_index_in_range w i []) in E by lia;
          discriminate E ]
    end.

Ltac rowwise_completes :=
  start_completes; simpl compute; open_result;
  try unfold Factors.rate_of_change, Factors.sales_growth;
  rows_present;
  eexists; (split; [reflexivity|]);
  try assumption; vec_length.

Section Completion.
Context `{External}.

Lemma rowwise_factors_complete :
  Forall completes
    [ Factors.Price_To_Sales; Factors.Price_To_Earnings;
      Factors.Price_To_Diluted_Earnings; Factors.Price_To_Forward_Earnings;
      Factors.Dividend_Yield; Factors.Price_To_Free_Cashflows;
      Factors.Price_To_Operating_Cashflows; Factors.Price_To_Book;
      Factors.Cashflows_To_Assets; Factors.EV_To_Cashflows;
      Factors.EV_To_EBITDA; Factors.EBITDA_Yield;
      Factors.Price_Momentum_1M; Factors.Price_Momentum_3M;
      Factors.Price_Momentum_6M; Factors.Price_Momentum_12M;
      Factors.Returns_39W; Factors.Capex_To_Assets; Factors.Capex_To_Sales;
      Factors.Capex_To_Cashflows; Factors.EBIT_To_Assets;
      Factors.Operating_Cashflows_To_Assets;
      Factors.Retained_Earnings_To_Assets; Factors.Market_Cap;
      Factors.Log_Market_Cap; Factors.Log_Market_Cap_Cubed;
      Factors.Sales_Growth_3M; Factors.Sales_Growth_12M;
      Factors.EPS_Growth_12M; Factors.Asset_Growth_3M;
      Factors.Current_Ratio; Factors.Asset_To_Equity_Ratio;
      Factors.Interest_Coverage; Factors.Debt_To_Asset_Ratio;
      Factors.Debt_To_Equity_Ratio; Factors.Net_Debt_Growth_3M;
      Factors.Working_Capital_To_Assets; Factors.Working_Capital_To_Sales;
      Factors.Dividend_Growth; Factors.Dividend_Payout_Ratio;
      Factors.Gross_Income_Margin; Factors.Net_Income_Margin;
      Factors.Return_On_Total_Equity; Factors.Return_On_Total_Assets;
      Factors.Return_On_Total_Invest_Capital;
      Factors.Mean_Reversion_1M;
      Pioneer.Momentum; Pioneer.Quality ].
Proof.
  repeat (apply Forall_cons; [rowwise_completes|]). apply Forall_nil.
Qed.


(** Loops over the columns *)

Lemma mapM_total {A B} (f : A -> result B) (l : list A) :
  (forall x, In x l -> exists y, f x = Ok y) ->
  exists v, mapM f l = Ok v /\ length v = length l.
Proof.
  induction l as [|x l IH]; intros Hf; simpl.
  - eauto.
  - destruct (Hf x) as [y ->]; [simpl; auto|].
    destruct IH as (v & -> & Hv); [intros; apply Hf; simpl; auto|].
    simpl. eexists. split; [reflexivity|]. simpl. now rewrite Hv.
Qed.

Lemma per_column_completes (f : vec -> result num) (assets : list asset)
  (w : window) :
  (forall j, j < length assets -> exists y, f (column j w) = Ok y) ->
  exists out,
    Factors.per_column f assets w = Ok out /\ length out = length assets.
Proof.
  intros Hf. unfold Factors.per_column.
  destruct (mapM_total f (transpose (length assets) w)) as (v & E & Hv).
  - intros col Hcol. apply In_transpose in Hcol.
    destruct Hcol as (j & Hj & ->). auto.
  - exists v. rewrite length_transpose in Hv. auto.
Qed.

Lemma py_index_last_column (j : nat) (w : window) :
  length w <> 0 -> exists a, py_index (column j w) (-1) = Ok a.
Proof.
  intros Hw. eexists. apply (py_index_in_range _ _ NaN).
  rewrite length_column. lia.
Qed.

Lemma Percent_Above_Low_completes : completes Factors.Percent_Above_Low.
Proof.
  start_completes. apply per_column_completes. intros j Hj.
  unfold Factors.Percent_Above_Low_column.
  destruct (py_index_last_column j w1) as [a ->]; [lia|].
  assert (Hc := length_column j w1).
  destruct (column j w1) as [|x col]; [simpl in Hc; lia|].
  simpl. eauto.
Qed.

Lemma Percent_Below_High_completes : completes Factors.Percent_Below_High.
Proof.
  start_completes. apply per_column_completes. intros j Hj.
  unfold Factors.Percent_Below_High_column.
  destruct (py_index_last_column j w1) as [a ->]; [lia|].
  assert (Hc := length_column j w1).
  destruct (column j w1) as [|x col]; [simpl in Hc; lia|].
  simpl. eauto.
Qed.

Lemma Price_Oscillator_completes : completes Factors.Price_Oscillator.
Proof.
  start_completes. apply per_column_completes. intros j Hj.
  unfold Factors.Price_Oscillator_column. eauto.
Qed.

Lemma Trendline_completes : completes Factors.Trendline.
Proof.
  start_completes. apply per_column_completes. intros j Hj.
  unfold Factors.Trendline_column.
  rewrite np_cov_same_length
    by (rewrite length_column, length_map, length_seq; assumption).
  simpl. eauto.
Qed.

Lemma Downside_Risk_completes : completes Factors.Downside_Risk.
Proof.
  start_completes. apply per_column_completes. intros j Hj.
  unfold Factors.Downside_Risk_column. eauto.
Qed.

Lemma Vol_3M_completes : completes Factors.Vol_3M.
Proof.
  start_completes. apply per_column_completes. intros j Hj.
  unfold Factors.Vol_3M_column. eauto.
Qed.

Lemma Index_Beta_completes : completes Factors.Index_Beta.
Proof.
  start_completes. destruct (find_asset_present _ _ Hspy) as [b Hb].
  rewrite (Index_Beta_outputs _ _ _ Hb). eexists. split; [reflexivity|].
  now rewrite length_map, length_transpose.
Qed.

Lemma Downside_Beta_completes : completes Factors.Downside_Beta.
Proof.
  start_completes. destruct (find_asset_present _ _ Hspy) as [b Hb].
  pose proof (Downside_Beta_outputs _ w1 _ Hb) as E. cbv zeta in E.
  rewrite E. eexists. split; [reflexivity|].
  now rewrite length_map, length_transpose.
Qed.

Lemma Asset_Turnover_completes : completes Factors.Asset_Turnover.
Proof.
  start_completes. simpl compute. unfold Factors.Asset_Turnover_compute.
  destruct (per_column_completes Factors.Asset_Turnover_column assets w2)
    as (t & -> & Ht).
  - intros j Hj. unfold Factors.Asset_Turnover_column.
    rewrite (py_index_in_range _ (-1) NaN) by (rewrite length_column; lia).
    rewrite (py_index_in_range _ 0 NaN) by (rewrite length_column; lia).
    simpl. eauto.
  - cbn [bind]. rows_present. eexists. split; [reflexivity|]. vec_length.
Qed.

Lemma MACD_Signal_10d_completes : completes Factors.MACD_Signal_10d.
Proof.
  start_completes. eexists. split; [reflexivity|].
  now rewrite length_map, length_transpose.
Qed.

Lemma Stochastic_Oscillator_completes :
  completes Factors.Stochastic_Oscillator.
Proof.
  start_completes. eexists. split; [reflexivity|]. unfold zip3.
  rewrite length_map, !length_combine, !length_transpose. lia.
Qed.

Lemma enumerate_in_range (col : vec) :
  Forall (fun it => (0 <= fst it < Z.of_nat (length col))%Z) (enumerate col).
Proof.
  apply Forall_forall. intros [n price] Hin. unfold enumerate in Hin.
  apply in_combine_l in Hin. apply in_map_iff in Hin.
  destruct Hin as (k & <- & Hk). apply in_seq in Hk. simpl. lia.
Qed.

Lemma Moneyflow_numerator_total (col_c col_v : vec)
  (items : list (Z * num)) (acc : num) :
  length col_c = length col_v ->
  Forall (fun it => (0 <= fst it < Z.of_nat (length col_c))%Z) items ->
  exists y, Factors.Moneyflow_numerator col_c col_v items acc = Ok y.
Proof.
  intros Hlen Hit. revert acc.
  induction Hit as [|[n price] items Hn _ IH]; intros acc;
    cbn [Factors.Moneyflow_numerator]; [eauto|].
  simpl in Hn.
  rewrite (py_index_in_range col_c (n - 1) NaN) by lia. cbn [bind].
  rewrite (py_index_in_range col_v n NaN) by lia. cbn [bind].
  apply IH.
Qed.

Lemma Moneyflow_Volume_5d_completes : completes Factors.Moneyflow_Volume_5d.
Proof.
  start_completes. simpl compute.
  unfold Factors.Moneyflow_Volume_5d_compute, transpose.
  rewrite combine_map_same, mapM_map.
  destruct (mapM_total
              (fun j => Factors.Moneyflow_Volume_5d_column
                          (column j w1, column j w2))
              (seq 0 (length assets))) as (v & -> & Hv).
  - intros j _. unfold Factors.Moneyflow_Volume_5d_column, np_dot.
    rewrite !length_column, Hl, Hl0. cbn [Nat.eqb bind].
    destruct (Moneyflow_numerator_total (column j w1) (column j w2)
                (enumerate (column j w1)) (Fin 0%Qc)) as [y ->].
    + rewrite !length_column. congruence.
    + apply enumerate_in_range.
    + cbn [bind]. eauto.
  - rewrite length_seq in Hv. eauto.
Qed.

Lemma Mertons_DD_completes : completes Factors.Mertons_DD.
Proof.
  start_completes. simpl compute.
  unfold Factors.Mertons_DD_compute, zip4, zip3, transpose.
  rewrite !combine_map_same, mapM_map.
  match goal with
  | |- exists out, mapM ?f ?l = _ /\ _ =>
      destruct (mapM_total f l) as (v & -> & Hv)
  end.
  - intros j _. unfold Factors.Mertons_DD_column.
    rewrite !(py_index_in_range _ (-1) NaN) by (rewrite length_column; lia).
    cbn [bind]. eauto.
  - rewrite length_seq in Hv. eauto.
Qed.

Lemma Value_completes : completes Pioneer.Value.
Proof.
  start_completes. simpl compute. unfold Pioneer.Value_compute.
  rows_present. eexists. split; [reflexivity|]. unfold zip3.
  rewrite length_map, !length_combine, !length_pd_rank. lia.
Qed.

Lemma Volatility_completes : completes Pioneer.Volatility.
Proof.
  start_completes. eexists. split; [reflexivity|]. unfold sdivv.
  now rewrite !length_map, length_transpose.
Qed.

Lemma AvgDailyDollarVolumeTraded_completes :
  completes Pioneer.AvgDailyDollarVolumeTraded.
Proof.
  start_completes. simpl. unfold Pioneer.AvgDailyDollarVolumeTraded_compute.
  rewrite np_multiply_same_rows by congruence.
  eexists. split; [reflexivity|].
  now rewrite length_map, length_transpose.
Qed.

Lemma rowwise_completes_member (f : CustomFactor) :
  In f
    [ Factors.Price_To_Sales; Factors.Price_To_Earnings;
      Factors.Price_To_Diluted_Earnings; Factors.Price_To_Forward_Earnings;
      Factors.Dividend_Yield; Factors.Price_To_Free_Cashflows;
      Factors.Price_To_Operating_Cashflows; Factors.Price_To_Book;
      Factors.Cashflows_To_Assets; Factors.EV_To_Cashflows;
      Factors.EV_To_EBITDA; Factors.EBITDA_Yield;
      Factors.Price_Momentum_1M; Factors.Price_Momentum_3M;
      Factors.Price_Momentum_6M; Factors.Price_Momentum_12M;
      Factors.Returns_39W; Factors.Capex_To_Assets; Factors.Capex_To_Sales;
      Factors.Capex_To_Cashflows; Factors.EBIT_To_Assets;
      Factors.Operating_Cashflows_To_Assets;
      Factors.Retained_Earnings_To_Assets; Factors.Market_Cap;
      Factors.Log_Market_Cap; Factors.Log_Market_Cap_Cubed;
      Factors.Sales_Growth_3M; Factors.Sales_Growth_12M;
      Factors.EPS_Growth_12M; Factors.Asset_Growth_3M;
      Factors.Current_Ratio; Factors.Asset_To_Equity_Ratio;
      Factors.Interest_Coverage; Factors.Debt_To_Asset_Ratio;
      Factors.Debt_To_Equity_Ratio; Factors.Net_Debt_Growth_3M;
      Factors.Working_Capital_To_Assets; Factors.Working_Capital_To_Sales;
      Factors.Dividend_Growth; Factors.Dividend_Payout_Ratio;
      Factors.Gross_Income_Margin; Factors.Net_Income_Margin;
      Factors.Return_On_Total_Equity; Factors.Return_On_Total_Assets;
      Factors.Return_On_Total_Invest_Capital;
      Factors.Mean_Reversion_1M;
      Pioneer.Momentum; Pioneer.Quality ] ->
  completes f.
Proof.
  apply (proj1 (Forall_forall _ _) rowwise_factors_complete).
Qed.

Lemma catalogue_members_complete (name : string) (f : CustomFactor) :
  In (name, f) (Factors.FACTORS ++ Pioneer.PIPELINE) -> completes f.
Proof.
  intros Hin. simpl in Hin.
  repeat (destruct Hin as [Hin|Hin];
          [ injection Hin as _ <-;
            first
              [ exact Percent_Above_Low_completes
              | exact Percent_Below_High_completes
              | exact Price_Oscillator_completes
              | exact Trendline_completes
              | exact Vol_3M_completes
              | exact Downside_Risk_completes
              | exact MACD_Signal_10d_completes
              | exact Stochastic_Oscillator_completes
              | exact Moneyflow_Volume_5d_completes
              | exact Mertons_DD_completes
              | exact Volatility_completes
              | exact AvgDailyDollarVolumeTraded_completes
              | exact Asset_Turnover_completes
              | exact Index_Beta_completes
              | exact Downside_Beta_completes
              | exact Value_completes
              | apply rowwise_completes_member;
                simpl; repeat first [left; reflexivity | right] ]
          | ]).
  contradiction.
Qed.

(** On the windows the engine hands over (one per declared input, each
    of [window_length] rows with one value per instrument), and with the
    benchmark among the instruments, no factor of the catalogue or of
    Pioneer's pipeline raises: each returns one value per instrument. *)
Theorem catalogue_completes (name : string) (f : CustomFactor)
  (assets : list asset) (ws : list window) :
  In (name, f) (Factors.FACTORS ++ Pioneer.PIPELINE) ->
  engine_shaped f assets ws ->
  In Factors.SPY assets ->
  exists out, compute f assets ws = Ok out /\ length out = length assets.
Proof.
  intros Hin. now apply (catalogue_members_complete name).
Qed.

End Completion.

Lemma catalogue_completes_witness :
  exists out,
    compute Factors.Price_To_Book [24; 8554]%Z
      [[[of_Z 30; of_Z 200]]; [[of_Z 10; of_Z 40]]] = Ok out /\
    length out = 2.
Proof.
  apply (catalogue_completes (H := sample_external) "Price to Book"%string
           Factors.Price_To_Book [24; 8554]%Z
           [[[of_Z 30; of_Z 200]]; [[of_Z 10; of_Z 40]]]).
  - apply in_or_app. left. unfold Factors.FACTORS.
    simpl. repeat first [left; reflexivity | right].
  - split; [reflexivity|]. repeat constructor.
  - simpl. tauto.
Defined.

(** ** Weights of Pioneer's [before_trading_start] *)

Lemma Qc_plus_pos (a b : Qc) : (0 <= a)%Qc -> (0 < b)%Qc -> (0 < a + b)%Qc.
Proof.
  intros Ha Hb.
  assert (Hle : (0 + b <= a + b)%Qc)
    by (apply Qcplus_le_compat; [assumption | apply Qcle_refl]).
  replace (0 + b)%Qc with b in Hle by ring.
  eapply Qclt_le_trans; eauto.
Qed.

Lemma of_nat_nonneg (n : nat) : (0 <= Q2Qc (inject_Z (Z.of_nat n)))%Qc.
Proof.
  change 0%Qc with (Q2Qc (inject_Z 0)).
  unfold Qcle, Q2Qc, this. rewrite !Qred_correct. unfold Qle. simpl. lia.
Qed.

Lemma finite_positive_gt (x : num) :
  finite_positive x -> is_finite x = true /\ ngt x (of_Z 0) = true.
Proof.
  intros (q & Hq & ->). split; [reflexivity|].
  unfold ngt, nlt, of_Z. now apply Qc_ltb_true.
Qed.

Lemma ndiv_positive (a b : Qc) :
  (0 < a)%Qc -> (0 < b)%Qc -> finite_positive (ndiv (Fin a) (Fin b)).
Proof.
  intros Ha Hb. unfold ndiv.
  destruct (Qc_is_zero b) eqn:Ez.
  - apply Qc_is_zero_true in Ez. rewrite Ez in Hb. discriminate.
  - exists (a / b)%Qc. split; auto. now apply Qc_div_pos.
Qed.

Lemma rank_positive (a b : nat) :
  finite_positive (nadd (of_nat a) (ndiv (of_nat (b + 1)) (of_Z 2))).
Proof.
  unfold of_nat, of_Z.
  destruct (ndiv_positive (Q2Qc (inject_Z (Z.of_nat (b + 1))))
              (Q2Qc (inject_Z 2))) as (q & Hq & ->).
  - apply of_nat_pos. lia.
  - reflexivity.
  - simpl. eexists. split; [|reflexivity].
    apply Qc_plus_pos; auto. apply of_nat_nonneg.
Qed.

Lemma pd_rank_positive (v : vec) (x : num) :
  (forall y, In y v -> valid y = true) ->
  In x (Pioneer.pd_rank v) -> finite_positive x.
Proof.
  intros Hv Hx. unfold Pioneer.pd_rank in Hx. apply in_map_iff in Hx.
  destruct Hx as (y & <- & Hy). specialize (Hv y Hy). unfold valid in Hv.
  destruct (isnan y); [discriminate|]. apply rank_positive.
Qed.

Lemma nanmean4_positive (a b c d : num) :
  finite_positive a -> finite_positive b -> finite_positive c ->
  finite_positive d -> finite_positive (np_nanmean [a; b; c; d]).
Proof.
  intros (qa & Ha & ->) (qb & Hb & ->) (qc & Hc & ->) (qd & Hd & ->).
  unfold np_nanmean.
  change (count_valid [Fin qa; Fin qb; Fin qc; Fin qd]) with 4.
  change (np_sum (replace_nan [Fin qa; Fin qb; Fin qc; Fin qd]))
    with (Fin (0 + qa + qb + qc + qd)%Qc).
  apply ndiv_positive; [|apply of_nat_pos; lia].
  apply Qc_plus_pos; [apply Qclt_le_weak|assumption].
  apply Qc_plus_pos; [apply Qclt_le_weak|assumption].
  apply Qc_plus_pos; [apply Qclt_le_weak|assumption].
  apply Qc_plus_pos; [apply Qcle_refl|assumption].
Qed.

Lemma dropna_valid (output : list Pioneer_selection.factor_row)
  (g : Pioneer_selection.factor_row -> num) (y : num) :
  (forall r, In r (Pioneer_selection.dropna output) -> valid (g r) = true) ->
  In y (map g (Pioneer_selection.dropna output)) -> valid y = true.
Proof.
  intros Hg Hy. apply in_map_iff in Hy. destruct Hy as (r & <- & Hr). auto.
Qed.

Lemma dropna_rows (output : list Pioneer_selection.factor_row)
  (r : Pioneer_selection.factor_row) :
  In r (Pioneer_selection.dropna output) ->
  valid (Pioneer_selection.value r) = true /\
  valid (Pioneer_selection.momentum r) = true /\
  valid (Pioneer_selection.quality r) = true /\
  valid (Pioneer_selection.volatility r) = true.
Proof.
  unfold Pioneer_selection.dropna. intros Hr. apply filter_In in Hr.
  destruct Hr as [_ Hr]. rewrite !andb_true_iff in Hr. tauto.
Qed.

Lemma mean_ranks_positive (output : list Pioneer_selection.factor_row)
  (e : asset * num) :
  In e (Pioneer_selection.mean_ranks (Pioneer_selection.dropna output)) ->
  finite_positive (snd e).
Proof.
  unfold Pioneer_selection.mean_ranks. destruct e as [s x]. intros He.
  apply in_combine_r in He. apply in_map_iff in He.
  destruct He as ([[[a b] c] d] & <- & Hr). unfold zip4, zip3 in Hr.
  assert (Hd := in_combine_r _ _ _ _ Hr). apply in_combine_l in Hr.
  assert (Hc := in_combine_r _ _ _ _ Hr). apply in_combine_l in Hr.
  assert (Hb := in_combine_r _ _ _ _ Hr). apply in_combine_l in Hr.
  simpl snd.
  apply nanmean4_positive;
    (eapply pd_rank_positive; [|eassumption]);
    intros y Hy; apply (dropna_valid _ _ _ ) in Hy; auto;
    intros r Hin; now apply dropna_rows in Hin.
Qed.

Lemma length_mean_ranks (results : list Pioneer_selection.factor_row) :
  length (Pioneer_selection.mean_ranks results) = length results.
Proof.
  unfold Pioneer_selection.mean_ranks, zip4, zip3.
  rewrite length_combine, !length_map, !length_combine, !length_pd_rank,
    !length_map. lia.
Qed.

(** Sums of positive numbers *)

Lemma positives_as_Fin (l : vec) :
  Forall finite_positive l ->
  exists qs, l = map Fin qs /\ Forall (fun q => (0 < q)%Qc) qs.
Proof.
  induction 1 as [|x l (q & Hq & ->) _ (qs & -> & Hqs)].
  - exists []. auto.
  - exists (q :: qs). auto.
Qed.

Lemma np_sum_Fin (qs : list Qc) (a : Qc) :
  fold_left nadd (map Fin qs) (Fin a) = Fin (fold_left Qcplus qs a).
Proof.
  revert a. induction qs as [|q qs IH]; intros a; simpl; auto.
Qed.

Lemma qsum_positive (qs : list Qc) (a : Qc) :
  Forall (fun q => (0 < q)%Qc) qs -> (0 < a)%Qc ->
  (0 < fold_left Qcplus qs a)%Qc.
Proof.
  intros Hqs. revert a. induction Hqs as [|q qs Hq _ IH]; intros a Ha;
    simpl; auto.
  apply IH. apply Qc_plus_pos; auto. now apply Qclt_le_weak.
Qed.

Lemma qsum_scaled (qs : list Qc) (s a : Qc) :
  s <> 0%Qc ->
  fold_left Qcplus (map (fun q => (q / s)%Qc) qs) (a / s)%Qc
  = (fold_left Qcplus qs a / s)%Qc.
Proof.
  intros Hs. revert a. induction qs as [|q qs IH]; intros a; simpl; auto.
  replace (a / s + q / s)%Qc with ((a + q) / s)%Qc by (field; auto).
  apply IH.
Qed.

Lemma filter_valid_positive (l : vec) :
  Forall finite_positive l -> filter valid l = l.
Proof.
  induction 1 as [|x l (q & _ & ->) _ IH]; simpl; auto. now rewrite IH.
Qed.

Lemma normalized_positive (l : vec) :
  l <> [] -> Forall finite_positive l ->
  np_sum (map (fun x => ndiv x (np_sum l)) l) = of_Z 1 /\
  Forall finite_positive (map (fun x => ndiv x (np_sum l)) l).
Proof.
  intros Hne Hl. destruct (positives_as_Fin l Hl) as (qs & -> & Hqs).
  destruct qs as [|q0 qs]; [now destruct Hne|].
  set (s := fold_left Qcplus (q0 :: qs) 0%Qc).
  assert (Esum : np_sum (map Fin (q0 :: qs)) = Fin s)
    by (unfold np_sum; apply np_sum_Fin).
  rewrite Esum.
  assert (Hs : (0 < s)%Qc).
  { unfold s. simpl. inversion Hqs; subst. apply qsum_positive; auto.
    apply Qc_plus_pos; [apply Qcle_refl|assumption]. }
  assert (Ns : s <> 0%Qc) by (intros E; rewrite E in Hs; discriminate).
  assert (Ez : Qc_is_zero s = false).
  { destruct (Qc_is_zero s) eqn:E; auto.
    apply Qc_is_zero_true in E. contradiction. }
  assert (Emap : map (fun x => ndiv x (Fin s)) (map Fin (q0 :: qs))
                 = map Fin (map (fun q => (q / s)%Qc) (q0 :: qs))).
  { rewrite !map_map. apply map_ext. intros q. unfold ndiv.
    now rewrite Ez. }
  rewrite Emap. split.
  - unfold np_sum. rewrite np_sum_Fin.
    replace 0%Qc with (0 / s)%Qc at 1 by (field; auto).
    rewrite qsum_scaled by assumption. fold s. unfold of_Z.
    change (Q2Qc (inject_Z 1)) with 1%Qc. f_equal. now field.
  - rewrite map_map. apply Forall_forall. intros x Hx.
    apply in_map_iff in Hx. destruct Hx as (q & <- & Hq).
    rewrite Forall_forall in Hqs. exists (q / s)%Qc. split; auto.
    apply Qc_div_pos; auto.
Qed.

Lemma normalized_weights (s : list (asset * num)) :
  s <> [] -> Forall finite_positive (map snd s) ->
  np_sum (map snd (Pioneer_selection.normalized s)) = of_Z 1 /\
  Forall finite_positive (map snd (Pioneer_selection.normalized s)).
Proof.
  intros Hne Hs. unfold Pioneer_selection.normalized, Pioneer_selection.pd_sum.
  rewrite (filter_valid_positive _ Hs).
  assert (E : map snd (map (fun e => (fst e, ndiv (snd e) (np_sum (map snd s)))) s)
              = map (fun x => ndiv x (np_sum (map snd s))) (map snd s))
    by (rewrite !map_map; reflexivity).
  rewrite E. apply normalized_positive; auto.
  intros E0. apply map_eq_nil in E0. contradiction.
Qed.

Lemma nonempty_length {A} (l : list A) : l <> [] <-> 0 < length l.
Proof. destruct l; simpl; split; intros; try lia; congruence. Qed.

(** Pioneer's [before_trading_start] turns the mean ranks into weights:
    when at least one row of the pipeline output is without [nan], every
    short weight and every long weight is finite and above 0, and the
    weights of each side sum to 1. *)
Theorem Pioneer_weights_normalized
  (order : list (asset * num) -> list (asset * num))
  (output : list Pioneer_selection.factor_row) :
  (forall l, Permutation (order l) l) ->
  Pioneer_selection.dropna output <> [] ->
  let lists := Pioneer_selection.before_trading_start order output in
  np_sum (map snd (fst lists)) = of_Z 1 /\
  np_sum (map snd (snd lists)) = of_Z 1 /\
  Forall (fun e => is_finite (snd e) = true /\ ngt (snd e) (of_Z 0) = true)
         (fst lists ++ snd lists).
Proof.
  intros Hperm Hne. cbv zeta.
  unfold Pioneer_selection.before_trading_start. cbn [fst snd].
  set (ranks := order (Pioneer_selection.mean_ranks
                         (Pioneer_selection.dropna output))).
  assert (Hpos : forall e, In e ranks -> finite_positive (snd e)).
  { intros e He. apply (Permutation_in _ (Hperm _)) in He.
    now apply mean_ranks_positive in He. }
  assert (Hlen : 0 < length ranks).
  { unfold ranks. rewrite (Permutation_length (Hperm _)), length_mean_ranks.
    now apply nonempty_length. }
  destruct (normalized_weights
              (map (fun e => (fst e, ndiv (of_Z 1) (snd e)))
                   (firstn 150 ranks))) as [Ss Ps].
  { apply nonempty_length. rewrite length_map, length_firstn. lia. }
  { rewrite map_map. apply Forall_forall. intros x Hx.
    apply in_map_iff in Hx. destruct Hx as (e & <- & He).
    apply In_firstn in He. destruct (Hpos e He) as (q & Hq & ->).
    cbn [snd]. unfold of_Z. apply ndiv_positive; auto. reflexivity. }
  destruct (normalized_weights (slice_last 150 ranks)) as [Sl Pl].
  { apply nonempty_length. rewrite length_slice_last. lia. }
  { apply Forall_forall. intros x Hx. apply in_map_iff in Hx.
    destruct Hx as (e & <- & He). apply In_slice_last in He. auto. }
  split; [exact Ss|]. split; [exact Sl|].
  apply Forall_app. split; apply Forall_forall; intros e He;
    apply finite_positive_gt.
  - rewrite Forall_forall in Ps. apply Ps. now apply in_map.
  - rewrite Forall_forall in Pl. apply Pl. now apply in_map.
Qed.

Lemma insert_entry_Permutation (e : asset * num) (l : list (asset * num)) :
  Permutation (Pioneer_selection.insert_entry e l) (e :: l).
Proof.
  induction l as [|x l IH]; simpl; auto.
  destruct (nlt (snd x) (snd e)); auto.
  apply (Permutation_trans (perm_skip x IH)). apply perm_swap.
Qed.

Lemma order_by_value_Permutation (l : list (asset * num)) :
  Permutation (Pioneer_selection.order_by_value l) l.
Proof.
  induction l as [|e l IH]; simpl; auto.
  apply (Permutation_trans (insert_entry_Permutation _ _)). now constructor.
Qed.

Lemma Pioneer_weights_normalized_witness :
  let lists := Pioneer_selection.before_trading_start
                 Pioneer_selection.order_by_value
                 Pioneer_selection.sample_factors in
  np_sum (map snd (fst lists)) = of_Z 1 /\
  np_sum (map snd (snd lists)) = of_Z 1 /\
  Forall (fun e => is_finite (snd e) = true /\ ngt (snd e) (of_Z 0) = true)
         (fst lists ++ snd lists).
Proof.
  apply (Pioneer_weights_normalized Pioneer_selection.order_by_value
           Pioneer_selection.sample_factors order_by_value_Permutation).
  discriminate.
Defined.

(** With at most 150 rows without [nan], Pioneer's short and long series
    hold the same securities, in the same order: every instrument is
    held long and short at once. *)
Theorem Pioneer_small_universe
  (order : list (asset * num) -> list (asset * num))
  (output : list Pioneer_selection.factor_row) :
  (forall l, Permutation (order l) l) ->
  length (Pioneer_selection.dropna output) <= 150 ->
  let lists := Pioneer_selection.before_trading_start order output in
  map fst (fst lists) = map fst (snd lists) /\
  Permutation (map fst (fst lists))
              (map Pioneer_selection.security
                   (Pioneer_selection.dropna output)).
Proof.
  intros Hperm Hlen. cbv zeta.
  unfold Pioneer_selection.before_trading_start. cbn [fst snd].
  set (ranks := order (Pioneer_selection.mean_ranks
                         (Pioneer_selection.dropna output))).
  assert (Hr : length ranks <= 150).
  { unfold ranks. now rewrite (Permutation_length (Hperm _)),
      length_mean_ranks. }
  rewrite firstn_all2, slice_last_all by assumption.
  unfold Pioneer_selection.normalized. rewrite !map_map. cbn [fst].
  split; [reflexivity|].
  apply (Permutation_trans (Permutation_map fst (Hperm _))).
  unfold Pioneer_selection.mean_ranks.
  assert (E : forall (A B : Type) (a : list A) (b : list B),
             length a = length b -> map fst (combine a b) = a).
  { intros A B a. induction a as [|x a IH]; intros [|y b]; simpl;
      try discriminate; auto. intros [= E]. f_equal. auto. }
  rewrite E; [reflexivity|].
  unfold zip4, zip3.
  rewrite !length_map, !length_combine, !length_pd_rank, !length_map. lia.
Qed.

Lemma Pioneer_small_universe_witness :
  let lists := Pioneer_selection.before_trading_start
                 Pioneer_selection.order_by_value
                 Pioneer_selection.sample_factors in
  map fst (fst lists) = map fst (snd lists) /\
  Permutation (map fst (fst lists))
              (map Pioneer_selection.security
                   (Pioneer_selection.dropna
                      Pioneer_selection.sample_factors)).
Proof.
  apply (Pioneer_small_universe Pioneer_selection.order_by_value
           Pioneer_selection.sample_factors order_by_value_Permutation).
  vm_compute. lia.
Defined.

(** ** [Factor1] of the MVF strategy *)



